(** * sparse_dot_mkl: the marshalling layer of [sparse_dot.py]

    A shallow embedding of [src/sparse_dot_mkl/sparse_dot.py].  Python
    exceptions and the mutation of caller-owned matrices are modelled by a
    state-and-exception monad over a [world]: the heap of scipy matrix
    objects, the log of vendor entry-point calls, the two class attributes
    [MKL.MKL_INT] and [MKL.MKL_INT_NUMPY], and the signatures assigned to the
    foreign function objects of the class.  The vendor library is a
    parameter of the development: a function from the call history and the
    current call to the values it hands back. *)

From Stdlib Require Import ZArith List String Ascii Bool Lia DecimalString.
Import ListNotations.
Local Open Scope string_scope.
Local Open Scope list_scope.
Local Open Scope Z_scope.

(** ** Machine integers *)

(** [ctypes.c_longlong] and [ctypes.c_int], the two candidates for
    [MKL.MKL_INT]. *)
Inductive ctype := c_longlong | c_int.

Definition bits (t : ctype) : Z :=
  match t with c_longlong => 64 | c_int => 32 end.

(** The value of a signed [bits t]-bit cell holding [z]: two's-complement
    wrap-around. *)
Definition c_value (t : ctype) (z : Z) : Z :=
  (z + 2 ^ (bits t - 1)) mod 2 ^ bits t - 2 ^ (bits t - 1).

(** Subtraction of two numpy integer scalars of width [t]. *)
Definition np_sub (t : ctype) (a b : Z) : Z := c_value t (a - b).

(** ** numpy arrays and scipy matrices *)

Inductive dtype :=
  float16 | float32 | float64 | int32 | int64 | complex128.

Definition dtype_eq_dec (a b : dtype) : {a = b} + {a <> b}.
Proof. decide equality. Defined.

Definition dtype_eqb (a b : dtype) : bool :=
  if dtype_eq_dec a b then true else false.

(** [str(dtype)], as it appears in formatted messages. *)
Definition dtype_name (d : dtype) : string :=
  match d with
  | float16 => "float16" | float32 => "float32" | float64 => "float64"
  | int32 => "int32" | int64 => "int64" | complex128 => "complex128"
  end.

(** The numpy dtype of an array read through a pointer to [t]. *)
Definition np_of_ctype (t : ctype) : dtype :=
  match t with c_longlong => int64 | c_int => int32 end.

(** A one-dimensional array: its dtype and its items (for a float array, the
    items are the encodings of its values). *)
Record ndarray := { dtype_of : dtype; items : list Z }.

(** [a.shape[0]] *)
Definition shape0 (a : ndarray) : Z := Z.of_nat (List.length (items a)).

Inductive sp_format := csr | csc | coo.

Definition sp_format_eqb (a b : sp_format) : bool :=
  match a, b with
  | csr, csr | csc, csc | coo, coo => true
  | _, _ => false
  end.

(** A scipy sparse matrix object: format tag, shape and the three arrays.
    [coo] stands for the formats other than CSR and CSC; the record gives
    them the same three arrays, where a scipy COO object has [row] and [col]
    arrays and no [indptr]. *)
Record spmatrix := {
  format : sp_format;
  shape : Z * Z;
  data : ndarray;
  indices : ndarray;
  indptr : ndarray
}.

(** [matrix.dtype] is the dtype of the value array. *)
Definition dtype_m (m : spmatrix) : dtype := dtype_of (data m).

Definition set_data (a : ndarray) (m : spmatrix) : spmatrix :=
  {| format := format m; shape := shape m; data := a;
     indices := indices m; indptr := indptr m |}.

Definition set_indices (a : ndarray) (m : spmatrix) : spmatrix :=
  {| format := format m; shape := shape m; data := data m;
     indices := a; indptr := indptr m |}.

Definition set_indptr (a : ndarray) (m : spmatrix) : spmatrix :=
  {| format := format m; shape := shape m; data := data m;
     indices := indices m; indptr := a |}.

Definition is_csr (m : spmatrix) : bool := sp_format_eqb (format m) csr.
Definition isspmatrix_csc (m : spmatrix) : bool := sp_format_eqb (format m) csc.

(** ** Vendor entry points *)

Definition handle := Z.

Inductive entry_point :=
  | mkl_sparse_d_create_csr | mkl_sparse_s_create_csr
  | mkl_sparse_d_create_csc | mkl_sparse_s_create_csc
  | mkl_sparse_d_export_csr | mkl_sparse_s_export_csr
  | mkl_sparse_d_export_csc | mkl_sparse_s_export_csc
  | mkl_sparse_spmm | mkl_sparse_destroy | mkl_sparse_order
  | mkl_sparse_convert_csr.

(** [handle_func.__name__] *)
Definition fn_name (f : entry_point) : string :=
  match f with
  | mkl_sparse_d_create_csr => "mkl_sparse_d_create_csr"
  | mkl_sparse_s_create_csr => "mkl_sparse_s_create_csr"
  | mkl_sparse_d_create_csc => "mkl_sparse_d_create_csc"
  | mkl_sparse_s_create_csc => "mkl_sparse_s_create_csc"
  | mkl_sparse_d_export_csr => "mkl_sparse_d_export_csr"
  | mkl_sparse_s_export_csr => "mkl_sparse_s_export_csr"
  | mkl_sparse_d_export_csc => "mkl_sparse_d_export_csc"
  | mkl_sparse_s_export_csc => "mkl_sparse_s_export_csc"
  | mkl_sparse_spmm => "mkl_sparse_spmm"
  | mkl_sparse_destroy => "mkl_sparse_destroy"
  | mkl_sparse_order => "mkl_sparse_order"
  | mkl_sparse_convert_csr => "mkl_sparse_convert_csr"
  end.

Definition entry_point_eq_dec (a b : entry_point) : {a = b} + {a <> b}.
Proof. decide equality. Defined.

Definition entry_point_eqb (a b : entry_point) : bool :=
  if entry_point_eq_dec a b then true else false.

(** The argument types that [MKL._set_int_type] lists in the [argtypes] of
    the foreign function objects; [ndpointer_MKL_INT t] is
    [ndpointer(dtype=cls.MKL_INT, ndim=1, flags='C_CONTIGUOUS')], [ndpt_double]
    and [ndpt_single] are the two value-array types. *)
Inductive argtype :=
  | sparse_matrix_t
  | POINTER_sparse_matrix_t
  | ctypes_c_int
  | POINTER_c_int
  | ctypes_MKL_INT (t : ctype)
  | POINTER_MKL_INT (t : ctype)
  | POINTER_POINTER_MKL_INT (t : ctype)
  | ndpointer_MKL_INT (t : ctype)
  | ndpt_double
  | ndpt_single
  | POINTER_POINTER_c_double
  | POINTER_POINTER_c_float.

(** The two attributes [_set_int_type] assigns on a foreign function
    object; [None] stands for an attribute that was never assigned. *)
Record signature := {
  argtypes : option (list argtype);
  restypes : option argtype
}.

(** A foreign function object as the class body leaves it (lines 23 to
    67): looked up in the library, nothing assigned. *)
Definition unassigned : signature := {| argtypes := None; restypes := None |}.

(** [f.argtypes = a; f.restypes = _ctypes.c_int] on the object of entry
    point [f]. *)
Definition assign (f : entry_point) (a : list argtype)
    (s : entry_point -> signature) : entry_point -> signature :=
  fun g => if entry_point_eqb g f
           then {| argtypes := Some a; restypes := Some ctypes_c_int |}
           else s g.

(** The assignments of [MKL._set_int_type] (lines 74 to 127), in source
    order, for [cls.MKL_INT = t]. *)
Definition set_signatures (t : ctype) (s : entry_point -> signature)
  : entry_point -> signature :=
  let create_argtypes :=
    [POINTER_sparse_matrix_t; ctypes_c_int; ctypes_MKL_INT t; ctypes_MKL_INT t;
     ndpointer_MKL_INT t; ndpointer_MKL_INT t; ndpointer_MKL_INT t] in
  let export_argtypes :=
    [sparse_matrix_t; POINTER_c_int; POINTER_MKL_INT t; POINTER_MKL_INT t;
     POINTER_POINTER_MKL_INT t; POINTER_POINTER_MKL_INT t;
     POINTER_POINTER_MKL_INT t] in
  let s := assign mkl_sparse_d_create_csr
             (create_argtypes ++ [ndpt_double]) s in
  let s := assign mkl_sparse_s_create_csr
             (create_argtypes ++ [ndpt_single]) s in
  let s := assign mkl_sparse_d_create_csc
             (create_argtypes ++ [ndpt_double]) s in
  let s := assign mkl_sparse_s_create_csc
             (create_argtypes ++ [ndpt_single]) s in
  let s := assign mkl_sparse_d_export_csr
             (export_argtypes ++ [POINTER_POINTER_c_double]) s in
  let s := assign mkl_sparse_s_export_csr
             (export_argtypes ++ [POINTER_POINTER_c_float]) s in
  let s := assign mkl_sparse_d_export_csc
             (export_argtypes ++ [POINTER_POINTER_c_double]) s in
  let s := assign mkl_sparse_s_export_csr
             (export_argtypes ++ [POINTER_POINTER_c_float]) s in
  let s := assign mkl_sparse_spmm
             [ctypes_c_int; sparse_matrix_t; sparse_matrix_t;
              POINTER_sparse_matrix_t] s in
  let s := assign mkl_sparse_destroy [sparse_matrix_t] s in
  assign mkl_sparse_order [sparse_matrix_t] s.

(** One foreign call, with the arguments marshalled to it.  A create call
    receives the two dimensions as [MKL_INT] values, the pointer array split
    into its begin and end slices, the index array and the value array. *)
Inductive call :=
  | Create (fn : entry_point) (t : ctype) (rows cols : Z)
           (rows_start rows_end : list Z) (col_indx values : ndarray)
  | Export (fn : entry_point) (t : ctype) (h : handle)
  | Spmm (a b : handle)
  | Destroy (h : handle)
  | Order (h : handle)
  | ConvertCsr (h : handle).

(** What a call hands back: the integer status, the handle written through
    the output reference of create, spmm and convert, and the cells and
    buffers written through the output references of export. *)
Record reply := {
  status : Z;
  out_handle : handle;
  out_ordering : Z;
  out_nrows : Z;
  out_ncols : Z;
  out_rows_start : nat -> Z;
  out_rows_end : nat -> Z;
  out_col_indx : nat -> Z;
  out_values : nat -> Z
}.

(** ** Exceptions, world and monad *)

Inductive exn :=
  | ValueError (msg : string)
  | AssertionError
  | KeyError (key : Z)
  | TypeError
  | IndexError
  | ZeroDivisionError
  | ImportError (msg : string).

Definition ref := nat.

Record world := {
  heap : ref -> spmatrix;
  next_ref : ref;
  trace : list call;
  MKL_INT : option ctype;
  MKL_INT_NUMPY : option dtype;
  signatures : entry_point -> signature
}.

Inductive outcome (A : Type) :=
  | Ret (a : A)
  | Raise (e : exn).
Arguments Ret {A} a.
Arguments Raise {A} e.

Definition M (A : Type) : Type := world -> outcome A * world.

Definition ret {A} (a : A) : M A := fun w => (Ret a, w).
Definition raise {A} (e : exn) : M A := fun w => (Raise e, w).
Definition bind {A B} (m : M A) (k : A -> M B) : M B :=
  fun w => match m w with
           | (Ret a, w') => k a w'
           | (Raise e, w') => (Raise e, w')
           end.

Declare Scope py_scope.
Delimit Scope py_scope with py.
Notation "x <- m ;; k" := (bind m (fun x => k))
  (at level 100, m at next level, right associativity) : py_scope.
Notation "m ;;; k" := (bind m (fun _ => k))
  (at level 100, right associativity) : py_scope.
Local Open Scope py_scope.

(** [assert b] *)
Definition assert (b : bool) : M unit :=
  if b then ret tt else raise AssertionError.

(** [try: body  except (AssertionError, ValueError): handler] *)
Definition caught (e : exn) : bool :=
  match e with
  | AssertionError | ValueError _ => true
  | _ => false
  end.

Definition try_except {A} (body : M A) (handler : M A) : M A :=
  fun w => match body w with
           | (Ret a, w') => (Ret a, w')
           | (Raise e, w') => if caught e then handler w' else (Raise e, w')
           end.

Definition deref (r : ref) : M spmatrix := fun w => (Ret (heap w r), w).

(** The world after the object at [r] has been changed by [f]. *)
Definition store (r : ref) (f : spmatrix -> spmatrix) (w : world) : world :=
  {| heap := fun r' => if Nat.eqb r' r then f (heap w r) else heap w r';
     next_ref := next_ref w; trace := trace w;
     MKL_INT := MKL_INT w; MKL_INT_NUMPY := MKL_INT_NUMPY w;
     signatures := signatures w |}.

(** The world after one more foreign call has been made. *)
Definition log_call (c : call) (w : world) : world :=
  {| heap := heap w; next_ref := next_ref w; trace := trace w ++ [c];
     MKL_INT := MKL_INT w; MKL_INT_NUMPY := MKL_INT_NUMPY w;
     signatures := signatures w |}.

Definition update (r : ref) (f : spmatrix -> spmatrix) : M unit :=
  fun w => (Ret tt, store r f w).

(** A matrix object created by the running code lives at a fresh reference. *)
Definition new_matrix (m : spmatrix) : M ref :=
  fun w => (Ret (next_ref w),
            {| heap := fun r' => if Nat.eqb r' (next_ref w) then m else heap w r';
               next_ref := S (next_ref w); trace := trace w;
               MKL_INT := MKL_INT w; MKL_INT_NUMPY := MKL_INT_NUMPY w;
               signatures := signatures w |}).

(** Reading the class attributes.  Before the module-level discovery they are
    [None], and using [None] as a type fails. *)
Definition get_MKL_INT : M ctype :=
  fun w => match MKL_INT w with
           | Some t => (Ret t, w)
           | None => (Raise TypeError, w)
           end.

Definition get_MKL_INT_NUMPY : M dtype :=
  fun w => match MKL_INT_NUMPY w with
           | Some t => (Ret t, w)
           | None => (Raise TypeError, w)
           end.

(** ** Strings *)

(** [str(n)] for a Python integer *)
Definition str_int (z : Z) : string := NilZero.string_of_int (Z.to_int z).

Definition lower_ascii (c : ascii) : ascii :=
  let n := nat_of_ascii c in
  if (Nat.leb 65 n && Nat.leb n 90)%bool then ascii_of_nat (n + 32) else c.

(** [s.lower()] on ASCII text *)
Fixpoint lower (s : string) : string :=
  match s with
  | EmptyString => EmptyString
  | String c t => String (lower_ascii c) (lower t)
  end.

(** [RETURN_CODES] *)
Definition RETURN_CODES : list (Z * string) :=
  [ (0, "SPARSE_STATUS_SUCCESS");
    (1, "SPARSE_STATUS_NOT_INITIALIZED");
    (2, "SPARSE_STATUS_ALLOC_FAILED");
    (3, "SPARSE_STATUS_INVALID_VALUE");
    (4, "SPARSE_STATUS_EXECUTION_FAILED");
    (5, "SPARSE_STATUS_INTERNAL_ERROR");
    (6, "SPARSE_STATUS_NOT_SUPPORTED") ].

(** [d[k]] on a dict given by its items *)
Fixpoint lookup (k : Z) (d : list (Z * string)) : option string :=
  match d with
  | [] => None
  | (k', v) :: d' => if k =? k' then Some v else lookup k d'
  end.

(** The six categories a nonzero status can name. *)
Definition error_categories : list string :=
  [ "SPARSE_STATUS_NOT_INITIALIZED"; "SPARSE_STATUS_ALLOC_FAILED";
    "SPARSE_STATUS_INVALID_VALUE"; "SPARSE_STATUS_EXECUTION_FAILED";
    "SPARSE_STATUS_INTERNAL_ERROR"; "SPARSE_STATUS_NOT_SUPPORTED" ].

(** ["{fn} returned {v} ({e})".format(...)] *)
Definition returned_msg (fn : string) (v : Z) (e : string) : string :=
  (fn ++ " returned " ++ str_int v ++ " (" ++ e ++ ")")%string.

(** The check that follows every status-returning call:
    [if ret_val != 0: raise ValueError("... ({e})".format(e=RETURN_CODES[ret_val]))].
    The dict lookup is evaluated while the message is built, so a status
    that is not a key raises [KeyError] instead. *)
Definition check_return (fn : string) (ret_val : Z) : M unit :=
  if ret_val =? 0 then ret tt
  else match lookup ret_val RETURN_CODES with
       | Some e => raise (ValueError (returned_msg fn ret_val e))
       | None => raise (KeyError ret_val)
       end.

(** ** numpy and scipy operations used by the module *)

(** [a[0]] and [a[-1]] *)
Definition item0 (l : list Z) : M Z :=
  match l with
  | [] => raise IndexError
  | x :: _ => ret x
  end.

Definition item_last (l : list Z) : M Z :=
  match l with
  | [] => raise IndexError
  | _ :: _ => ret (last l 0)
  end.

(** [numpy.ctypeslib.as_array(p, shape=(n,))]: the [n] cells that start at
    pointer [p]; a negative length is refused. *)
Definition as_array (p : nat -> Z) (n : Z) : M (list Z) :=
  if n <? 0
  then raise (ValueError ("Array length must be >= 0, not " ++ str_int n))
  else ret (map p (seq 0 (Z.to_nat n))).

(** [get_index_dtype(arrays, maxval=maxval, check_contents=True)] of scipy:
    int32 when [maxval] and every array fit, int64 otherwise.  An array fits
    when its dtype is int32, when it is empty, or when it is an integer
    array whose items all lie in the int32 range. *)
Definition int32_fits (z : Z) : bool :=
  ((-2147483648 <=? z) && (z <=? 2147483647))%bool.

Definition keeps_int32 (a : ndarray) : bool :=
  if dtype_eqb (dtype_of a) int32 then true
  else match items a with
       | [] => true
       | _ :: _ => (dtype_eqb (dtype_of a) int64
                    && forallb int32_fits (items a))%bool
       end.

Definition get_index_dtype (arrays : list ndarray) (maxval : Z) : dtype :=
  if maxval >? 2147483647 then int64
  else if forallb keeps_int32 arrays then int32 else int64.

(** The index dtype scipy gives to the arrays of a matrix it builds from a
    shape alone. *)
Definition index_dtype (sh : Z * Z) : dtype :=
  if Z.max (fst sh) (snd sh) <=? 2147483647 then int32 else int64.

Definition major (f : sp_format) (sh : Z * Z) : Z :=
  match f with csc => snd sh | _ => fst sh end.

(** The matrix [constructor((nrows, ncols), dtype=dt)] builds: no stored
    entry, an all-zero pointer array. *)
Definition empty_of (f : sp_format) (sh : Z * Z) (dt : dtype) : spmatrix :=
  {| format := f; shape := sh;
     data := {| dtype_of := dt; items := [] |};
     indices := {| dtype_of := index_dtype sh; items := [] |};
     indptr := {| dtype_of := index_dtype sh;
                  items := repeat 0 (Z.to_nat (major f sh + 1)) |} |}.

(** [csr_matrix((nrows, ncols), dtype=dt)] / [csc_matrix(...)]; scipy refuses
    a negative dimension. *)
Definition sp_matrix_from_shape (f : sp_format) (sh : Z * Z) (dt : dtype)
  : M spmatrix :=
  if ((fst sh <? 0) || (snd sh <? 0))%bool
  then raise (ValueError "'shape' elements cannot be negative")
  else ret (empty_of f sh dt).

(** A matrix is structurally empty when it stores no value and no index. *)
Definition structurally_empty (m : spmatrix) : Prop :=
  items (data m) = [] /\ items (indices m) = [].

Section Vendor.

(** The vendor library: what a call hands back, given the calls made so
    far. *)
Variable mkl : list call -> call -> reply.

(** Element conversion of [ndarray.astype], from one dtype to another. *)
Variable convert : dtype -> dtype -> Z -> Z.

(** scipy's consistency check on a matrix built from three arrays. *)
Variable check_format : spmatrix -> bool.

(** The matrix [scipy.sparse.random(5, 5, density=0.5, format="csc",
    dtype=np.float32, random_state=50)] returns, and the comparison
    [assert_array_almost_equal] makes between two dense forms. *)
Variable test_array : spmatrix.
Variable array_almost_equal : spmatrix -> spmatrix -> bool.

(** A foreign call: logged, then answered by the vendor. *)
Definition call_mkl (c : call) : M reply :=
  fun w => (Ret (mkl (trace w) c), log_call c w).

(** [a.astype(t)]: always a new array. *)
Definition astype (t : dtype) (a : ndarray) : ndarray :=
  {| dtype_of := t; items := map (convert (dtype_of a) t) (items a) |}.

(** [constructor((data, indices, indptr), shape=sh)]: scipy stores the two
    index arrays in the dtype [get_index_dtype] picks for them and the larger
    dimension, then checks the result. *)
Definition sp_matrix_from_arrays (f : sp_format) (d i p : ndarray)
    (sh : Z * Z) : M spmatrix :=
  let idx_dtype := get_index_dtype [i; p] (Z.max (fst sh) (snd sh)) in
  let m := {| format := f; shape := sh; data := d;
              indices := {| dtype_of := idx_dtype; items := items i |};
              indptr := {| dtype_of := idx_dtype; items := items p |} |} in
  if check_format m then ret m
  else raise (ValueError "inconsistent sparse matrix arrays").

(** [MKL._set_int_type(c_type, np_type)]: the two class attributes, then the
    [argtypes] and [restypes] of the foreign function objects.  The width a
    call is marshalled with is read from [MKL.MKL_INT] when the call is
    made. *)
Definition _set_int_type (c_type : ctype) (np_type : dtype) : M unit :=
  fun w => (Ret tt,
            {| heap := heap w; next_ref := next_ref w; trace := trace w;
               MKL_INT := Some c_type; MKL_INT_NUMPY := Some np_type;
               signatures := set_signatures c_type (signatures w) |}).

Definition _check_scipy_index_typing (sparse_matrix : ref) : M unit :=
  np <- get_MKL_INT_NUMPY ;;
  m <- deref sparse_matrix ;;
  (if negb (dtype_eqb (dtype_of (indptr m)) np)
   then update sparse_matrix (fun m => set_indptr (astype np (indptr m)) m)
   else ret tt) ;;;
  m <- deref sparse_matrix ;;
  if negb (dtype_eqb (dtype_of (indices m)) np)
  then update sparse_matrix (fun m => set_indices (astype np (indices m)) m)
  else ret tt.

Definition _pass_mkl_handle (data_ref : ref) (handle_func : entry_point)
  : M handle :=
  t <- get_MKL_INT ;;
  m <- deref data_ref ;;
  r <- call_mkl (Create handle_func t
                   (c_value t (fst (shape m))) (c_value t (snd (shape m)))
                   (removelast (items (indptr m))) (tl (items (indptr m)))
                   (indices m) (data m)) ;;
  let ret_val := status r in
  check_return (fn_name handle_func) ret_val ;;;
  ret (out_handle r).

Definition _create_mkl_sparse (matrix : ref) (cast : bool)
  : M (handle * bool) :=
  m <- deref matrix ;;
  double_precision <-
    (if dtype_eqb (dtype_m m) float32 then ret false
     else if dtype_eqb (dtype_m m) float64 then ret true
     else if cast then
       update matrix (fun m => set_data (astype float64 (data m)) m) ;;;
       ret true
     else raise (ValueError "Only float32 or float64 dtypes are supported")) ;;
  _check_scipy_index_typing matrix ;;;
  m <- deref matrix ;;
  assert (shape0 (data m) =? shape0 (indices m)) ;;;
  if is_csr m then
    let csr_func := if double_precision : bool then mkl_sparse_d_create_csr
                    else mkl_sparse_s_create_csr in
    assert (shape0 (indptr m) =? fst (shape m) + 1) ;;;
    h <- _pass_mkl_handle matrix csr_func ;;
    ret (h, double_precision)
  else if isspmatrix_csc m then
    assert (shape0 (indptr m) =? snd (shape m) + 1) ;;;
    let csc_func := if double_precision : bool then mkl_sparse_d_create_csc
                    else mkl_sparse_s_create_csc in
    h <- _pass_mkl_handle matrix csc_func ;;
    ret (h, double_precision)
  else raise (ValueError "Matrix is not CSC or CSR").

Definition corrupt_msg (nrows ncols nnz : Z) : string :=
  ("Matrix (" ++ str_int nrows ++ " x " ++ str_int ncols
   ++ ") is attempting to index " ++ str_int nnz ++ " elements")%string.

(** The export entry point and the scipy constructor for an output type. *)
Definition export_choice (double_precision : bool) (output_type : string)
  : M (entry_point * sp_format) :=
  if String.eqb output_type "csr" then
    ret (if double_precision then mkl_sparse_d_export_csr
         else mkl_sparse_s_export_csr, csr)
  else if String.eqb output_type "csc" then
    ret (if double_precision then mkl_sparse_d_export_csc
         else mkl_sparse_s_export_csc, csc)
  else raise (ValueError "Only CSR and CSC output types are supported").

(** The part of [_export_mkl] that follows the status check: from the
    ordering check to the construction of the matrix, all from what the
    vendor wrote ([r]).  The constructor is [csr_matrix] exactly when the
    output type is ["csr"], so the index dimension is chosen by it. *)
Definition export_outputs (t : ctype) (sp_matrix_constructor : sp_format)
    (final_dtype : dtype) (r : reply) : M spmatrix :=
  if negb (out_ordering r =? 0)
  then raise (ValueError "1-indexing (F-style) is not supported")
  else
  let ncols := c_value t (out_ncols r) in
  let nrows := c_value t (out_nrows r) in
  if ((nrows =? 0) || (ncols =? 0))%bool
  then sp_matrix_from_shape sp_matrix_constructor (nrows, ncols) final_dtype
  else
  let index_dim :=
    match sp_matrix_constructor with csr => nrows | _ => ncols end in
  indptrb <- as_array (fun i => c_value t (out_rows_start r i)) index_dim ;;
  indptren <- as_array (fun i => c_value t (out_rows_end r i)) index_dim ;;
  first <- item0 indptrb ;;
  let indptren := first :: indptren in
  last_ <- item_last indptren ;;
  let nnz := np_sub t last_ first in
  if nnz =? 0
  then sp_matrix_from_shape sp_matrix_constructor (nrows, ncols) final_dtype
  else if ((nnz <? 0) || (nnz >? ncols * nrows))%bool
  then raise (ValueError (corrupt_msg nrows ncols nnz))
  else
  data_ <- as_array (out_values r) nnz ;;
  indices_ <- as_array (fun i => c_value t (out_col_indx r i)) nnz ;;
  sp_matrix_from_arrays sp_matrix_constructor
    {| dtype_of := final_dtype; items := data_ |}
    {| dtype_of := np_of_ctype t; items := indices_ |}
    {| dtype_of := np_of_ctype t; items := indptren |}
    (nrows, ncols).

(** [copy] selects between copying the exported buffers and viewing them in
    place; both give arrays with the same dtype and items. *)
Definition _export_mkl (csr_mkl_handle : handle) (double_precision : bool)
    (output_type : string) (copy : bool) : M spmatrix :=
  t <- get_MKL_INT ;;
  let output_type := lower output_type in
  choice <- export_choice double_precision output_type ;;
  let out_func := fst choice in
  let sp_matrix_constructor := snd choice in
  let final_dtype := if double_precision then float64 else float32 in
  r <- call_mkl (Export out_func t csr_mkl_handle) ;;
  let ret_val := status r in
  check_return (fn_name out_func) ret_val ;;;
  export_outputs t sp_matrix_constructor final_dtype r.

Definition _matmul_mkl (mat_ref_a mat_ref_b : ref) (sp_ref_a sp_ref_b : handle)
  : M handle :=
  r <- call_mkl (Spmm sp_ref_a sp_ref_b) ;;
  let ret_val := status r in
  check_return "mkl_sparse_spmm" ret_val ;;;
  a <- deref mat_ref_a ;;
  assert (shape0 (data a) =? shape0 (indices a)) ;;;
  b <- deref mat_ref_b ;;
  assert (shape0 (data b) =? shape0 (indices b)) ;;;
  ret (out_handle r).

Definition _destroy_mkl_handle (ref_handle : handle) : M unit :=
  r <- call_mkl (Destroy ref_handle) ;;
  let ret_val := status r in
  check_return "mkl_sparse_destroy" ret_val.

Definition _order_mkl_handle (ref_handle : handle) : M unit :=
  r <- call_mkl (Order ref_handle) ;;
  let ret_val := status r in
  check_return "mkl_sparse_order" ret_val.

Definition _convert_to_csr (ref_handle : handle) : M handle :=
  r <- call_mkl (ConvertCsr ref_handle) ;;
  if negb (status r =? 0) then
    _destroy_mkl_handle (out_handle r) ;;;
    raise (ValueError "CSC to CSR Conversion failed")
  else ret (out_handle r).

Definition _validate_dtype : M unit :=
  matrix <- new_matrix test_array ;;
  let test_comparison := test_array in
  created <- _create_mkl_sparse matrix false ;;
  let csc_ref := fst created in
  let precision_flag := snd created in
  csr_ref <- _convert_to_csr csc_ref ;;
  final_array <- _export_mkl csr_ref precision_flag "csr" false ;;
  assert (array_almost_equal test_comparison final_array).

(** The module-level statement that discovers the integer width. *)
Definition module_init : M unit :=
  fun w =>
    match MKL_INT w with
    | None =>
        (_set_int_type c_longlong int64 ;;;
         try_except _validate_dtype
           (_set_int_type c_int int32 ;;;
            try_except _validate_dtype
              (raise (ImportError "Unable to set MKL numeric types")))) w
    | Some _ => (Ret tt, w)
    end.

(** [str(shape)] *)
Definition shape_str (sh : Z * Z) : string :=
  ("(" ++ str_int (fst sh) ++ ", " ++ str_int (snd sh) ++ ")")%string.

Definition alignment_msg (sa sb : Z * Z) : string :=
  ("Matrix alignment error: " ++ shape_str sa ++ " * " ++ shape_str sb)%string.

Definition concordance_msg (da db : dtype) : string :=
  ("Matrix data types must be in concordance; " ++ dtype_name da ++ " and "
   ++ dtype_name db ++ " provided")%string.

(** The arguments of the debug report on a matrix: [data.min()] and
    [data.max()] fail on an array without items, and the density divides by
    the product of the two dimensions. *)
Definition matrix_stats (m : spmatrix) : M unit :=
  (if shape0 (data m) =? 0
   then raise (ValueError "zero-size array to reduction operation minimum which has no identity")
   else ret tt) ;;;
  if fst (shape m) * snd (shape m) =? 0 then raise ZeroDivisionError
  else ret tt.

(** The edge-condition test: [min(...) == 0] over the four dimensions and
    the four array lengths. *)
Definition edge_condition (a b : spmatrix) : bool :=
  Z.min (fst (shape a))
    (Z.min (snd (shape a))
      (Z.min (fst (shape b))
        (Z.min (snd (shape b))
          (Z.min (shape0 (data a))
            (Z.min (shape0 (data b))
              (Z.min (shape0 (indices a)) (shape0 (indices b)))))))) =? 0.

Definition to_float64 (m : spmatrix) : spmatrix :=
  if dtype_eqb (dtype_m m) float64 then m
  else set_data (astype float64 (data m)) m.

Definition dot_product_mkl (matrix_a matrix_b : ref)
    (cast copy reorder_output debug : bool) : M spmatrix :=
  a <- deref matrix_a ;;
  b <- deref matrix_b ;;
  if (negb (is_csr a) || negb (is_csr b))%bool
  then raise (ValueError "Both input matrices to csr_dot_product_mkl must be CSR")
  else if negb (snd (shape a) =? fst (shape b))
  then raise (ValueError (alignment_msg (shape a) (shape b)))
  else if edge_condition a b then
    let final_dtype :=
      if (negb (dtype_eqb (dtype_m a) (dtype_m b))
          || negb (dtype_eqb (dtype_m a) float32))%bool
      then float64 else float32 in
    sp_matrix_from_shape csr (fst (shape a), fst (shape b)) final_dtype
  else
  (if (negb (dtype_eqb (dtype_m a) (dtype_m b)) && cast)%bool then
     update matrix_a to_float64 ;;;
     update matrix_b to_float64
   else if negb (dtype_eqb (dtype_m a) (dtype_m b))
   then raise (ValueError (concordance_msg (dtype_m a) (dtype_m b)))
   else ret tt) ;;;
  (if debug then
     a <- deref matrix_a ;;
     matrix_stats a ;;;
     b <- deref matrix_b ;;
     matrix_stats b
   else ret tt) ;;;
  created_a <- _create_mkl_sparse matrix_a cast ;;
  let mkl_a := fst created_a in
  let a_dbl := snd created_a in
  created_b <- _create_mkl_sparse matrix_b cast ;;
  let mkl_b := fst created_b in
  let b_dbl := snd created_b in
  _order_mkl_handle mkl_a ;;;
  _order_mkl_handle mkl_b ;;;
  (if debug then
     a <- deref matrix_a ;;
     dbg_a <- _export_mkl mkl_a a_dbl (if is_csr a then "csr" else "csc") false ;;
     b <- deref matrix_b ;;
     dbg_b <- _export_mkl mkl_b b_dbl (if is_csr b then "csr" else "csc") false ;;
     a <- deref matrix_a ;;
     assert ((fst (shape dbg_a) =? fst (shape a))
             && (snd (shape dbg_a) =? snd (shape a)))%bool ;;;
     b <- deref matrix_b ;;
     assert ((fst (shape dbg_b) =? fst (shape b))
             && (snd (shape dbg_b) =? snd (shape b)))%bool
   else ret tt) ;;;
  mkl_c <- _matmul_mkl matrix_a matrix_b mkl_a mkl_b ;;
  (if reorder_output then _order_mkl_handle mkl_c else ret tt) ;;;
  python_c <- _export_mkl mkl_c (a_dbl || b_dbl) "csr" copy ;;
  (if debug then matrix_stats python_c else ret tt) ;;;
  (if copy then _destroy_mkl_handle mkl_c else ret tt) ;;;
  ret python_c.

End Vendor.

(** ** The helpers of [_mkl_interface.py]

    [_mkl_interface.py] repeats the class and the wrappers of
    [sparse_dot.py] and adds the checks below, which accept a dense numpy
    array as well as a scipy sparse matrix ([issparse]).  A sparse operand
    is an object of the heap; a dense one is a value, since the helpers never
    assign to a dense array. *)

Record dense := {
  dense_shape : list Z;
  dense_dtype : dtype;
  dense_items : list Z
}.

Inductive operand :=
  | Sparse (r : ref)
  | Dense (d : dense).

(** [str(shape)] for a shape tuple of any length *)
Fixpoint tuple_items (sh : list Z) : string :=
  match sh with
  | [] => ""
  | [x] => str_int x
  | x :: rest => (str_int x ++ ", " ++ tuple_items rest)%string
  end.

Definition tuple_str (sh : list Z) : string :=
  match sh with
  | [x] => ("(" ++ str_int x ++ ",)")%string
  | _ => ("(" ++ tuple_items sh ++ ")")%string
  end.

(** [shape[i]] *)
Definition shape_item (sh : list Z) (i : nat) : M Z :=
  match nth_error sh i with
  | Some d => ret d
  | None => raise IndexError
  end.

(** [matrix.shape] and [matrix.dtype] *)
Definition shape_of (matrix : operand) : M (list Z) :=
  match matrix with
  | Sparse r => m <- deref r ;; ret [fst (shape m); snd (shape m)]
  | Dense d => ret (dense_shape d)
  end.

Definition dtype_of_operand (matrix : operand) : M dtype :=
  match matrix with
  | Sparse r => m <- deref r ;; ret (dtype_m m)
  | Dense d => ret (dense_dtype d)
  end.

Section Interface.

Variable convert : dtype -> dtype -> Z -> Z.

Definition _sanity_check (matrix_a matrix_b : operand) : M unit :=
  sa <- shape_of matrix_a ;;
  a1 <- shape_item sa 1 ;;
  sb <- shape_of matrix_b ;;
  b0 <- shape_item sb 0 ;;
  if negb (a1 =? b0)
  then raise (ValueError ("Matrix alignment error: " ++ tuple_str sa ++ " * "
                          ++ tuple_str sb)%string)
  else ret tt.

(** [matrix.astype(np.float64)] on a dense array, and on a sparse matrix,
    where it builds a new matrix object. *)
Definition dense_astype (t : dtype) (d : dense) : dense :=
  {| dense_shape := dense_shape d; dense_dtype := t;
     dense_items := map (convert (dense_dtype d) t) (dense_items d) |}.

Definition _cast_to_float64 (matrix : operand) : M operand :=
  match matrix with
  | Sparse r =>
      m <- deref r ;;
      if negb (dtype_eqb (dtype_of (data m)) float64) then
        update r (fun m => set_data (astype convert float64 (data m)) m) ;;;
        ret (Sparse r)
      else if negb (dtype_eqb (dtype_m m) float64) then
        r' <- new_matrix (set_data (astype convert float64 (data m)) m) ;;
        ret (Sparse r')
      else ret (Sparse r)
  | Dense d =>
      if negb (dtype_eqb (dense_dtype d) float64)
      then ret (Dense (dense_astype float64 d))
      else ret (Dense d)
  end.

(** [_type_check(matrix_a, matrix_b, cast, dprint)]: the pair it returns,
    or [None] when no branch of its [if] chain is taken.  [dprint] only
    prints. *)
Definition _type_check (matrix_a matrix_b : operand) (cast : bool)
  : M (option (operand * operand)) :=
  da <- dtype_of_operand matrix_a ;;
  db <- dtype_of_operand matrix_b ;;
  if (dtype_eqb da float32 && dtype_eqb db float32)%bool
  then ret (Some (matrix_a, matrix_b))
  else if (dtype_eqb da float64 && dtype_eqb db float64)%bool
  then ret (Some (matrix_a, matrix_b))
  else if ((negb (dtype_eqb da float64) || negb (dtype_eqb db float64))
           && cast)%bool
  then
    a' <- _cast_to_float64 matrix_a ;;
    b' <- _cast_to_float64 matrix_b ;;
    ret (Some (a', b'))
  else if (negb (dtype_eqb da float64) || negb (dtype_eqb db float64))%bool
  then raise (ValueError (concordance_msg da db))
  else ret None.

(** [issparse(matrix) and min(matrix.data.shape[0],
    matrix.indices.shape[0]) == 0] *)
Definition no_entries (matrix : operand) : M bool :=
  match matrix with
  | Sparse r =>
      m <- deref r ;;
      ret (Z.min (shape0 (data m)) (shape0 (indices m)) =? 0)
  | Dense _ => ret false
  end.

Definition _empty_output_check (matrix_a matrix_b : operand) : M bool :=
  sa <- shape_of matrix_a ;;
  a0 <- shape_item sa 0 ;;
  a1 <- shape_item sa 1 ;;
  sb <- shape_of matrix_b ;;
  b0 <- shape_item sb 0 ;;
  b1 <- shape_item sb 1 ;;
  if Z.min a0 (Z.min a1 (Z.min b0 b1)) =? 0 then ret true
  else
    ea <- no_entries matrix_a ;;
    if ea then ret true
    else
      eb <- no_entries matrix_b ;;
      if eb then ret true else ret false.

End Interface.

(** ** Sample vendors and matrices *)

(** A well-behaved vendor: every call succeeds, each new handle is numbered
    by the position of the call that creates it, and every export describes
    the same 2 x 2 matrix with one entry per row. *)
Definition sample_reply (n : nat) : reply :=
  {| status := 0; out_handle := Z.of_nat (S n); out_ordering := 0;
     out_nrows := 2; out_ncols := 2;
     out_rows_start := fun i => Z.of_nat i;
     out_rows_end := fun i => Z.of_nat (S i);
     out_col_indx := fun i => Z.of_nat i;
     out_values := fun i => Z.of_nat (10 + i) |}.

Definition sample_mkl (history : list call) (c : call) : reply :=
  sample_reply (List.length history).

Definition with_status (s : Z) (r : reply) : reply :=
  {| status := s; out_handle := out_handle r; out_ordering := out_ordering r;
     out_nrows := out_nrows r; out_ncols := out_ncols r;
     out_rows_start := out_rows_start r; out_rows_end := out_rows_end r;
     out_col_indx := out_col_indx r; out_values := out_values r |}.

(** The same vendor, except that the calls selected by [p] return status
    [s]. *)
Definition failing_mkl (p : call -> bool) (s : Z) (history : list call)
    (c : call) : reply :=
  if p c then with_status s (sample_mkl history c) else sample_mkl history c.

Definition is_create (c : call) : bool :=
  match c with Create _ _ _ _ _ _ _ _ => true | _ => false end.
Definition is_export (c : call) : bool :=
  match c with Export _ _ _ => true | _ => false end.
Definition is_spmm (c : call) : bool :=
  match c with Spmm _ _ => true | _ => false end.
Definition is_destroy (c : call) : bool :=
  match c with Destroy _ => true | _ => false end.
Definition is_order (c : call) : bool :=
  match c with Order _ => true | _ => false end.
Definition is_convert (c : call) : bool :=
  match c with ConvertCsr _ => true | _ => false end.

(** Conversions and checks of the host libraries, for concrete runs. *)
Definition sample_convert (from to : dtype) (z : Z) : Z := z.
Definition sample_check (m : spmatrix) : bool := true.
Definition sample_equal (a b : spmatrix) : bool :=
  ((fst (shape a) =? fst (shape b)) && (snd (shape a) =? snd (shape b)))%bool.

Definition diag2 (f : sp_format) (dt idx : dtype) (x y : Z) : spmatrix :=
  {| format := f; shape := (2, 2);
     data := {| dtype_of := dt; items := [x; y] |};
     indices := {| dtype_of := idx; items := [0; 1] |};
     indptr := {| dtype_of := idx; items := [0; 1; 2] |} |}.

(** A world after a successful 64-bit discovery, holding two caller
    matrices at references 0 and 1. *)
Definition world_of (a b : spmatrix) : world :=
  {| heap := fun r => match r with O => a | _ => b end;
     next_ref := 2%nat; trace := [];
     MKL_INT := Some c_longlong; MKL_INT_NUMPY := Some int64;
     signatures := set_signatures c_longlong (fun _ => unassigned) |}.

Definition fresh_world : world :=
  {| heap := fun _ => diag2 coo float64 int64 0 0;
     next_ref := 0%nat; trace := [];
     MKL_INT := None; MKL_INT_NUMPY := None;
     signatures := fun _ => unassigned |}.

(** ** Sample inputs of the concrete runs *)

(** A CSR matrix that stores nothing, and one that stores a single entry in
    its first row. *)
Definition zeros_csr (rows cols : nat) (dt : dtype) : spmatrix :=
  {| format := csr; shape := (Z.of_nat rows, Z.of_nat cols);
     data := {| dtype_of := dt; items := [] |};
     indices := {| dtype_of := int32; items := [] |};
     indptr := {| dtype_of := int32; items := repeat 0 (S rows) |} |}.

Definition one_entry_csr (rows cols : nat) (dt : dtype) : spmatrix :=
  {| format := csr; shape := (Z.of_nat rows, Z.of_nat cols);
     data := {| dtype_of := dt; items := [7] |};
     indices := {| dtype_of := int32; items := [0] |};
     indptr := {| dtype_of := int32; items := 0 :: repeat 1 rows |} |}.

(** A vendor that answers every call with the same reply, and a reply for
    an export call. *)
Definition reporting (r : reply) (history : list call) (c : call) : reply := r.

Definition export_reply (s ordering nrows ncols first last_ : Z) : reply :=
  {| status := s; out_handle := 0; out_ordering := ordering;
     out_nrows := nrows; out_ncols := ncols;
     out_rows_start := fun _ => first; out_rows_end := fun _ => last_;
     out_col_indx := fun _ => 0; out_values := fun _ => 0 |}.

(** The handles a history of calls leaves allocated: those a successful
    create, multiply or conversion handed out and no destroy call was given. *)
Fixpoint live_handles (mkl : list call -> call -> reply)
    (history calls : list call) (live : list handle) : list handle :=
  match calls with
  | [] => live
  | c :: rest =>
      let r := mkl history c in
      let live' :=
        match c with
        | Create _ _ _ _ _ _ _ _ | Spmm _ _ | ConvertCsr _ =>
            if status r =? 0 then out_handle r :: live else live
        | Destroy h => remove Z.eq_dec h live
        | _ => live
        end in
      live_handles mkl (history ++ [c]) rest live'
  end.

(** Two float32 CSR operands with int32 index arrays, under a 64-bit vendor
    integer, and the matrix the sample vendor's product exports. *)
Definition sample_world : world :=
  world_of (diag2 csr float32 int32 1 2) (diag2 csr float32 int32 4 5).

Definition mixed_world : world :=
  world_of (diag2 csr float32 int32 1 2) (diag2 csr float64 int32 4 5).

Definition sample_product (copy reorder_output : bool) : spmatrix :=
  match fst (dot_product_mkl sample_mkl sample_convert sample_check
               0%nat 1%nat false copy reorder_output false sample_world) with
  | Ret m => m
  | Raise _ => empty_of csr (0, 0) float64
  end.

(** The matrix of the import-time round trip, and a vendor that rejects
    64-bit index arrays at creation. *)
Definition sample_test_array : spmatrix := diag2 csc float32 int32 10 11.

Definition only_32_bit (history : list call) (c : call) : reply :=
  match c with
  | Create _ c_longlong _ _ _ _ _ _ => with_status 3 (sample_mkl history c)
  | _ => sample_mkl history c
  end.

(** More sample worlds: operands that meet the edge condition, and two
    int32-valued operands. *)
Definition edge_world : world :=
  world_of (zeros_csr 2 3 float64) (one_entry_csr 3 4 float64).

Definition int_world : world :=
  world_of (diag2 csr int32 int32 1 2) (diag2 csr int32 int32 4 5).

Section Properties.

Variable mkl : list call -> call -> reply.
Variable convert : dtype -> dtype -> Z -> Z.
Variable check_format : spmatrix -> bool.
Variable test_array : spmatrix.
Variable array_almost_equal : spmatrix -> spmatrix -> bool.

(** ** Vocabulary of the statements *)

(** [a] after [_check_scipy_index_typing]: re-typed when its dtype is not
    the MKL integer dtype [np]. *)
Definition retype (np : dtype) (a : ndarray) : ndarray :=
  if dtype_eqb (dtype_of a) np then a else astype convert np a.

(** The caller's matrix after [_create_mkl_sparse] has settled the
    precision, and after the whole of a successful [_create_mkl_sparse]. *)
Definition precast (cast : bool) (m : spmatrix) : spmatrix :=
  if dtype_eqb (dtype_m m) float32 then m
  else if dtype_eqb (dtype_m m) float64 then m
  else if cast then set_data (astype convert float64 (data m)) m
  else m.

Definition created (cast : bool) (np : dtype) (m : spmatrix) : spmatrix :=
  let m1 := precast cast m in
  set_indices (retype np (indices m1)) (set_indptr (retype np (indptr m1)) m1).

Definition call_ctype (c : call) : option ctype :=
  match c with
  | Create _ t _ _ _ _ _ _ | Export _ t _ => Some t
  | _ => None
  end.

(** Operations that leave the world alone and whose results satisfy [P]. *)
Definition pure_with {A} (P : A -> Prop) (m : M A) : Prop :=
  forall w o w', m w = (o, w') -> w' = w /\ forall a, o = Ret a -> P a.

(** The calls that build and order the two operand handles. *)
Definition operand_calls (ca cb : call) (ha hb : handle) : list call :=
  [ca; cb; Order ha; Order hb].

(** The debug exports of the two operand handles. *)
Inductive debug_calls (debug : bool) (ha hb : handle) : list call -> Prop :=
  | dbg_off : debug = false -> debug_calls debug ha hb []
  | dbg_on fa ta fb tb :
      debug = true ->
      debug_calls debug ha hb [Export fa ta ha; Export fb tb hb].

Definition reorder_calls (reorder_output : bool) (hc : handle) : list call :=
  if reorder_output then [Order hc] else [].

Definition destroy_calls (copy : bool) (hc : handle) : list call :=
  if copy then [Destroy hc] else [].

(** The shapes the list of calls of a run can have, from a world whose
    history is [tr0]: every run stops somewhere along one fixed sequence. *)
Inductive vendor_calls (tr0 : list call) (copy reorder_output debug : bool)
  : list call -> Prop :=
  | vc_none : vendor_calls tr0 copy reorder_output debug []
  | vc_create_a ca :
      is_create ca = true ->
      vendor_calls tr0 copy reorder_output debug [ca]
  | vc_create_b ca cb :
      is_create ca = true -> is_create cb = true ->
      vendor_calls tr0 copy reorder_output debug [ca; cb]
  | vc_order_a ca cb ha :
      is_create ca = true -> is_create cb = true ->
      vendor_calls tr0 copy reorder_output debug [ca; cb; Order ha]
  | vc_order_b ca cb ha hb :
      is_create ca = true -> is_create cb = true ->
      vendor_calls tr0 copy reorder_output debug (operand_calls ca cb ha hb)
  | vc_debug_a ca cb ha hb fa ta :
      is_create ca = true -> is_create cb = true -> debug = true ->
      vendor_calls tr0 copy reorder_output debug
        (operand_calls ca cb ha hb ++ [Export fa ta ha])
  | vc_debug_b ca cb ha hb dbg :
      is_create ca = true -> is_create cb = true ->
      debug_calls debug ha hb dbg -> debug = true ->
      vendor_calls tr0 copy reorder_output debug
        (operand_calls ca cb ha hb ++ dbg)
  | vc_spmm ca cb ha hb dbg :
      is_create ca = true -> is_create cb = true ->
      debug_calls debug ha hb dbg ->
      vendor_calls tr0 copy reorder_output debug
        (operand_calls ca cb ha hb ++ dbg ++ [Spmm ha hb])
  | vc_reorder ca cb ha hb dbg hc :
      is_create ca = true -> is_create cb = true ->
      debug_calls debug ha hb dbg ->
      hc = out_handle (mkl (tr0 ++ operand_calls ca cb ha hb ++ dbg)
                           (Spmm ha hb)) ->
      reorder_output = true ->
      vendor_calls tr0 copy reorder_output debug
        (operand_calls ca cb ha hb ++ dbg ++ [Spmm ha hb; Order hc])
  | vc_export ca cb ha hb dbg hc fc tc :
      is_create ca = true -> is_create cb = true ->
      debug_calls debug ha hb dbg ->
      hc = out_handle (mkl (tr0 ++ operand_calls ca cb ha hb ++ dbg)
                           (Spmm ha hb)) ->
      vendor_calls tr0 copy reorder_output debug
        (operand_calls ca cb ha hb ++ dbg ++ Spmm ha hb
           :: reorder_calls reorder_output hc ++ [Export fc tc hc])
  | vc_destroy ca cb ha hb dbg hc fc tc :
      is_create ca = true -> is_create cb = true ->
      debug_calls debug ha hb dbg ->
      hc = out_handle (mkl (tr0 ++ operand_calls ca cb ha hb ++ dbg)
                           (Spmm ha hb)) ->
      copy = true ->
      vendor_calls tr0 copy reorder_output debug
        (operand_calls ca cb ha hb ++ dbg ++ Spmm ha hb
           :: reorder_calls reorder_output hc ++ [Export fc tc hc; Destroy hc]).

(** The calls of a run that returns a matrix through the vendor. *)
Definition complete_calls (tr0 : list call) (copy reorder_output debug : bool)
    (new : list call) : Prop :=
  exists ca cb ha hb dbg hc fc tc,
    is_create ca = true /\ is_create cb = true
    /\ debug_calls debug ha hb dbg
    /\ hc = out_handle (mkl (tr0 ++ operand_calls ca cb ha hb ++ dbg)
                            (Spmm ha hb))
    /\ new = operand_calls ca cb ha hb ++ dbg ++ Spmm ha hb
               :: reorder_calls reorder_output hc ++ Export fc tc hc
               :: destroy_calls copy hc.

(** The world after the dtype check of [dot_product_mkl]. *)
Definition casted (ra rb : ref) (cast : bool) (w : world) : world :=
  if (negb (dtype_eqb (dtype_m (heap w ra)) (dtype_m (heap w rb))) && cast)%bool
  then store rb (to_float64 convert) (store ra (to_float64 convert) w)
  else w.

(** The precision of the result: float32 when both operands are, float64
    otherwise. *)
Definition result_dtype (a b : spmatrix) : dtype :=
  if (dtype_eqb (dtype_m a) float32 && dtype_eqb (dtype_m b) float32)%bool
  then float32 else float64.


(** The scipy format an output type selects, and the export entry point for
    a precision and a format. *)
Definition output_format (output_type : string) : option sp_format :=
  if String.eqb (lower output_type) "csr" then Some csr
  else if String.eqb (lower output_type) "csc" then Some csc
  else None.

Definition export_fn (double_precision : bool) (f : sp_format) : entry_point :=
  match f with
  | csr => if double_precision then mkl_sparse_d_export_csr
           else mkl_sparse_s_export_csr
  | _ => if double_precision then mkl_sparse_d_export_csc
         else mkl_sparse_s_export_csc
  end.

Definition precision_dtype (double_precision : bool) : dtype :=
  if double_precision then float64 else float32.

(** How a wrapper answers the status [s] of an entry point named [fn]: a
    status from 1 to 6 is raised as a [ValueError] whose message carries the
    name, the status and its category, and no nonzero status leads to a
    result. *)
Definition status_rule {A} (fn : string) (s : Z) (o : outcome A) : Prop :=
  (1 <= s <= 6 ->
   exists e, In e error_categories /\ lookup s RETURN_CODES = Some e
             /\ o = Raise (ValueError (returned_msg fn s e)))
  /\ (s <> 0 -> exists x, o = Raise x).

(** The status rule, with the case it leaves open settled: a status that is
    not a key of [RETURN_CODES] is raised as the [KeyError] of the failed
    lookup. *)
Definition status_answer {A} (fn : string) (s : Z) (o : outcome A) : Prop :=
  status_rule fn s o /\ (s < 0 \/ 6 < s -> o = Raise (KeyError s)).

(** The two width attributes of the class. *)
Definition width_of (w : world) : option ctype * option dtype :=
  (MKL_INT w, MKL_INT_NUMPY w).

(** The world right after [MKL._set_int_type(c_type, np_type)]. *)
Definition with_width (c_type : ctype) (np_type : dtype) (w : world) : world :=
  snd (_set_int_type c_type np_type w).

(** Every call of [calls] that marshals indices does so at width [t]. *)
Definition marshalled_at (t : ctype) (calls : list call) : Prop :=
  forall c t', In c calls -> call_ctype c = Some t' -> t' = t.

(** scipy keeps both dimensions of a matrix non-negative. *)
Definition valid_shape (m : spmatrix) : Prop :=
  0 <= fst (shape m) /\ 0 <= snd (shape m).

(** The number of vendor calls of a [dot_product_mkl] run that goes all the
    way: two creates, two orders, the multiply and the export, two more
    exports with [debug], one more order with [reorder_output] and the
    destroy with [copy]. *)
Definition call_budget (copy reorder_output debug : bool) : nat :=
  6 + (if debug then 2 else 0) + (if reorder_output then 1 else 0)
  + (if copy then 1 else 0).

(** The create entry point for a format and a precision, and the create
    call for a matrix as [_pass_mkl_handle] marshals it. *)
Definition create_fn (f : sp_format) (double_precision : bool) : entry_point :=
  match f with
  | csr => if double_precision then mkl_sparse_d_create_csr
           else mkl_sparse_s_create_csr
  | _ => if double_precision then mkl_sparse_d_create_csc
         else mkl_sparse_s_create_csc
  end.

Definition create_call (fn : entry_point) (t : ctype) (m : spmatrix) : call :=
  Create fn t (c_value t (fst (shape m))) (c_value t (snd (shape m)))
    (removelast (items (indptr m))) (tl (items (indptr m)))
    (indices m) (data m).

(** An operation run from [w] raises only exceptions that satisfy [P]. *)
Definition raises_only {A} (P : exn -> Prop) (m : M A) (w : world) : Prop :=
  forall e w', m w = (Raise e, w') -> P e.

(** The width attributes are set, as they are after a successful import. *)
Definition width_set (w : world) : Prop :=
  MKL_INT w <> None /\ MKL_INT_NUMPY w <> None.

(** Every status the vendor returns is a key of [RETURN_CODES]. *)
Definition known_statuses : Prop :=
  forall history c, 0 <= status (mkl history c) <= 6.

(** The dtype of an operand of the helpers, in a given world. *)
Definition operand_dtype (w : world) (x : operand) : dtype :=
  match x with
  | Sparse r => dtype_m (heap w r)
  | Dense d => dense_dtype d
  end.

(** What an operation leaves alone. *)
Definition config_eq (w w' : world) : Prop :=
  MKL_INT w' = MKL_INT w /\ MKL_INT_NUMPY w' = MKL_INT_NUMPY w
  /\ next_ref w' = next_ref w /\ signatures w' = signatures w.

Definition heap_eq (w w' : world) : Prop := forall r, heap w' r = heap w r.

(** The test matrix as [scipy.sparse.random] builds it for the round trip:
    a float32 CSC matrix whose arrays have consistent lengths. *)
Definition test_array_ok : Prop :=
  format test_array = csc /\ dtype_m test_array = float32
  /\ shape0 (data test_array) = shape0 (indices test_array)
  /\ shape0 (indptr test_array) = snd (shape test_array) + 1.

(** An operation whose outcome does not depend on the world. *)
Definition world_free {A} (m : M A) : Prop :=
  forall w w', fst (m w) = fst (m w').

(** What one round trip of [_validate_dtype] answers, from a world [w] whose
    width is [t] and [np], in terms of what the vendor returns to its three
    calls: the create call on the test matrix with its index arrays in
    dtype [np], the conversion of the handle that call wrote, and the
    float32 CSR export of the converted handle ([d] is the clean-up destroy
    call of a failed conversion).  A failing status is raised by the status
    check of its wrapper; when all three succeed the outcome is that of
    reading the exported arrays, followed by the comparison with the test
    matrix. *)
Definition round_trip_rule (t : ctype) (np : dtype) (w : world)
    (o : outcome unit) : Prop :=
  let m := created false np test_array in
  let c1 := create_call mkl_sparse_s_create_csc t m in
  let r1 := mkl (trace w) c1 in
  let c2 := ConvertCsr (out_handle r1) in
  let r2 := mkl (trace w ++ [c1]) c2 in
  let d := mkl (trace w ++ [c1; c2]) (Destroy (out_handle r2)) in
  let c3 := Export mkl_sparse_s_export_csr t (out_handle r2) in
  let r3 := mkl (trace w ++ [c1; c2]) c3 in
  (status r1 <> 0 -> status_answer "mkl_sparse_s_create_csc" (status r1) o)
  /\ (status r1 = 0 -> status r2 <> 0 ->
      (status d = 0 ->
       o = Raise (ValueError "CSC to CSR Conversion failed"))
      /\ status_answer "mkl_sparse_destroy" (status d) o)
  /\ (status r1 = 0 -> status r2 = 0 -> status r3 <> 0 ->
      status_answer "mkl_sparse_s_export_csr" (status r3) o)
  /\ (status r1 = 0 -> status r2 = 0 -> status r3 = 0 ->
      o = match fst (export_outputs check_format t csr float32 r3 w) with
          | Ret final_array =>
              if array_almost_equal test_array final_array
              then Ret tt else Raise AssertionError
          | Raise e => Raise e
          end).

(** The signatures of a create and of an export entry point bound at width
    [t], [values] being the type of the value array, and the signature of an
    entry point that takes handles only. *)
Definition create_signature (t : ctype) (values : argtype) : signature :=
  {| argtypes := Some [POINTER_sparse_matrix_t; ctypes_c_int;
                       ctypes_MKL_INT t; ctypes_MKL_INT t;
                       ndpointer_MKL_INT t; ndpointer_MKL_INT t;
                       ndpointer_MKL_INT t; values];
     restypes := Some ctypes_c_int |}.

Definition export_signature (t : ctype) (values : argtype) : signature :=
  {| argtypes := Some [sparse_matrix_t; POINTER_c_int;
                       POINTER_MKL_INT t; POINTER_MKL_INT t;
                       POINTER_POINTER_MKL_INT t; POINTER_POINTER_MKL_INT t;
                       POINTER_POINTER_MKL_INT t; values];
     restypes := Some ctypes_c_int |}.

Definition handle_signature (args : list argtype) : signature :=
  {| argtypes := Some args; restypes := Some ctypes_c_int |}.

(** The signatures [s'] that a call of [_set_int_type] at width [t] leaves,
    [s] being the signatures before the call: ten entry points are bound at
    [t], and [mkl_sparse_s_export_csc] and [mkl_sparse_convert_csr] keep what
    they had. *)
Definition rebound (t : ctype) (s s' : entry_point -> signature) : Prop :=
  s' mkl_sparse_d_create_csr = create_signature t ndpt_double
  /\ s' mkl_sparse_s_create_csr = create_signature t ndpt_single
  /\ s' mkl_sparse_d_create_csc = create_signature t ndpt_double
  /\ s' mkl_sparse_s_create_csc = create_signature t ndpt_single
  /\ s' mkl_sparse_d_export_csr = export_signature t POINTER_POINTER_c_double
  /\ s' mkl_sparse_s_export_csr = export_signature t POINTER_POINTER_c_float
  /\ s' mkl_sparse_d_export_csc = export_signature t POINTER_POINTER_c_double
  /\ s' mkl_sparse_s_export_csc = s mkl_sparse_s_export_csc
  /\ s' mkl_sparse_spmm
     = handle_signature [ctypes_c_int; sparse_matrix_t; sparse_matrix_t;
                         POINTER_sparse_matrix_t]
  /\ s' mkl_sparse_destroy = handle_signature [sparse_matrix_t]
  /\ s' mkl_sparse_order = handle_signature [sparse_matrix_t]
  /\ s' mkl_sparse_convert_csr = s mkl_sparse_convert_csr.

(** ** Reasoning about runs *)

Arguments c_value : simpl never.
Arguments np_sub : simpl never.
Arguments str_int : simpl never.

Lemma bind_inv {A B} (m : M A) (k : A -> M B) w o w' :
  bind m k w = (o, w') ->
  (exists e, m w = (Raise e, w') /\ o = Raise e) \/
  (exists a w1, m w = (Ret a, w1) /\ k a w1 = (o, w')).
Proof.
  unfold bind. destruct (m w) as [[a|e] w1]; intros H.
  - right. exists a, w1. auto.
  - left. inversion H; subst. exists e. auto.
Qed.

Lemma bind_ret {A B} (m : M A) (k : A -> M B) w a w1 :
  m w = (Ret a, w1) -> bind m k w = k a w1.
Proof. unfold bind. intros ->. reflexivity. Qed.

Lemma bind_raise {A B} (m : M A) (k : A -> M B) w e w1 :
  m w = (Raise e, w1) -> bind m k w = (Raise e, w1).
Proof. unfold bind. intros ->. reflexivity. Qed.

Lemma config_eq_refl w : config_eq w w.
Proof. repeat split. Qed.

Lemma config_eq_trans w1 w2 w3 :
  config_eq w1 w2 -> config_eq w2 w3 -> config_eq w1 w3.
Proof.
  intros (a & b & c & d) (e & f & g & h). repeat split; congruence.
Qed.

Lemma heap_eq_refl w : heap_eq w w.
Proof. intros r. reflexivity. Qed.

Lemma heap_eq_trans w1 w2 w3 :
  heap_eq w1 w2 -> heap_eq w2 w3 -> heap_eq w1 w3.
Proof. intros H1 H2 r. rewrite H2. apply H1. Qed.

Lemma dtype_eqb_eq a b : dtype_eqb a b = true <-> a = b.
Proof.
  unfold dtype_eqb. destruct (dtype_eq_dec a b); split; congruence.
Qed.

Lemma dtype_eqb_refl a : dtype_eqb a a = true.
Proof. apply dtype_eqb_eq. reflexivity. Qed.

Lemma dtype_eqb_neq a b : dtype_eqb a b = false <-> a <> b.
Proof.
  unfold dtype_eqb. destruct (dtype_eq_dec a b); split; congruence.
Qed.

Lemma check_return_cases fn s w :
  (s = 0 /\ check_return fn s w = (Ret tt, w)) \/
  (s <> 0 /\ exists e, check_return fn s w = (Raise e, w)).
Proof.
  unfold check_return. destruct (Z.eqb_spec s 0) as [->|Hs].
  - left. split; reflexivity.
  - right. split; [assumption|].
    destruct (lookup s RETURN_CODES); eexists; reflexivity.
Qed.

Lemma check_return_world fn s w o w' :
  check_return fn s w = (o, w') -> w' = w.
Proof.
  destruct (check_return_cases fn s w) as [[_ H]|[_ [e H]]];
    rewrite H; congruence.
Qed.

Lemma check_return_named fn s :
  1 <= s <= 6 ->
  exists e, In e error_categories /\ lookup s RETURN_CODES = Some e
            /\ forall w, check_return fn s w
                         = (Raise (ValueError (returned_msg fn s e)), w).
Proof.
  intros Hs.
  assert (s = 1 \/ s = 2 \/ s = 3 \/ s = 4 \/ s = 5 \/ s = 6) as H by lia.
  unfold error_categories.
  destruct H as [->|[->|[->|[->|[->| ->]]]]];
    (eexists; split; [|split; [reflexivity|intros w; reflexivity]]);
    simpl; tauto.
Qed.

Lemma check_return_category fn s w :
  1 <= s <= 6 ->
  exists e, In e error_categories /\ lookup s RETURN_CODES = Some e
            /\ check_return fn s w
               = (Raise (ValueError (returned_msg fn s e)), w).
Proof.
  intros Hs.
  assert (s = 1 \/ s = 2 \/ s = 3 \/ s = 4 \/ s = 5 \/ s = 6) as Hc by lia.
  clear Hs. unfold error_categories.
  destruct Hc as [->|[->|[->|[->|[->| ->]]]]];
    (eexists; split; [|split; reflexivity]); cbn [In]; auto 10.
Qed.

Lemma check_return_unknown fn s w :
  s < 0 \/ 6 < s -> check_return fn s w = (Raise (KeyError s), w).
Proof.
  intros Hs. unfold check_return.
  destruct (Z.eqb_spec s 0) as [?|_]; [lia|].
  unfold RETURN_CODES, lookup.
  repeat match goal with
    | |- context [s =? ?k] => destruct (Z.eqb_spec s k) as [?|_]; [lia|]
    end.
  reflexivity.
Qed.

Lemma assert_world b w o w' : assert b w = (o, w') -> w' = w.
Proof. unfold assert, ret, raise. destruct b; congruence. Qed.

Lemma sp_matrix_from_shape_world f sh dt w o w' :
  sp_matrix_from_shape f sh dt w = (o, w') -> w' = w.
Proof.
  unfold sp_matrix_from_shape, ret, raise.
  destruct (_ || _)%bool; congruence.
Qed.

Lemma sp_matrix_from_shape_dtype f sh dt w m w' :
  sp_matrix_from_shape f sh dt w = (Ret m, w') -> dtype_m m = dt.
Proof.
  unfold sp_matrix_from_shape, ret, raise.
  destruct (_ || _)%bool; intros H; inversion H; reflexivity.
Qed.

Lemma as_array_world p n w o w' : as_array p n w = (o, w') -> w' = w.
Proof. unfold as_array, ret, raise. destruct (n <? 0); congruence. Qed.

Lemma item0_world l w o w' : item0 l w = (o, w') -> w' = w.
Proof. unfold item0, ret, raise. destruct l; congruence. Qed.

Lemma item_last_world l w o w' : item_last l w = (o, w') -> w' = w.
Proof. unfold item_last, ret, raise. destruct l; congruence. Qed.

Arguments check_return : simpl never.

(** Symbolic execution of a run held in a hypothesis: reduce, then case on
    the innermost test that blocks the reduction. *)
Ltac innermost x :=
  lazymatch x with
  | context [if ?b then _ else _] => innermost b
  | context [match ?y with _ => _ end] => innermost y
  | _ => x
  end.

Ltac run_in H :=
  repeat (cbn in H; rewrite ?Nat.eqb_refl in H;
          match type of H with
          | context [check_return ?fn ?s ?w] =>
              let E := fresh "E" in
              let w1 := fresh "w" in
              destruct (check_return fn s w) as [[[]|?] w1] eqn:E;
              pose proof (check_return_world _ _ _ _ _ E); subst w1
          | context [if ?b then _ else _] =>
              let x := innermost b in destruct x eqn:?
          | context [match ?y with _ => _ end] =>
              let x := innermost y in destruct x eqn:?
          end);
  cbn in H.

(** Equating a trace with its expected list of calls. *)
Ltac trace_eq T :=
  cbn [trace log_call]; rewrite T;
  repeat first [rewrite <- app_assoc | progress cbn [app]]; reflexivity.

(** Closing an exit that raises before any matrix is returned. *)
Ltac early_exit :=
  split; [first [apply config_eq_refl | assumption]|];
  split; [exists []; split;
          [rewrite app_nil_r; first [reflexivity | assumption | congruence]
          |constructor]|];
  intros ? ?; discriminate.

(** Inverting [l = pre ++ x :: post] for a list [l] given by its items. *)
Ltac inv_split H :=
  match type of H with
  | [] = ?p ++ _ :: _ => destruct p; discriminate H
  | _ :: _ = ?p ++ _ :: _ =>
      let x := fresh "c" in
      let l := fresh "l" in
      destruct p as [|x l]; cbn [app] in H;
      [ injection H; clear H; intros
      | injection H; clear H; intros;
        match goal with
        | H' : _ = l ++ _ :: _ |- _ => inv_split H'
        end ]
  end.

(** Case analysis of a membership in a list given by its items. *)
Ltac in_cases :=
  cbn [In] in *;
  repeat match goal with
    | H : _ \/ _ |- _ => destruct H
    | H : False |- _ => destruct H
    end.

Lemma order_spec h w o w' :
  _order_mkl_handle mkl h w = (o, w') ->
  w' = log_call (Order h) w
  /\ (o = Ret tt \/ exists e, o = Raise e).
Proof.
  unfold _order_mkl_handle, call_mkl, bind. intros H.
  destruct (check_return_cases "mkl_sparse_order"
              (status (mkl (trace w) (Order h))) (log_call (Order h) w))
    as [[_ E]|[_ [e E]]]; rewrite E in H; inversion H; subst; eauto.
Qed.

Lemma destroy_spec h w o w' :
  _destroy_mkl_handle mkl h w = (o, w') ->
  w' = log_call (Destroy h) w
  /\ (o = Ret tt \/ exists e, o = Raise e).
Proof.
  unfold _destroy_mkl_handle, call_mkl, bind. intros H.
  destruct (check_return_cases "mkl_sparse_destroy"
              (status (mkl (trace w) (Destroy h))) (log_call (Destroy h) w))
    as [[_ E]|[_ [e E]]]; rewrite E in H; inversion H; subst; eauto.
Qed.

Lemma matmul_spec ra rb a b w o w' :
  _matmul_mkl mkl ra rb a b w = (o, w') ->
  w' = log_call (Spmm a b) w
  /\ (o = Ret (out_handle (mkl (trace w) (Spmm a b)))
      \/ exists e, o = Raise e).
Proof.
  unfold _matmul_mkl, call_mkl, bind, deref, assert, ret, raise. intros H.
  run_in H; inversion H; subst; eauto.
Qed.

Lemma convert_spec h w o w' :
  _convert_to_csr mkl h w = (o, w') ->
  let r := mkl (trace w) (ConvertCsr h) in
  (status r = 0 /\ o = Ret (out_handle r) /\ w' = log_call (ConvertCsr h) w)
  \/ (status r <> 0 /\ (exists e, o = Raise e)
      /\ w' = log_call (Destroy (out_handle r)) (log_call (ConvertCsr h) w)).
Proof.
  intros H r. unfold _convert_to_csr, call_mkl in H.
  apply bind_inv in H as [(e & H1 & ->)|(x & w1 & H1 & H)];
    [discriminate H1|].
  inversion H1; subst x w1; clear H1. fold r in H.
  destruct (Z.eqb_spec (status r) 0) as [E|E]; simpl in H.
  - left. unfold ret in H. inversion H; subst. auto.
  - right. split; [assumption|].
    apply bind_inv in H as [(e & H1 & ->)|(x & w1 & H1 & H)].
    + apply destroy_spec in H1 as [-> _]. eauto.
    + apply destroy_spec in H1 as [-> _]. unfold raise in H.
      inversion H; subst. eauto.
Qed.

Lemma set_same m :
  set_indices (indices m) (set_indptr (indptr m) m) = m.
Proof. destruct m; reflexivity. Qed.

Lemma check_typing_spec r w o w' :
  _check_scipy_index_typing convert r w = (o, w') ->
  config_eq w w' /\ trace w' = trace w
  /\ (forall r', r' <> r -> heap w' r' = heap w r')
  /\ ((o = Raise TypeError /\ MKL_INT_NUMPY w = None)
      \/ exists np, o = Ret tt /\ MKL_INT_NUMPY w = Some np
           /\ heap w' r = set_indices (retype np (indices (heap w r)))
                            (set_indptr (retype np (indptr (heap w r)))
                               (heap w r))).
Proof.
  intros H.
  unfold _check_scipy_index_typing, get_MKL_INT_NUMPY, update, deref, bind,
    ret, raise in H.
  run_in H; inversion H; subst; clear H.
  all: split; [repeat split|split; [reflexivity|]].
  all: split; [intros r' Hr'; cbn; apply Nat.eqb_neq in Hr';
               repeat rewrite Hr'; reflexivity|].
  all: try (left; split; reflexivity).
  all: right; eexists; split; [reflexivity|split; [reflexivity|]].
  all: cbn; rewrite ?Nat.eqb_refl; unfold retype; cbn.
  all: repeat match goal with
         | H : negb _ = true |- _ => apply negb_true_iff in H
         | H : negb _ = false |- _ => apply negb_false_iff in H
         end.
  all: cbn in *.
  all: repeat match goal with
         | H : dtype_eqb _ _ = _ |- _ => rewrite H
         end.
  all: try reflexivity.
  all: match goal with |- context [heap ?w ?x] => destruct (heap w x) end;
    reflexivity.
Qed.

Lemma pass_handle_spec r fn w o w' :
  _pass_mkl_handle mkl r fn w = (o, w') ->
  (MKL_INT w = None /\ w' = w /\ o = Raise TypeError)
  \/ exists c, is_create c = true /\ call_ctype c = MKL_INT w
       /\ w' = log_call c w
       /\ ((exists e, o = Raise e)
           \/ o = Ret (out_handle (mkl (trace w) c))).
Proof.
  intros H.
  unfold _pass_mkl_handle, get_MKL_INT, call_mkl, deref, bind, ret, raise in H.
  run_in H; inversion H; subst; clear H; auto.
  all: right; eexists; (split; [|split; [|split; [reflexivity|eauto]]]);
    reflexivity.
Qed.

Lemma create_spec r cast w o w' :
  _create_mkl_sparse mkl convert r cast w = (o, w') ->
  config_eq w w'
  /\ (forall r', r' <> r -> heap w' r' = heap w r')
  /\ ((trace w' = trace w /\ exists e, o = Raise e)
      \/ exists c np,
           is_create c = true
           /\ call_ctype c = MKL_INT w
           /\ MKL_INT_NUMPY w = Some np
           /\ heap w' r = created cast np (heap w r)
           /\ trace w' = trace w ++ [c]
           /\ (dtype_m (heap w' r) = float32 \/ dtype_m (heap w' r) = float64)
           /\ ((exists e, o = Raise e)
               \/ o = Ret (out_handle (mkl (trace w) c),
                           dtype_eqb (dtype_m (heap w' r)) float64))).
Proof.
  intros H. unfold _create_mkl_sparse in H.
  apply bind_inv in H as [(e & H1 & ->)|(m & w1 & H1 & H)];
    [discriminate H1|].
  inversion H1; subst m w1; clear H1.
  apply bind_inv in H as [(e & H1 & ->)|(dp & w1 & H1 & H)].
  { assert (w' = w) as ->.
    { unfold update, bind, ret, raise in H1. run_in H1; congruence. }
    split; [apply config_eq_refl|]. split; [reflexivity|]. left; split; [congruence|eexists; reflexivity]. }
  assert (config_eq w w1 /\ trace w1 = trace w
          /\ (forall r', r' <> r -> heap w1 r' = heap w r')
          /\ heap w1 r = precast cast (heap w r)
          /\ (dtype_m (precast cast (heap w r)) = float32
              \/ dtype_m (precast cast (heap w r)) = float64)
          /\ dp = dtype_eqb (dtype_m (precast cast (heap w r))) float64)
    as (C1 & T1 & F1 & V1 & D1 & P1).
  { unfold update, bind, ret, raise in H1. unfold precast.
    run_in H1; inversion H1; subst; clear H1.
    all: repeat match goal with
           | H : dtype_eqb _ _ = true |- _ => apply dtype_eqb_eq in H
           end.
    all: repeat split; cbn; rewrite ?Nat.eqb_refl; auto.
    all: try (intros r' Hr'; apply Nat.eqb_neq in Hr'; rewrite Hr';
              reflexivity).
    all: try congruence.
    all: match goal with
         | H : dtype_m _ = _ |- _ => rewrite H; reflexivity
         end. }
  clear H1.
  apply bind_inv in H as [(e & H1 & ->)|([] & w2 & H1 & H)].
  { apply check_typing_spec in H1 as (C2 & T2 & F2 & _).
    split; [eapply config_eq_trans; eassumption|].
    split; [intros r' Hr'; rewrite F2, F1 by assumption; reflexivity|].
    left; split; [congruence|eexists; reflexivity]. }
  apply check_typing_spec in H1 as (C2 & T2 & F2 & [[? _]|(np & _ & N2 & V2)]);
    [discriminate|].
  assert (MKL_INT_NUMPY w = Some np) as N by (destruct C1 as (_ & <- & _); exact N2).
  assert (heap w2 r = created cast np (heap w r)) as V.
  { rewrite V2, V1. reflexivity. }
  assert (dtype_m (heap w2 r) = dtype_m (precast cast (heap w r))) as DT.
  { rewrite V2, V1. reflexivity. }
  assert (config_eq w w2) as C by (eapply config_eq_trans; eassumption).
  assert (forall r', r' <> r -> heap w2 r' = heap w r') as F
      by (intros r' Hr'; rewrite F2, F1 by assumption; reflexivity).
  assert (trace w2 = trace w) as T by congruence.
  clear C1 C2 F1 F2 T1 T2 V1 V2 N2.
  apply bind_inv in H as [(e & H1 & ->)|(m & w3 & H1 & H)];
    [discriminate H1|].
  inversion H1; subst m w3; clear H1.
  apply bind_inv in H as [(e & H1 & ->)|([] & w3 & H1 & H)].
  { apply assert_world in H1 as ->. split; [assumption|].
    split; [assumption|]. left; split; [congruence|eexists; reflexivity]. }
  apply assert_world in H1 as ->.
  assert (forall fn : entry_point,
             (h <- _pass_mkl_handle mkl r fn ;; ret (h, dp)) w2 = (o, w') ->
             config_eq w w'
             /\ (forall r', r' <> r -> heap w' r' = heap w r')
             /\ ((trace w' = trace w /\ exists e, o = Raise e)
                 \/ exists c np,
                      is_create c = true
                      /\ call_ctype c = MKL_INT w
                      /\ MKL_INT_NUMPY w = Some np
                      /\ heap w' r = created cast np (heap w r)
                      /\ trace w' = trace w ++ [c]
                      /\ (dtype_m (heap w' r) = float32
                          \/ dtype_m (heap w' r) = float64)
                      /\ ((exists e, o = Raise e)
                          \/ o = Ret (out_handle (mkl (trace w) c),
                                      dtype_eqb (dtype_m (heap w' r)) float64))))
    as Q.
  { intros fn H1.
    apply bind_inv in H1 as [(e & H1 & ->)|(h & w3 & H1 & H2)].
    - apply pass_handle_spec in H1 as [(_ & -> & _)|(c & I & W & -> & O)].
      + split; [assumption|]. split; [assumption|].
        left; split; [congruence|eexists; reflexivity].
      + split; [exact C|]. split; [exact F|]. right. exists c, np. cbn.
        rewrite T, DT. destruct C as (<- & _ & _).
        repeat split; auto. left. eexists; reflexivity.
    - unfold ret in H2. inversion H2; subst o w3; clear H2.
      apply pass_handle_spec in H1 as [(_ & _ & ?)|(c & I & W & -> & O)];
        [discriminate|].
      split; [exact C|]. split; [exact F|]. right. exists c, np. cbn.
      rewrite T, DT. destruct C as (<- & _ & _).
      repeat split; auto. right.
      destruct O as [[e O]|O]; [discriminate|].
      inversion O; subst h. rewrite T, P1. reflexivity. }
  destruct (is_csr (heap w2 r)).
  - apply bind_inv in H as [(e & H1 & ->)|([] & w3 & H1 & H)].
    { apply assert_world in H1 as ->. split; [assumption|].
      split; [assumption|]. left; split; [congruence|eexists; reflexivity]. }
    apply assert_world in H1 as ->. eapply Q. exact H.
  - destruct (isspmatrix_csc (heap w2 r)).
    + apply bind_inv in H as [(e & H1 & ->)|([] & w3 & H1 & H)].
      { apply assert_world in H1 as ->. split; [assumption|].
        split; [assumption|].
        left; split; [congruence|eexists; reflexivity]. }
      apply assert_world in H1 as ->. eapply Q. exact H.
    + unfold raise in H. inversion H; subst.
      split; [assumption|]. split; [assumption|].
      left; split; [congruence|eexists; reflexivity].
Qed.

Lemma pure_ret {A} (P : A -> Prop) a : P a -> pure_with P (ret a).
Proof.
  intros HP w o w' H. unfold ret in H. inversion H; subst.
  split; [reflexivity|]. intros x Hx. inversion Hx; subst. exact HP.
Qed.

Lemma pure_raise {A} (P : A -> Prop) e : pure_with P (raise e).
Proof.
  intros w o w' H. unfold raise in H. inversion H; subst.
  split; [reflexivity|]. intros x Hx. discriminate Hx.
Qed.

Lemma pure_bind {A B} (Q : A -> Prop) (P : B -> Prop) m (k : A -> M B) :
  pure_with Q m -> (forall a, Q a -> pure_with P (k a)) ->
  pure_with P (bind m k).
Proof.
  intros Hm Hk w o w' H.
  apply bind_inv in H as [(e & H1 & ->)|(a & w1 & H1 & H)].
  - apply Hm in H1 as [-> _]. split; [reflexivity|]. intros x Hx.
    discriminate Hx.
  - apply Hm in H1 as [-> Ha]. eapply Hk; [apply Ha; reflexivity|exact H].
Qed.

Lemma pure_weaken {A} (P Q : A -> Prop) m :
  (forall a, P a -> Q a) -> pure_with P m -> pure_with Q m.
Proof.
  intros HPQ Hm w o w' H. apply Hm in H as [-> Ha].
  split; [reflexivity|]. intros a E. apply HPQ, Ha, E.
Qed.

Lemma pure_as_array p n : pure_with (fun _ => True) (as_array p n).
Proof.
  unfold as_array. destruct (n <? 0);
    [apply pure_raise|apply pure_ret; exact I].
Qed.

Lemma pure_item0 l : pure_with (fun _ => True) (item0 l).
Proof.
  unfold item0. destruct l; [apply pure_raise|apply pure_ret; exact I].
Qed.

Lemma pure_item_last l : pure_with (fun _ => True) (item_last l).
Proof.
  unfold item_last. destruct l; [apply pure_raise|apply pure_ret; exact I].
Qed.

Lemma pure_from_shape f sh dt :
  pure_with (fun m => dtype_m m = dt /\ shape m = sh)
            (sp_matrix_from_shape f sh dt).
Proof.
  unfold sp_matrix_from_shape. destruct (_ || _)%bool;
    [apply pure_raise|apply pure_ret; split; reflexivity].
Qed.

Lemma pure_from_arrays f d i p sh :
  pure_with (fun m => dtype_m m = dtype_of d /\ shape m = sh)
            (sp_matrix_from_arrays check_format f d i p sh).
Proof.
  unfold sp_matrix_from_arrays. destruct (check_format _);
    [apply pure_ret; split; reflexivity|apply pure_raise].
Qed.

(** Whatever the vendor wrote, the matrix built from it has the dtype of the
    precision flag and the shape the vendor reported. *)
Lemma pure_export_outputs t f dt r :
  pure_with (fun m => dtype_m m = dt
                      /\ shape m = (c_value t (out_nrows r),
                                    c_value t (out_ncols r)))
            (export_outputs check_format t f dt r).
Proof.
  unfold export_outputs.
  destruct (negb _); [apply pure_raise|].
  destruct (_ || _)%bool; [apply pure_from_shape|].
  eapply pure_bind; [apply pure_as_array|intros indptrb _].
  eapply pure_bind; [apply pure_as_array|intros indptren _].
  eapply pure_bind; [apply pure_item0|intros first _].
  eapply pure_bind; [apply pure_item_last|intros last_ _].
  destruct (_ =? 0); [apply pure_from_shape|].
  destruct (_ || _)%bool; [apply pure_raise|].
  eapply pure_bind; [apply pure_as_array|intros data_ _].
  eapply pure_bind; [apply pure_as_array|intros indices_ _].
  apply pure_from_arrays.
Qed.

Lemma export_choice_pure dp ot :
  pure_with (fun _ => True) (export_choice dp ot).
Proof.
  unfold export_choice.
  destruct (String.eqb ot "csr"); [apply pure_ret; exact I|].
  destruct (String.eqb ot "csc"); [apply pure_ret; exact I|apply pure_raise].
Qed.

Lemma export_spec h dp ot copy w o w' :
  _export_mkl mkl check_format h dp ot copy w = (o, w') ->
  ((w' = w /\ exists e, o = Raise e)
   \/ exists fn t, MKL_INT w = Some t /\ w' = log_call (Export fn t h) w)
  /\ forall m, o = Ret m -> dtype_m m = if dp then float64 else float32.
Proof.
  intros H. unfold _export_mkl in H.
  apply bind_inv in H as [(e & H1 & ->)|(t & w1 & H1 & H)].
  { unfold get_MKL_INT in H1. destruct (MKL_INT w); inversion H1; subst.
    split; [left; eauto|]. intros m Hm; discriminate Hm. }
  assert (MKL_INT w = Some t /\ w1 = w) as [Ht ->].
  { unfold get_MKL_INT in H1. destruct (MKL_INT w); inversion H1; subst.
    split; reflexivity. }
  clear H1.
  apply bind_inv in H as [(e & H1 & ->)|(c & w1 & H1 & H)].
  { apply export_choice_pure in H1 as [-> _].
    split; [left; eauto|]. intros m Hm; discriminate Hm. }
  apply export_choice_pure in H1 as [-> _].
  apply bind_inv in H as [(e & H1 & ->)|(r & w1 & H1 & H)];
    [discriminate H1|].
  unfold call_mkl in H1. inversion H1; subst r w1; clear H1.
  apply bind_inv in H as [(e & H1 & ->)|([] & w1 & H1 & H)].
  { apply check_return_world in H1 as ->.
    split; [right; eauto|]. intros m Hm; discriminate Hm. }
  apply check_return_world in H1 as ->.
  apply pure_export_outputs in H as [-> Hm].
  split; [right; eauto|]. intros m E. apply Hm in E as [E _]. exact E.
Qed.

(** *** The calls of one [dot_product_mkl] run *)

Lemma pure_matrix_stats m : pure_with (fun _ => True) (matrix_stats m).
Proof.
  unfold matrix_stats.
  eapply pure_bind with (Q := fun _ => True).
  - destruct (_ =? 0); [apply pure_raise|apply pure_ret; exact I].
  - intros _ _. destruct (_ =? 0); [apply pure_raise|apply pure_ret; exact I].
Qed.

Lemma pure_assert b : pure_with (fun _ => True) (assert b).
Proof.
  unfold assert. destruct b; [apply pure_ret; exact I|apply pure_raise].
Qed.

Lemma pure_deref_like {A} (f : world -> A) :
  pure_with (fun _ => True) (fun w => (Ret (f w), w)).
Proof.
  intros w o w' H. inversion H; subst. split; [reflexivity|]. intros; exact I.
Qed.

Lemma dtype_created cast np m :
  dtype_m (created cast np m) = dtype_m (precast cast m).
Proof. reflexivity. Qed.

Lemma dtype_precast cast m :
  dtype_m (precast cast m)
  = if dtype_eqb (dtype_m m) float32 then float32
    else if dtype_eqb (dtype_m m) float64 then float64
    else if cast then float64 else dtype_m m.
Proof.
  unfold precast.
  destruct (dtype_eqb (dtype_m m) float32) eqn:E1;
    [apply dtype_eqb_eq in E1; exact E1|].
  destruct (dtype_eqb (dtype_m m) float64) eqn:E2;
    [apply dtype_eqb_eq in E2; exact E2|].
  destruct cast; reflexivity.
Qed.

Lemma dtype_to_float64 m : dtype_m (to_float64 convert m) = float64.
Proof.
  unfold to_float64. destruct (dtype_eqb (dtype_m m) float64) eqn:E;
    [apply dtype_eqb_eq in E; exact E|reflexivity].
Qed.

(** The dtype check of [dot_product_mkl]: it either raises or leaves the
    world [casted]. *)
Lemma dtype_check_spec ra rb cast (a b : spmatrix) w o w' :
  a = heap w ra -> b = heap w rb ->
  (if (negb (dtype_eqb (dtype_m a) (dtype_m b)) && cast)%bool then
     update ra (to_float64 convert) ;;;
     update rb (to_float64 convert)
   else if negb (dtype_eqb (dtype_m a) (dtype_m b))
   then raise (ValueError (concordance_msg (dtype_m a) (dtype_m b)))
   else ret tt) w = (o, w') ->
  (o = Ret tt /\ w' = casted ra rb cast w
   /\ (dtype_m a = dtype_m b \/ cast = true))
  \/ (w' = w /\ cast = false /\ dtype_m a <> dtype_m b
      /\ o = Raise (ValueError (concordance_msg (dtype_m a) (dtype_m b)))).
Proof.
  intros -> -> H. unfold casted.
  destruct (dtype_eqb (dtype_m (heap w ra)) (dtype_m (heap w rb))) eqn:E;
    cbn in H.
  - unfold ret in H. inversion H; subst. left.
    apply dtype_eqb_eq in E. auto.
  - destruct cast; cbn in H.
    + unfold update, bind in H. cbn in H. inversion H; subst. left. auto.
    + unfold raise in H. inversion H; subst. right.
      apply dtype_eqb_neq in E. auto.
Qed.

Lemma precision_pure (da db : dtype) (cast same : bool) :
  (same = true -> da = db) -> (da = db \/ cast = true) ->
  let pd d := if dtype_eqb d float32 then float32
              else if dtype_eqb d float64 then float64
              else if cast then float64 else d in
  let ca := if (negb (dtype_eqb da db) && cast)%bool then float64 else da in
  let cb := if (negb (dtype_eqb da db) && cast)%bool then float64 else db in
  let a2 := pd ca in
  let b2 := if same then a2 else cb in
  let b3 := pd b2 in
  (a2 = float32 \/ a2 = float64) -> (b3 = float32 \/ b3 = float64) ->
  (if (dtype_eqb a2 float64 || dtype_eqb b3 float64)%bool
   then float64 else float32)
  = (if (dtype_eqb da float32 && dtype_eqb db float32)%bool
     then float32 else float64).
Proof.
  intros Hs Hd.
  destruct da, db, cast, same; cbn; intros [A|A] [B|B];
    try reflexivity; try discriminate;
    try (destruct Hd; discriminate);
    try (specialize (Hs eq_refl); discriminate).
Qed.

Lemma dtype_casted_a ra rb cast w :
  dtype_m (heap (casted ra rb cast w) ra)
  = if (negb (dtype_eqb (dtype_m (heap w ra)) (dtype_m (heap w rb))) && cast)%bool
    then float64 else dtype_m (heap w ra).
Proof.
  unfold casted. destruct (_ && _)%bool; [|reflexivity].
  cbn. rewrite ?Nat.eqb_refl.
  destruct (Nat.eqb ra rb); apply dtype_to_float64.
Qed.

Lemma dtype_casted_b ra rb cast w :
  dtype_m (heap (casted ra rb cast w) rb)
  = if (negb (dtype_eqb (dtype_m (heap w ra)) (dtype_m (heap w rb))) && cast)%bool
    then float64 else dtype_m (heap w rb).
Proof.
  unfold casted. destruct (_ && _)%bool; [|reflexivity].
  cbn. rewrite Nat.eqb_refl. apply dtype_to_float64.
Qed.

Lemma precision_of_handles ra rb cast np w wc w2 w3 :
  wc = casted ra rb cast w ->
  (dtype_m (heap w ra) = dtype_m (heap w rb) \/ cast = true) ->
  (forall r', r' <> ra -> heap w2 r' = heap wc r') ->
  heap w2 ra = created cast np (heap wc ra) ->
  heap w3 rb = created cast np (heap w2 rb) ->
  (dtype_m (heap w2 ra) = float32 \/ dtype_m (heap w2 ra) = float64) ->
  (dtype_m (heap w3 rb) = float32 \/ dtype_m (heap w3 rb) = float64) ->
  (if (dtype_eqb (dtype_m (heap w2 ra)) float64
       || dtype_eqb (dtype_m (heap w3 rb)) float64)%bool
   then float64 else float32)
  = result_dtype (heap w ra) (heap w rb).
Proof.
  intros -> Hd F2 V2 V3 D2 D3.
  assert (dtype_m (heap w2 rb)
          = if Nat.eqb rb ra then dtype_m (heap w2 ra)
            else dtype_m (heap (casted ra rb cast w) rb)) as E2.
  { destruct (Nat.eqb_spec rb ra) as [->|Hne]; [reflexivity|].
    rewrite F2 by exact Hne. reflexivity. }
  rewrite V3, dtype_created, dtype_precast, E2 in *.
  rewrite V2, dtype_created, dtype_precast in *.
  rewrite dtype_casted_a, dtype_casted_b in *.
  unfold result_dtype.
  apply (precision_pure (dtype_m (heap w ra)) (dtype_m (heap w rb)) cast
           (Nat.eqb rb ra)); try assumption.
  intros E. apply Nat.eqb_eq in E. subst rb. reflexivity.
Qed.

(** The debug exports of the operand handles and their two assertions. *)
Lemma debug_exports_spec ra rb ha hb dpa dpb w o w' :
  (a <- deref ra ;;
   dbg_a <- _export_mkl mkl check_format ha dpa
              (if is_csr a then "csr" else "csc") false ;;
   b <- deref rb ;;
   dbg_b <- _export_mkl mkl check_format hb dpb
              (if is_csr b then "csr" else "csc") false ;;
   a <- deref ra ;;
   assert ((fst (shape dbg_a) =? fst (shape a))
           && (snd (shape dbg_a) =? snd (shape a)))%bool ;;;
   b <- deref rb ;;
   assert ((fst (shape dbg_b) =? fst (shape b))
           && (snd (shape dbg_b) =? snd (shape b)))%bool) w = (o, w') ->
  exists new,
    trace w' = trace w ++ new
    /\ config_eq w w' /\ (forall r, heap w' r = heap w r)
    /\ ((exists fa ta fb tb, new = [Export fa ta ha; Export fb tb hb])
        \/ ((exists e, o = Raise e)
            /\ (new = [] \/ exists fa ta, new = [Export fa ta ha]))).
Proof.
  intros H.
  apply bind_inv in H as [(e & H1 & ->)|(a & w1 & H1 & H)];
    [discriminate H1|].
  unfold deref in H1. inversion H1; subst a w1; clear H1.
  apply bind_inv in H as [(e & H1 & ->)|(dbg_a & w1 & H1 & H)].
  { apply export_spec in H1 as [[(-> & _)|(fa & ta & _ & ->)] _].
    - exists []. rewrite app_nil_r.
      repeat split; auto. right. split; eauto.
    - exists [Export fa ta ha].
      repeat split; auto. right. split; eauto. }
  apply export_spec in H1 as [[(_ & ? & ?)|(fa & ta & _ & ->)] _];
    [discriminate|].
  apply bind_inv in H as [(e & H1 & ->)|(b & w1 & H1 & H)];
    [discriminate H1|].
  unfold deref in H1. inversion H1; subst b w1; clear H1.
  apply bind_inv in H as [(e & H1 & ->)|(dbg_b & w1 & H1 & H)].
  { apply export_spec in H1 as [[(-> & _)|(fb & tb & _ & ->)] _].
    - exists [Export fa ta ha].
      repeat split; auto. right. split; eauto.
    - exists [Export fa ta ha; Export fb tb hb].
      repeat split; [cbn; rewrite <- app_assoc; reflexivity|].
      left. eauto. }
  apply export_spec in H1 as [[(_ & ? & ?)|(fb & tb & _ & ->)] _];
    [discriminate|].
  assert (w' = log_call (Export fb tb hb) (log_call (Export fa ta ha) w))
    as ->.
  { revert H. generalize (log_call (Export fb tb hb)
                            (log_call (Export fa ta ha) w)).
    intros w0 H.
    eapply (pure_bind (fun _ => True) (fun _ => True)) in H as [-> _];
      [reflexivity|apply pure_deref_like|].
    intros a _. eapply pure_bind; [apply pure_assert|].
    intros _ _. eapply pure_bind; [apply pure_deref_like|].
    intros b _. apply pure_assert. }
  exists [Export fa ta ha; Export fb tb hb].
  repeat split; [cbn; rewrite <- app_assoc; reflexivity|].
  left. eauto.
Qed.

Lemma dot_run ra rb cast copy reorder_output debug w o w' :
  dot_product_mkl mkl convert check_format ra rb cast copy reorder_output
    debug w = (o, w') ->
  config_eq w w'
  /\ (exists new, trace w' = trace w ++ new
                  /\ vendor_calls (trace w) copy reorder_output debug new)
  /\ (forall m, o = Ret m ->
        (edge_condition (heap w ra) (heap w rb) = true /\ w' = w
         /\ dtype_m m = result_dtype (heap w ra) (heap w rb)
         /\ shape m = (fst (shape (heap w ra)), fst (shape (heap w rb))))
        \/ (edge_condition (heap w ra) (heap w rb) = false
            /\ exists new np,
                 trace w' = trace w ++ new
                 /\ complete_calls (trace w) copy reorder_output debug new
                 /\ MKL_INT_NUMPY w = Some np
                 /\ (forall r,
                        heap w' r
                        = heap (store rb (created cast np)
                                  (store ra (created cast np)
                                     (casted ra rb cast w))) r)
                 /\ dtype_m m = result_dtype (heap w ra) (heap w rb))).
Proof.
  intros H. unfold dot_product_mkl in H.
  apply bind_inv in H as [(e & H1 & ->)|(a & w1 & H1 & H)];
    [discriminate H1|].
  unfold deref in H1. inversion H1; subst a w1; clear H1.
  apply bind_inv in H as [(e & H1 & ->)|(b & w1 & H1 & H)];
    [discriminate H1|].
  unfold deref in H1. inversion H1; subst b w1; clear H1.
  destruct (negb (is_csr (heap w ra)) || negb (is_csr (heap w rb)))%bool.
  { unfold raise in H. inversion H; subst. early_exit. }
  destruct (negb (snd (shape (heap w ra)) =? fst (shape (heap w rb)))).
  { unfold raise in H. inversion H; subst. early_exit. }
  destruct (edge_condition (heap w ra) (heap w rb)) eqn:Hedge.
  { apply pure_from_shape in H as [-> Hm].
    split; [apply config_eq_refl|].
    split; [exists []; split; [symmetry; apply app_nil_r|constructor]|].
    intros m E. left. apply Hm in E as [E1 E2].
    split; [reflexivity|]. split; [reflexivity|]. split; [|exact E2].
    rewrite E1. unfold result_dtype.
    destruct (dtype_eqb (dtype_m (heap w ra)) (dtype_m (heap w rb))) eqn:Eab;
      destruct (dtype_eqb (dtype_m (heap w ra)) float32) eqn:Ea; cbn;
      try reflexivity.
    - apply dtype_eqb_eq in Eab, Ea. rewrite <- Eab, Ea. reflexivity.
    - apply dtype_eqb_eq in Ea. apply dtype_eqb_neq in Eab.
      destruct (dtype_eqb (dtype_m (heap w rb)) float32) eqn:Eb;
        [|reflexivity].
      apply dtype_eqb_eq in Eb. congruence. }
  (* the dtype check *)
  apply bind_inv in H as [(e & H1 & ->)|([] & w1 & H1 & H)].
  { eapply dtype_check_spec in H1; [|reflexivity|reflexivity].
    destruct H1 as [(? & _)|(-> & _)]; [discriminate|]. early_exit. }
  eapply dtype_check_spec in H1; [|reflexivity|reflexivity].
  destruct H1 as [(_ & -> & Hd)|(_ & _ & _ & ?)]; [|discriminate].
  assert (config_eq w (casted ra rb cast w)
          /\ trace (casted ra rb cast w) = trace w) as [Cc Tc].
  { unfold casted. destruct (_ && _)%bool; repeat split. }
  remember (casted ra rb cast w) as wc eqn:Ewc.
  (* the debug report on the operands *)
  apply bind_inv in H as [(e & H1 & ->)|([] & w1 & H1 & H)].
  { assert (w' = wc) as ->.
    { destruct debug; [|discriminate H1].
      revert H1. generalize (Raise (A:=unit) e).
      intros o1 H1.
      eapply (pure_bind (fun _ => True) (fun _ => True)) in H1 as [-> _];
        [reflexivity|apply pure_deref_like|].
      intros a _. eapply pure_bind; [apply pure_matrix_stats|].
      intros _ _. eapply pure_bind; [apply pure_deref_like|].
      intros b _. apply pure_matrix_stats. }
    early_exit. }
  assert (w1 = wc) as ->.
  { destruct debug; [|unfold ret in H1; congruence].
    eapply (pure_bind (fun _ => True) (fun _ => True)) in H1 as [-> _];
      [reflexivity|apply pure_deref_like|].
    intros a _. eapply pure_bind; [apply pure_matrix_stats|].
    intros _ _. eapply pure_bind; [apply pure_deref_like|].
    intros b _. apply pure_matrix_stats. }
  clear H1.
  (* the two operand handles *)
  apply bind_inv in H as [(e & H1 & ->)|([ha a_dbl] & w2 & H1 & H)].
  { apply create_spec in H1 as (C2 & F2 & K).
    pose proof (config_eq_trans _ _ _ Cc C2) as C.
    destruct K as [(T2 & _)|(ca & np & Ica & _ & N & V2 & T2 & D2 & _)].
    - early_exit.
    - split; [exact C|]. split; [|intros ? ?; discriminate].
      exists [ca]. split; [congruence|]. constructor; assumption. }
  apply create_spec in H1 as (C2 & F2 & K).
  pose proof (config_eq_trans _ _ _ Cc C2) as C2'.
  destruct K as [(_ & ? & ?)|(ca & np & Ica & _ & N & V2 & T2 & D2 & O2)];
    [discriminate|].
  destruct O2 as [[? ?]|O2]; [discriminate|].
  inversion O2; subst ha a_dbl; clear O2.
  rewrite Tc in T2, H.
  set (ha := out_handle (mkl (trace w) ca)) in *.
  apply bind_inv in H as [(e & H1 & ->)|([hb b_dbl] & w3 & H1 & H)].
  { apply create_spec in H1 as (C3 & F3 & K).
    pose proof (config_eq_trans _ _ _ C2' C3) as C.
    destruct K as [(T3 & _)|(cb & np' & Icb & _ & N' & V3 & T3 & D3 & _)].
    - split; [exact C|]. split; [|intros ? ?; discriminate].
      exists [ca]. split; [congruence|]. constructor; assumption.
    - split; [exact C|]. split; [|intros ? ?; discriminate].
      exists [ca; cb]. split; [|constructor; assumption].
      rewrite T3, T2, <- app_assoc. reflexivity. }
  apply create_spec in H1 as (C3 & F3 & K).
  pose proof (config_eq_trans _ _ _ C2' C3) as C3'.
  destruct K as [(_ & ? & ?)|(cb & np' & Icb & _ & N' & V3 & T3 & D3 & O3)];
    [discriminate|].
  destruct O3 as [[? ?]|O3]; [discriminate|].
  inversion O3; subst hb b_dbl; clear O3.
  assert (np' = np) as ->.
  { destruct C2 as (_ & E & _). rewrite E in N'. congruence. }
  assert (trace w3 = trace w ++ [ca; cb]) as T3'.
  { rewrite T3, T2, <- app_assoc. reflexivity. }
  rewrite T2 in H.
  set (hb := out_handle (mkl (trace w ++ [ca]) cb)) in *.
  cbn [fst snd] in H.
  (* ordering the operands *)
  apply bind_inv in H as [(e & H1 & ->)|([] & w4 & H1 & H)].
  { apply order_spec in H1 as [-> _].
    split; [exact C3'|]. split; [|intros ? ?; discriminate].
    exists [ca; cb; Order ha]. split; [|constructor; assumption].
    cbn. rewrite T3', <- app_assoc. reflexivity. }
  apply order_spec in H1 as [-> _].
  apply bind_inv in H as [(e & H1 & ->)|([] & w5 & H1 & H)].
  { apply order_spec in H1 as [-> _].
    split; [exact C3'|]. split; [|intros ? ?; discriminate].
    exists (operand_calls ca cb ha hb). split; [|constructor; assumption].
    cbn. rewrite T3', <- !app_assoc. reflexivity. }
  apply order_spec in H1 as [-> _].
  (* what the creation of the handles has settled *)
  assert (MKL_INT_NUMPY w = Some np) as Nw.
  { destruct Cc as (_ & E & _). rewrite <- E. exact N. }
  assert (forall r,
             heap w3 r
             = heap (store rb (created cast np)
                       (store ra (created cast np) wc)) r) as Hheap.
  { intros r. cbn.
    destruct (Nat.eqb_spec r rb) as [->|Hrb].
    - rewrite V3. f_equal.
      destruct (Nat.eqb_spec rb ra) as [->|Hra]; [exact V2|apply F2, Hra].
    - rewrite F3 by exact Hrb.
      destruct (Nat.eqb_spec r ra) as [->|Hra]; [exact V2|apply F2, Hra]. }
  assert ((if (dtype_eqb (dtype_m (heap w2 ra)) float64
               || dtype_eqb (dtype_m (heap w3 rb)) float64)%bool
           then float64 else float32)
          = result_dtype (heap w ra) (heap w rb)) as Hprec.
  { eapply precision_of_handles; eassumption. }
  remember (log_call (Order hb) (log_call (Order ha) w3)) as w5 eqn:Ew5.
  assert (config_eq w w5) as C5 by (subst w5; exact C3').
  assert (trace w5 = trace w ++ operand_calls ca cb ha hb) as T5.
  { subst w5. cbn. rewrite T3', <- !app_assoc. reflexivity. }
  assert (forall r, heap w5 r = heap w3 r) as H5 by (subst w5; reflexivity).
  clear Ew5.
  (* from the multiply to the end, whatever the debug exports were *)
  match type of H with
  | bind _ ?k _ = _ =>
      assert (forall w6 dbg,
                 debug_calls debug ha hb dbg ->
                 trace w6 = trace w ++ operand_calls ca cb ha hb ++ dbg ->
                 config_eq w w6 ->
                 (forall r, heap w6 r = heap w3 r) ->
                 k tt w6 = (o, w') ->
                 config_eq w w'
                 /\ (exists new, trace w' = trace w ++ new
                       /\ vendor_calls (trace w) copy reorder_output debug new)
                 /\ (forall m, o = Ret m ->
                       exists new,
                         trace w' = trace w ++ new
                         /\ complete_calls (trace w) copy reorder_output
                              debug new
                         /\ (forall r, heap w' r = heap w3 r)
                         /\ dtype_m m = result_dtype (heap w ra) (heap w rb)))
        as Tail
  end.
  { clear H. intros w6 dbg Hdbg T6 C6 H6 H.
    apply bind_inv in H as [(e & H1 & ->)|(hc & w7 & H1 & H)].
    { apply matmul_spec in H1 as [-> _].
      split; [exact C6|]. split; [|intros ? ?; discriminate].
      eexists. split;
        [trace_eq T6|].
      apply vc_spmm; assumption. }
    apply matmul_spec in H1 as [-> [O|[? ?]]]; [|discriminate].
    inversion O; subst hc; clear O. rewrite T6 in H.
    set (hc := out_handle
                 (mkl (trace w ++ operand_calls ca cb ha hb ++ dbg)
                    (Spmm ha hb))) in *.
    remember (log_call (Spmm ha hb) w6) as w7 eqn:Ew7.
    assert (config_eq w w7) as C7 by (subst w7; exact C6).
    assert (trace w7 = trace w ++ operand_calls ca cb ha hb ++ dbg
                         ++ [Spmm ha hb]) as T7.
    { subst w7. trace_eq T6. }
    assert (forall r, heap w7 r = heap w3 r) as H7 by (subst w7; exact H6).
    clear Ew7.
    (* the optional reordering of the result *)
    apply bind_inv in H as [(e & H1 & ->)|([] & w8 & H1 & H)].
    { destruct reorder_output eqn:Er; [|discriminate H1].
      apply order_spec in H1 as [-> _].
      split; [exact C7|]. split; [|intros ? ?; discriminate].
      eexists. split;
        [trace_eq T7|].
      eapply vc_reorder; try assumption; reflexivity. }
    assert (config_eq w w8
            /\ trace w8 = trace w ++ operand_calls ca cb ha hb ++ dbg
                            ++ Spmm ha hb :: reorder_calls reorder_output hc
            /\ (forall r, heap w8 r = heap w3 r)
            /\ vendor_calls (trace w) copy reorder_output debug
                 (operand_calls ca cb ha hb ++ dbg
                    ++ Spmm ha hb :: reorder_calls reorder_output hc))
      as (C8 & T8 & H8 & S8).
    { destruct reorder_output eqn:Er.
      - apply order_spec in H1 as [-> _].
        split; [exact C7|]. split; [|split; [exact H7|]].
        + trace_eq T7.
        + eapply vc_reorder; try assumption; reflexivity.
      - unfold ret in H1. inversion H1; subst w8.
        split; [exact C7|]. split; [exact T7|]. split; [exact H7|].
        apply vc_spmm; assumption. }
    clear H1.
    (* the export of the result *)
    apply bind_inv in H as [(e & H1 & ->)|(python_c & w9 & H1 & H)].
    { apply export_spec in H1 as [[(-> & _)|(fc & tc & _ & ->)] _].
      - split; [exact C8|]. split; [|intros ? ?; discriminate].
        eexists. split; [exact T8|exact S8].
      - split; [exact C8|]. split; [|intros ? ?; discriminate].
        eexists. split;
          [trace_eq T8|].
        eapply vc_export; try assumption; reflexivity. }
    apply export_spec in H1 as [[(_ & ? & ?)|(fc & tc & _ & ->)] Hdt];
      [discriminate|].
    specialize (Hdt _ eq_refl). rewrite Hprec in Hdt.
    remember (log_call (Export fc tc hc) w8) as w9 eqn:Ew9.
    assert (config_eq w w9) as C9 by (subst w9; exact C8).
    assert (trace w9 = trace w ++ operand_calls ca cb ha hb ++ dbg
                         ++ Spmm ha hb :: reorder_calls reorder_output hc
                         ++ [Export fc tc hc]) as T9.
    { subst w9. trace_eq T8. }
    assert (forall r, heap w9 r = heap w3 r) as H9 by (subst w9; exact H8).
    assert (vendor_calls (trace w) copy reorder_output debug
              (operand_calls ca cb ha hb ++ dbg
                 ++ Spmm ha hb :: reorder_calls reorder_output hc
                 ++ [Export fc tc hc])) as S9.
    { eapply vc_export; try assumption; reflexivity. }
    clear Ew9.
    (* the debug report on the result *)
    apply bind_inv in H as [(e & H1 & ->)|([] & w10 & H1 & H)].
    { assert (w' = w9) as ->.
      { destruct debug; [|discriminate H1].
        apply pure_matrix_stats in H1 as [-> _]. reflexivity. }
      split; [exact C9|]. split; [|intros ? ?; discriminate].
      eexists. split; [exact T9|exact S9]. }
    assert (w10 = w9) as ->.
    { destruct debug; [|unfold ret in H1; congruence].
      apply pure_matrix_stats in H1 as [-> _]. reflexivity. }
    clear H1.
    (* the release of the result handle *)
    destruct copy eqn:Ecopy.
    - apply bind_inv in H as [(e & H1 & ->)|([] & w11 & H1 & H)].
      { apply destroy_spec in H1 as [-> _].
        split; [exact C9|]. split; [|intros ? ?; discriminate].
        eexists. split;
          [trace_eq T9|].
        eapply vc_destroy; try assumption; reflexivity. }
      apply destroy_spec in H1 as [-> _].
      unfold ret in H. inversion H; subst o w'; clear H.
      assert (trace (log_call (Destroy hc) w9)
              = trace w ++ operand_calls ca cb ha hb ++ dbg
                  ++ Spmm ha hb :: reorder_calls reorder_output hc
                  ++ [Export fc tc hc; Destroy hc]) as T11.
      { trace_eq T9. }
      split; [exact C9|]. split.
      + eexists. split; [exact T11|].
        eapply vc_destroy; try assumption; reflexivity.
      + intros m E. inversion E; subst m; clear E.
        eexists. split; [exact T11|]. split; [|split; [exact H9|exact Hdt]].
        exists ca, cb, ha, hb, dbg, hc, fc, tc.
        repeat split; assumption || reflexivity.
    - apply bind_inv in H as [(e & H1 & ->)|([] & w11 & H1 & H)];
        [discriminate H1|].
      unfold ret in H1. inversion H1; subst w11; clear H1.
      unfold ret in H. inversion H; subst o w'; clear H.
      split; [exact C9|]. split.
      + eexists. split; [exact T9|exact S9].
      + intros m E. inversion E; subst m; clear E.
        eexists. split; [exact T9|]. split; [|split; [exact H9|exact Hdt]].
        exists ca, cb, ha, hb, dbg, hc, fc, tc.
        repeat split; assumption || reflexivity. }
  (* the debug exports, then the rest *)
  assert ((config_eq w w'
           /\ (exists new, trace w' = trace w ++ new
                 /\ vendor_calls (trace w) copy reorder_output debug new)
           /\ (forall m, o = Ret m ->
                 exists new,
                   trace w' = trace w ++ new
                   /\ complete_calls (trace w) copy reorder_output debug new
                   /\ (forall r, heap w' r = heap w3 r)
                   /\ dtype_m m = result_dtype (heap w ra) (heap w rb))) ->
          config_eq w w'
          /\ (exists new, trace w' = trace w ++ new
                /\ vendor_calls (trace w) copy reorder_output debug new)
          /\ (forall m, o = Ret m ->
                (false = true /\ w' = w
                 /\ dtype_m m = result_dtype (heap w ra) (heap w rb)
                 /\ shape m = (fst (shape (heap w ra)),
                               fst (shape (heap w rb))))
                \/ (false = false
                    /\ exists new np0,
                         trace w' = trace w ++ new
                         /\ complete_calls (trace w) copy reorder_output
                              debug new
                         /\ MKL_INT_NUMPY w = Some np0
                         /\ (forall r,
                                heap w' r
                                = heap (store rb (created cast np0)
                                          (store ra (created cast np0)
                                             wc)) r)
                         /\ dtype_m m
                            = result_dtype (heap w ra) (heap w rb))))
    as Fin.
  { intros (Cf & Sf & Mf).
    split; [exact Cf|]. split; [exact Sf|].
    intros m E. right. split; [reflexivity|].
    destruct (Mf m E) as (new & Tn & Cn & Hn & Dn).
    exists new, np. repeat split; try assumption.
    intros r. rewrite Hn. apply Hheap. }
  apply bind_inv in H as [(e & H1 & ->)|([] & w6 & H1 & H)].
  { destruct debug eqn:Edebug; [|discriminate H1].
    apply debug_exports_spec in H1
      as (new & Tn & Cn & Hn & [(fa & ta & fb & tb & ->)|(_ & K)]).
    - split; [eapply config_eq_trans; eassumption|].
      split; [|intros ? ?; discriminate].
      eexists. split; [rewrite Tn, T5, <- app_assoc; reflexivity|].
      apply vc_debug_b; try assumption; [|reflexivity].
      apply dbg_on. reflexivity.
    - split; [eapply config_eq_trans; eassumption|].
      split; [|intros ? ?; discriminate].
      destruct K as [->|(fa & ta & ->)].
      + eexists. split; [rewrite Tn, T5, <- app_assoc; reflexivity|].
        rewrite app_nil_r. apply vc_order_b; assumption.
      + eexists. split; [rewrite Tn, T5, <- app_assoc; reflexivity|].
        apply vc_debug_a; try assumption. reflexivity. }
  apply Fin. clear Fin.
  destruct debug eqn:Edebug.
  - apply debug_exports_spec in H1
      as (new & Tn & Cn & Hn & [(fa & ta & fb & tb & ->)|([? ?] & _)]);
      [|discriminate].
    apply (Tail w6 [Export fa ta ha; Export fb tb hb]);
      [apply dbg_on; reflexivity
      |rewrite Tn, T5, <- app_assoc; reflexivity
      |eapply config_eq_trans; eassumption
      |intros r; rewrite Hn; apply H5
      |exact H].
  - unfold ret in H1. inversion H1; subst w6; clear H1.
    apply (Tail w5 []);
      [apply dbg_off; reflexivity
      |rewrite app_nil_r; exact T5
      |exact C5|exact H5|exact H].
Qed.

(** ** Properties of [dot_product_mkl] *)

(** Where the multiply sits among the calls of a run. *)
Lemma spmm_position tr0 copy reorder_output debug new pre a b post :
  vendor_calls tr0 copy reorder_output debug new ->
  new = pre ++ Spmm a b :: post ->
  (exists p1 p2 p3, pre = p1 ++ Order a :: p2 ++ Order b :: p3)
  /\ (forall c, In c pre -> is_spmm c = false /\ is_destroy c = false)
  /\ (forall h, In (Order h) post ->
        reorder_output = true
        /\ h = out_handle (mkl (tr0 ++ pre) (Spmm a b)))
  /\ (forall h, In (Destroy h) post ->
        copy = true /\ h = out_handle (mkl (tr0 ++ pre) (Spmm a b)))
  /\ (forall c, In c post -> is_spmm c = false).
Proof.
  intros Hvc Heq.
  inversion Hvc; subst;
    repeat match goal with
      | H : debug_calls _ _ _ _ |- _ => inversion H; subst; clear H
      end;
    try (destruct reorder_output eqn:Er);
    unfold operand_calls, reorder_calls, destroy_calls in *;
    cbn [app] in *;
    match goal with
    | H : _ = _ ++ Spmm _ _ :: _ |- _ => inv_split H
    end;
    subst; try discriminate.
  all: repeat match goal with
         | H : Spmm _ _ = Spmm _ _ |- _ => inversion H; subst; clear H
         end.
  all: split;
    [match goal with
     | |- exists p1 p2 p3, ?x :: ?y :: Order _ :: Order _ :: ?rest = _ =>
         exists [x; y], [], rest; reflexivity
     end|].
  all: split;
    [intros x Hin; in_cases; subst; split; try reflexivity;
     match goal with
     | H : is_create ?c = true |- _ ?c = false =>
         destruct c; try discriminate; reflexivity
     end|].
  all: split;
    [intros x Hin; in_cases; try discriminate;
     match goal with
     | H : Order _ = Order _ |- _ => inversion H; subst; clear H
     end; split; reflexivity|].
  all: split;
    [intros x Hin; in_cases; try discriminate;
     match goal with
     | H : Destroy _ = Destroy _ |- _ => inversion H; subst; clear H
     end; split; reflexivity|].
  all: intros x Hin; in_cases; subst; reflexivity.
Qed.

(** Where a destroy call sits among the calls of a run: last, after the
    export of the handle the multiply returned, and only with [copy]. *)
Lemma destroy_position tr0 copy reorder_output debug new pre h post :
  vendor_calls tr0 copy reorder_output debug new ->
  new = pre ++ Destroy h :: post ->
  copy = true /\ post = []
  /\ (forall c, In c pre -> is_destroy c = false)
  /\ exists p1 a b p2 fc tc,
       pre = p1 ++ Spmm a b :: p2 ++ [Export fc tc h]
       /\ h = out_handle (mkl (tr0 ++ p1) (Spmm a b)).
Proof.
  intros Hvc Heq.
  inversion Hvc; subst;
    repeat match goal with
      | H : debug_calls _ _ _ _ |- _ => inversion H; subst; clear H
      end;
    try (destruct reorder_output eqn:Er);
    unfold operand_calls, reorder_calls, destroy_calls in *;
    cbn [app] in *;
    match goal with
    | H : _ = _ ++ Destroy _ :: _ |- _ => inv_split H
    end;
    subst; try discriminate.
  all: repeat match goal with
         | H : Destroy _ = Destroy _ |- _ => inversion H; subst; clear H
         end.
  all: split; [reflexivity|]. 
  all: split; [reflexivity|].
  all: split;
    [intros x Hin; in_cases; subst; try reflexivity;
     match goal with
     | H : is_create ?c = true |- _ ?c = false =>
         destruct c; try discriminate; reflexivity
     end|].
  all: match goal with
       | |- exists p1 a b p2 fc tc,
           ?c1 :: ?c2 :: ?c3 :: ?c4 :: Spmm ?x ?y :: ?rest = _ /\ _ =>
           exists [c1; c2; c3; c4], x, y
       | |- exists p1 a b p2 fc tc,
           ?c1 :: ?c2 :: ?c3 :: ?c4 :: ?c5 :: ?c6 :: Spmm ?x ?y :: ?rest
           = _ /\ _ =>
           exists [c1; c2; c3; c4; c5; c6], x, y
       end.
  all: first [ exists []; do 2 eexists; split; reflexivity
             | eexists [_]; do 2 eexists; split; reflexivity ].
Qed.

Lemma retype_idem np a : retype np (retype np a) = retype np a.
Proof.
  unfold retype. destruct (dtype_eqb (dtype_of a) np) eqn:E.
  - rewrite E. reflexivity.
  - cbn. rewrite dtype_eqb_refl. reflexivity.
Qed.







(** C3.  The matrix [dot_product_mkl] returns is float32 when both operands
    were float32 and float64 in every other case, on the edge-condition path
    and on the vendor path alike. *)
Theorem dot_product_mkl_result_dtype
    ra rb cast copy reorder_output debug w m w' :
  dot_product_mkl mkl convert check_format ra rb cast copy reorder_output
    debug w = (Ret m, w') ->
  dtype_m m
  = if (dtype_eqb (dtype_m (heap w ra)) float32
        && dtype_eqb (dtype_m (heap w rb)) float32)%bool
    then float32 else float64.
Proof.
  intros Hrun. apply dot_run in Hrun as (_ & _ & Hm).
  destruct (Hm m eq_refl) as [(_ & _ & E & _)|(_ & new & np & _ & _ & _ & _ & E)];
    exact E.
Qed.

(** C8.  In every [dot_product_mkl] run, the calls made before the vendor
    multiply include the reordering of both its operand handles; a reorder
    call after the multiply is made only with [reorder_output] and a destroy
    call only with [copy], both on the handle the multiply returned.  A run
    that passes the edge-condition test and returns a matrix has made the
    multiply. *)
Theorem dot_product_mkl_call_order
    ra rb cast copy reorder_output debug w o w' :
  dot_product_mkl mkl convert check_format ra rb cast copy reorder_output
    debug w = (o, w') ->
  exists new,
    trace w' = trace w ++ new
    /\ (forall pre a b post,
           new = pre ++ Spmm a b :: post ->
           let hc := out_handle (mkl (trace w ++ pre) (Spmm a b)) in
           (exists p1 p2 p3, pre = p1 ++ Order a :: p2 ++ Order b :: p3)
           /\ (forall h, In (Order h) post ->
                 reorder_output = true /\ h = hc)
           /\ (forall h, In (Destroy h) new -> copy = true /\ h = hc))
    /\ (forall m, o = Ret m ->
          edge_condition (heap w ra) (heap w rb) = false ->
          exists pre a b post, new = pre ++ Spmm a b :: post).
Proof.
  intros Hrun. pose proof (dot_run _ _ _ _ _ _ _ _ _ Hrun) as (_ & Hc & Hm).
  destruct Hc as (new & T & Hvc). exists new. split; [exact T|]. split.
  - intros pre a b post E hc.
    destruct (spmm_position _ _ _ _ _ _ _ _ _ Hvc E) as (P1 & P2 & P3 & P4 & _).
    split; [exact P1|]. split; [exact P3|].
    intros h Hin. rewrite E in Hin. apply in_app_or in Hin as [Hin|Hin].
    + apply P2 in Hin as [_ Hin]. discriminate Hin.
    + destruct Hin as [Hin|Hin]; [discriminate Hin|]. apply P4, Hin.
  - intros m E Hedge.
    destruct (Hm m E) as [(E' & _)|(_ & new' & np & T' & Hcc & _)];
      [congruence|].
    assert (new' = new) as ->.
    { rewrite T in T'. apply app_inv_head in T'. symmetry. exact T'. }
    destruct Hcc as (ca & cb & ha & hb & dbg & hc & fc & tc & _ & _ & _ & _ & ->).
    exists (operand_calls ca cb ha hb ++ dbg), ha, hb,
      (reorder_calls reorder_output hc ++ Export fc tc hc
         :: destroy_calls copy hc).
    rewrite <- app_assoc. reflexivity.
Qed.

(** C2, as amended.  [dot_product_mkl] makes at most one destroy call.  It
    is made only with [copy], it is the last vendor call of the run, it
    comes after the export of the result, and its argument is the handle
    the multiply returned: the operand handles are never destroyed, and no
    handle is destroyed on a path that fails before that call. *)
Theorem dot_product_mkl_destroys_result_only
    ra rb cast copy reorder_output debug w o w' :
  dot_product_mkl mkl convert check_format ra rb cast copy reorder_output
    debug w = (o, w') ->
  exists new,
    trace w' = trace w ++ new
    /\ (copy = false -> forall c, In c new -> is_destroy c = false)
    /\ forall pre h post,
         new = pre ++ Destroy h :: post ->
         copy = true /\ post = []
         /\ (forall c, In c pre -> is_destroy c = false)
         /\ exists p1 a b p2 fc tc,
              pre = p1 ++ Spmm a b :: p2 ++ [Export fc tc h]
              /\ h = out_handle (mkl (trace w ++ p1) (Spmm a b)).
Proof.
  intros Hrun. apply dot_run in Hrun as (_ & Hc & _).
  destruct Hc as (new & T & Hvc). exists new. split; [exact T|]. split.
  - intros Hcopy c Hin. destruct c; try reflexivity.
    apply in_split in Hin as (pre & post & E).
    destruct (destroy_position _ _ _ _ _ _ _ _ Hvc E) as (Hc & _).
    congruence.
  - intros pre h post E. exact (destroy_position _ _ _ _ _ _ _ _ Hvc E).
Qed.

(** ** Properties of the export routine *)

(** With the integer width set and a supported output type, the export
    routine makes its one vendor call, checks the status and then reads what
    the vendor wrote. *)
Lemma export_mkl_run h dp ot copy w t f :
  MKL_INT w = Some t ->
  output_format ot = Some f ->
  let r := mkl (trace w) (Export (export_fn dp f) t h) in
  _export_mkl mkl check_format h dp ot copy w
  = bind (check_return (fn_name (export_fn dp f)) (status r))
      (fun _ => export_outputs check_format t f (precision_dtype dp) r)
      (log_call (Export (export_fn dp f) t h) w).
Proof.
  intros Ht Hf r. unfold _export_mkl, get_MKL_INT, output_format in *.
  unfold bind at 1. rewrite Ht.
  unfold bind at 1. unfold export_choice.
  destruct (String.eqb (lower ot) "csr").
  - inversion Hf; subst f. reflexivity.
  - destruct (String.eqb (lower ot) "csc"); [|discriminate Hf].
    inversion Hf; subst f. reflexivity.
Qed.

Lemma last_reads (p : nat -> Z) n x :
  (0 < n)%nat -> last (x :: map p (seq 0 n)) 0 = p (n - 1)%nat.
Proof.
  intros Hn. destruct n as [|k]; [inversion Hn|].
  rewrite seq_S, map_app. cbn [map Nat.add].
  change (x :: map p (seq 0 k) ++ [p k])
    with ((x :: map p (seq 0 k)) ++ [p k]).
  rewrite last_last. f_equal. rewrite Nat.sub_1_r. reflexivity.
Qed.

(** With 0-based ordering and two positive dimensions, the routine reads the
    first pointer value and the last one and computes nnz from them. *)
Lemma export_outputs_read t f dt r w :
  out_ordering r = 0 ->
  let nrows := c_value t (out_nrows r) in
  let ncols := c_value t (out_ncols r) in
  0 < nrows -> 0 < ncols ->
  let index_dim := match f with csr => nrows | _ => ncols end in
  let first := c_value t (out_rows_start r 0) in
  let last_ := c_value t (out_rows_end r (Z.to_nat index_dim - 1)) in
  let nnz := np_sub t last_ first in
  export_outputs check_format t f dt r w
  = (if nnz =? 0 then sp_matrix_from_shape f (nrows, ncols) dt
     else if ((nnz <? 0) || (nnz >? ncols * nrows))%bool
     then raise (ValueError (corrupt_msg nrows ncols nnz))
     else
       data_ <- as_array (out_values r) nnz ;;
       indices_ <- as_array (fun i => c_value t (out_col_indx r i)) nnz ;;
       sp_matrix_from_arrays check_format f
         {| dtype_of := dt; items := data_ |}
         {| dtype_of := np_of_ctype t; items := indices_ |}
         {| dtype_of := np_of_ctype t;
            items := first :: map (fun i => c_value t (out_rows_end r i))
                               (seq 0 (Z.to_nat index_dim)) |}
         (nrows, ncols)) w.
Proof.
  intros Hord nrows ncols Hr Hc index_dim first last_ nnz.
  unfold export_outputs. rewrite Hord. cbn [Z.eqb negb].
  fold nrows ncols.
  assert (((nrows =? 0) || (ncols =? 0))%bool = false) as ->.
  { apply orb_false_iff. split; apply Z.eqb_neq; lia. }
  fold index_dim.
  assert (0 < index_dim) as Hd by (subst index_dim; destruct f; lia).
  assert (exists k, Z.to_nat index_dim = S k) as [k Hk].
  { exists (Z.to_nat index_dim - 1)%nat. lia. }
  unfold as_array at 1 2. destruct (Z.ltb_spec index_dim 0); [lia|].
  unfold bind at 1. unfold ret at 1.
  unfold bind at 1. unfold ret at 1.
  unfold bind at 1.
  assert (item0 (map (fun i => c_value t (out_rows_start r i))
                   (seq 0 (Z.to_nat index_dim))) w = (Ret first, w)) as ->.
  { rewrite Hk. reflexivity. }
  unfold bind at 1.
  assert (item_last
            (first :: map (fun i => c_value t (out_rows_end r i))
                        (seq 0 (Z.to_nat index_dim))) w
          = (Ret last_, w)) as ->.
  { unfold item_last, ret. f_equal. f_equal.
    rewrite (last_reads (fun i => c_value t (out_rows_end r i))) by lia.
    reflexivity. }
  reflexivity.
Qed.

(** What the routine makes of the vendor's outputs once the ordering is
    0-based and the reported dimensions are not negative. *)
Lemma export_outputs_cases t f dt r w :
  out_ordering r = 0 ->
  let nrows := c_value t (out_nrows r) in
  let ncols := c_value t (out_ncols r) in
  0 <= nrows -> 0 <= ncols ->
  let index_dim := match f with csr => nrows | _ => ncols end in
  let first := c_value t (out_rows_start r 0) in
  let last_ := c_value t (out_rows_end r (Z.to_nat index_dim - 1)) in
  let nnz := np_sub t last_ first in
  (nrows = 0 \/ ncols = 0 ->
   export_outputs check_format t f dt r w
   = (Ret (empty_of f (nrows, ncols) dt), w))
  /\ (nrows <> 0 -> ncols <> 0 ->
      (nnz = 0 ->
       export_outputs check_format t f dt r w
       = (Ret (empty_of f (nrows, ncols) dt), w))
      /\ (nnz < 0 \/ nrows * ncols < nnz ->
          export_outputs check_format t f dt r w
          = (Raise (ValueError (corrupt_msg nrows ncols nnz)), w))).
Proof.
  intros Hord nrows ncols Hr Hc index_dim first last_ nnz.
  assert (forall dt', sp_matrix_from_shape f (nrows, ncols) dt' w
                      = (Ret (empty_of f (nrows, ncols) dt'), w)) as Hempty.
  { intros dt'. unfold sp_matrix_from_shape. cbn [fst snd].
    destruct (Z.ltb_spec nrows 0); [lia|].
    destruct (Z.ltb_spec ncols 0); [lia|]. reflexivity. }
  split.
  - intros Hz. unfold export_outputs. rewrite Hord. cbn [Z.eqb negb].
    fold nrows ncols.
    assert (((nrows =? 0) || (ncols =? 0))%bool = true) as ->.
    { apply orb_true_iff. destruct Hz as [-> | ->]; [left|right];
        reflexivity. }
    apply Hempty.
  - intros Hr0 Hc0.
    assert (0 < nrows) as Hr1 by lia. assert (0 < ncols) as Hc1 by lia.
    pose proof (export_outputs_read t f dt r w Hord Hr1 Hc1) as E.
    cbv zeta in E. fold nrows ncols in E. fold index_dim in E.
    fold first in E. fold last_ in E. fold nnz in E.
    rewrite E. split.
    + intros Hn. rewrite Hn. cbn [Z.eqb]. apply Hempty.
    + intros Hn.
      destruct (Z.eqb_spec nnz 0) as [E0|_]; [lia|].
      assert (((nnz <? 0) || (nnz >? ncols * nrows))%bool = true) as ->.
      { apply orb_true_iff. destruct Hn as [Hn|Hn].
        - left. apply Z.ltb_lt. exact Hn.
        - right. apply Z.gtb_lt. lia. }
      reflexivity.
Qed.

(** C6.  In the export routine, after a vendor export call that returns
    status zero (and reports 0-based ordering and dimensions that are not
    negative): when a reported dimension is zero, the structurally empty
    matrix of that shape is returned and the export call is the only vendor
    call; otherwise nnz is the difference of the last and the first reported
    pointer values, the empty matrix of that shape is returned when nnz is
    zero, and the corrupt-export error is raised when nnz is negative or
    exceeds rows x cols. *)
Theorem export_mkl_empty_and_corrupt h dp ot copy w t f :
  MKL_INT w = Some t ->
  output_format ot = Some f ->
  let r := mkl (trace w) (Export (export_fn dp f) t h) in
  status r = 0 ->
  out_ordering r = 0 ->
  let nrows := c_value t (out_nrows r) in
  let ncols := c_value t (out_ncols r) in
  0 <= nrows -> 0 <= ncols ->
  let empty := empty_of f (nrows, ncols) (precision_dtype dp) in
  let after_call := log_call (Export (export_fn dp f) t h) w in
  let index_dim := match f with csr => nrows | _ => ncols end in
  let first := c_value t (out_rows_start r 0) in
  let last_ := c_value t (out_rows_end r (Z.to_nat index_dim - 1)) in
  let nnz := np_sub t last_ first in
  (structurally_empty empty /\ shape empty = (nrows, ncols)
   /\ format empty = f /\ dtype_m empty = precision_dtype dp)
  /\ (nrows = 0 \/ ncols = 0 ->
      _export_mkl mkl check_format h dp ot copy w = (Ret empty, after_call))
  /\ (nrows <> 0 -> ncols <> 0 ->
      (nnz = 0 ->
       _export_mkl mkl check_format h dp ot copy w = (Ret empty, after_call))
      /\ (nnz < 0 \/ nrows * ncols < nnz ->
          _export_mkl mkl check_format h dp ot copy w
          = (Raise (ValueError (corrupt_msg nrows ncols nnz)), after_call))
      /\ (- 2 ^ (bits t - 1) <= last_ - first < 2 ^ (bits t - 1) ->
          nnz = last_ - first)).
Proof.
  intros Ht Hf r Hs Hord nrows ncols Hr Hc empty after_call index_dim first
    last_ nnz.
  split; [repeat split|].
  rewrite (export_mkl_run h dp ot copy w t f Ht Hf). fold r. rewrite Hs.
  unfold bind, check_return. cbn [Z.eqb ret].
  destruct (export_outputs_cases t f (precision_dtype dp) r after_call Hord
              Hr Hc) as [Hzero Hrest].
  split; [exact Hzero|].
  intros Hr0 Hc0. destruct (Hrest Hr0 Hc0) as [Hnnz Hbad].
  split; [exact Hnnz|]. split; [exact Hbad|].
  intros Hrange. unfold nnz, np_sub, c_value.
  assert (0 < 2 ^ (bits t - 1)) as Hpos by (destruct t; reflexivity).
  assert (2 ^ bits t = 2 * 2 ^ (bits t - 1)) as E by (destruct t; reflexivity).
  rewrite E. rewrite Z.mod_small by lia. lia.
Qed.

(** C7.  Whenever the vendor's export call reports an ordering other than
    0-based, the export routine returns no matrix; when that call returned
    status zero, what it raises is the unsupported-ordering error, straight
    after the call. *)
Theorem export_mkl_rejects_one_based h dp ot copy w t f :
  MKL_INT w = Some t ->
  output_format ot = Some f ->
  let r := mkl (trace w) (Export (export_fn dp f) t h) in
  let after_call := log_call (Export (export_fn dp f) t h) w in
  out_ordering r <> 0 ->
  (exists e, _export_mkl mkl check_format h dp ot copy w
             = (Raise e, after_call))
  /\ (status r = 0 ->
      _export_mkl mkl check_format h dp ot copy w
      = (Raise (ValueError "1-indexing (F-style) is not supported"),
         after_call)).
Proof.
  intros Ht Hf r after_call Hord.
  rewrite (export_mkl_run h dp ot copy w t f Ht Hf). fold r after_call.
  assert (export_outputs check_format t f (precision_dtype dp) r after_call
          = (Raise (ValueError "1-indexing (F-style) is not supported"),
             after_call)) as Hout.
  { unfold export_outputs. apply Z.eqb_neq in Hord. rewrite Hord.
    reflexivity. }
  split.
  - unfold bind.
    destruct (check_return_cases (fn_name (export_fn dp f)) (status r)
                after_call) as [[_ E]|[_ [e E]]]; rewrite E.
    + rewrite Hout. eexists; reflexivity.
    + eexists; reflexivity.
  - intros Hs. rewrite Hs. unfold bind, check_return. cbn [Z.eqb ret].
    exact Hout.
Qed.

(** ** The dtype check *)

(** C4, as amended.  For CSR operands with conformable shapes that pass the
    edge-condition test (no zero dimension, no empty value or index array)
    and whose dtypes disagree, [dot_product_mkl] with [cast=False] raises the
    dtype-mismatch error naming both dtypes; nothing is returned, no vendor
    call is made and the operands are untouched. *)
Theorem dot_product_mkl_dtype_mismatch ra rb copy reorder_output debug w :
  is_csr (heap w ra) = true ->
  is_csr (heap w rb) = true ->
  snd (shape (heap w ra)) = fst (shape (heap w rb)) ->
  edge_condition (heap w ra) (heap w rb) = false ->
  dtype_m (heap w ra) <> dtype_m (heap w rb) ->
  dot_product_mkl mkl convert check_format ra rb false copy reorder_output
    debug w
  = (Raise (ValueError
              (concordance_msg (dtype_m (heap w ra)) (dtype_m (heap w rb)))),
     w).
Proof.
  intros Ha Hb Hs He Hd.
  unfold dot_product_mkl, deref. unfold bind at 1. unfold bind at 1.
  rewrite Ha, Hb, Hs, Z.eqb_refl, He. cbn [negb orb].
  apply dtype_eqb_neq in Hd. rewrite Hd. cbn [negb andb].
  reflexivity.
Qed.

(** ** Status handling *)

Lemma status_rule_check {A} fn s (k : M A) w :
  status_rule fn s (fst (bind (check_return fn s) (fun _ => k) w)).
Proof.
  split.
  - intros Hs. destruct (check_return_named fn s Hs) as (e & He & Hl & Hc).
    exists e. split; [exact He|]. split; [exact Hl|].
    unfold bind. rewrite Hc. reflexivity.
  - intros Hs. unfold bind.
    destruct (check_return_cases fn s w) as [[E _]|[_ [e E]]];
      [contradiction|].
    rewrite E. eexists; reflexivity.
Qed.

Lemma status_rule_return fn s w :
  status_rule fn s (fst (check_return fn s w)).
Proof.
  split.
  - intros Hs. destruct (check_return_named fn s Hs) as (e & He & Hl & Hc).
    exists e. split; [exact He|]. split; [exact Hl|].
    rewrite Hc. reflexivity.
  - intros Hs.
    destruct (check_return_cases fn s w) as [[E _]|[_ [e E]]];
      [contradiction|].
    rewrite E. eexists; reflexivity.
Qed.

Lemma bind_check_zero {A} fn (k : unit -> M A) w :
  bind (check_return fn 0) k w = k tt w.
Proof. reflexivity. Qed.

Lemma status_answer_check {A} fn s (k : M A) w :
  status_answer fn s (fst (bind (check_return fn s) (fun _ => k) w)).
Proof.
  split; [apply status_rule_check|].
  intros Hs. unfold bind. rewrite (check_return_unknown fn s w Hs).
  reflexivity.
Qed.

Lemma status_answer_raise {A B} fn s e :
  @status_answer A fn s (Raise e) -> @status_answer B fn s (Raise e).
Proof.
  intros [[H1 _] H3]. split; [split|].
  - intros Hr. destruct (H1 Hr) as (x & Hx & Hl & Hc).
    exists x. split; [exact Hx|]. split; [exact Hl|].
    inversion Hc; reflexivity.
  - intros _. eexists; reflexivity.
  - intros Hr. specialize (H3 Hr). inversion H3; reflexivity.
Qed.

Lemma status_answer_return fn s w :
  status_answer fn s (fst (check_return fn s w)).
Proof.
  split; [apply status_rule_return|].
  intros Hs. rewrite (check_return_unknown fn s w Hs). reflexivity.
Qed.

Lemma convert_run h w :
  let r := mkl (trace w) (ConvertCsr h) in
  let w1 := log_call (ConvertCsr h) w in
  let d := mkl (trace w1) (Destroy (out_handle r)) in
  let run := _convert_to_csr mkl h w in
  (status r = 0 -> run = (Ret (out_handle r), w1))
  /\ (status r <> 0 ->
      snd run = log_call (Destroy (out_handle r)) w1
      /\ (exists e, fst run = Raise e)
      /\ (status d = 0 ->
          fst run = Raise (ValueError "CSC to CSR Conversion failed"))
      /\ status_answer "mkl_sparse_destroy" (status d) (fst run)).
Proof.
  intros r w1 d run.
  assert (run = (if negb (status r =? 0)
                 then _destroy_mkl_handle mkl (out_handle r) ;;;
                      raise (ValueError "CSC to CSR Conversion failed")
                 else ret (out_handle r)) w1) as E by reflexivity.
  split.
  - intros Hs. rewrite E, Hs. reflexivity.
  - intros Hs. apply Z.eqb_neq in Hs. rewrite Hs in E. cbn [negb] in E.
    assert (_destroy_mkl_handle mkl (out_handle r) w1
            = check_return "mkl_sparse_destroy" (status d)
                (log_call (Destroy (out_handle r)) w1)) as Ed
        by reflexivity.
    unfold bind at 1 in E. rewrite Ed in E.
    pose proof (status_answer_return "mkl_sparse_destroy" (status d)
                  (log_call (Destroy (out_handle r)) w1)) as Ha.
    destruct (check_return_cases "mkl_sparse_destroy" (status d)
                (log_call (Destroy (out_handle r)) w1))
      as [[Hd Ec]|[Hd [e Ec]]]; rewrite Ec in E, Ha; rewrite E;
      cbn [fst snd] in Ha |- *.
    + split; [reflexivity|]. split; [eexists; reflexivity|].
      split; [reflexivity|].
      split; [split|]; intros ?; lia.
    + split; [reflexivity|]. split; [eexists; reflexivity|].
      split; [intros ?; contradiction|].
      apply (status_answer_raise _ _ _ Ha).
Qed.

(** C5, as amended.  For the create, export, multiply, destroy and order
    entry points, a returned status of zero raises no status error, every
    status from 1 to 6 is raised as a [ValueError] whose message carries the
    entry-point name, the status and its category, and a status outside
    0..6 is raised as [KeyError] on that status.  For the conversion to CSR,
    zero returns the converted handle; a nonzero status makes the wrapper
    call destroy on the handle the conversion wrote and then raise: the
    fixed conversion message when that destroy returns zero, the destroy
    call's own status error otherwise.  No nonzero status leads to a
    result. *)
Theorem vendor_status_handling w :
  (forall h,
      let s := status (mkl (trace w) (Order h)) in
      let o := fst (_order_mkl_handle mkl h w) in
      (s = 0 -> o = Ret tt) /\ status_answer "mkl_sparse_order" s o)
  /\ (forall h,
         let s := status (mkl (trace w) (Destroy h)) in
         let o := fst (_destroy_mkl_handle mkl h w) in
         (s = 0 -> o = Ret tt) /\ status_answer "mkl_sparse_destroy" s o)
  /\ (forall ra rb a b,
         let r := mkl (trace w) (Spmm a b) in
         let o := fst (_matmul_mkl mkl ra rb a b w) in
         (status r = 0 -> o = Ret (out_handle r) \/ o = Raise AssertionError)
         /\ status_answer "mkl_sparse_spmm" (status r) o)
  /\ (forall data_ref fn t,
         MKL_INT w = Some t ->
         let m := heap w data_ref in
         let r := mkl (trace w)
                    (Create fn t (c_value t (fst (shape m)))
                       (c_value t (snd (shape m)))
                       (removelast (items (indptr m))) (tl (items (indptr m)))
                       (indices m) (data m)) in
         let o := fst (_pass_mkl_handle mkl data_ref fn w) in
         (status r = 0 -> o = Ret (out_handle r))
         /\ status_answer (fn_name fn) (status r) o)
  /\ (forall h dp ot copy t f,
         MKL_INT w = Some t ->
         output_format ot = Some f ->
         let r := mkl (trace w) (Export (export_fn dp f) t h) in
         let o := fst (_export_mkl mkl check_format h dp ot copy w) in
         (status r = 0 ->
          o = fst (export_outputs check_format t f (precision_dtype dp) r
                     (log_call (Export (export_fn dp f) t h) w)))
         /\ status_answer (fn_name (export_fn dp f)) (status r) o)
  /\ (forall h,
         let r := mkl (trace w) (ConvertCsr h) in
         let w1 := log_call (ConvertCsr h) w in
         let d := mkl (trace w1) (Destroy (out_handle r)) in
         let run := _convert_to_csr mkl h w in
         (status r = 0 -> run = (Ret (out_handle r), w1))
         /\ (status r <> 0 ->
             snd run = log_call (Destroy (out_handle r)) w1
             /\ (status d = 0 ->
                 fst run = Raise (ValueError "CSC to CSR Conversion failed"))
             /\ status_answer "mkl_sparse_destroy" (status d) (fst run))).
Proof.
  split; [|split; [|split; [|split; [|split]]]].
  - intros h s o. split; [|apply status_answer_return].
    intros Hs. unfold o, _order_mkl_handle, call_mkl. unfold bind at 1.
    fold s. rewrite Hs. reflexivity.
  - intros h s o. split; [|apply status_answer_return].
    intros Hs. unfold o, _destroy_mkl_handle, call_mkl. unfold bind at 1.
    fold s. rewrite Hs. reflexivity.
  - intros ra rb a b r o.
    assert (_matmul_mkl mkl ra rb a b w
            = bind (check_return "mkl_sparse_spmm" (status r))
                (fun _ =>
                   ma <- deref ra ;;
                   assert (shape0 (data ma) =? shape0 (indices ma)) ;;;
                   mb <- deref rb ;;
                   assert (shape0 (data mb) =? shape0 (indices mb)) ;;;
                   ret (out_handle r))
                (log_call (Spmm a b) w)) as E by reflexivity.
    unfold o. rewrite E. split; [|apply status_answer_check].
    intros Hs. rewrite Hs, bind_check_zero.
    unfold deref, assert, bind, ret, raise. cbn [heap log_call].
    destruct (_ =? _); [|right; reflexivity].
    destruct (_ =? _); [left|right]; reflexivity.
  - intros data_ref fn t Ht m r o.
    assert (_pass_mkl_handle mkl data_ref fn w
            = bind (check_return (fn_name fn) (status r))
                (fun _ => ret (out_handle r))
                (log_call
                   (Create fn t (c_value t (fst (shape m)))
                      (c_value t (snd (shape m)))
                      (removelast (items (indptr m)))
                      (tl (items (indptr m))) (indices m) (data m)) w)) as E.
    { unfold _pass_mkl_handle, get_MKL_INT, call_mkl, deref.
      unfold bind at 1. rewrite Ht. reflexivity. }
    unfold o. rewrite E. split; [|apply status_answer_check].
    intros Hs. rewrite Hs. reflexivity.
  - intros h dp ot copy t f Ht Hf r o. unfold o.
    rewrite (export_mkl_run h dp ot copy w t f Ht Hf). fold r.
    split; [|apply status_answer_check].
    intros Hs. rewrite Hs. reflexivity.
  - intros h r w1 d run.
    destruct (convert_run h w) as [H0 H1]. split; [exact H0|].
    intros Hs. destruct (H1 Hs) as (Hw & _ & Hd & Ha).
    split; [exact Hw|]. split; [exact Hd|exact Ha].
Qed.

(** ** Integer-width discovery *)

(** One round trip keeps the width attributes, and every call it makes that
    marshals indices uses the width in force. *)
Lemma validate_spec t w o w' :
  MKL_INT w = Some t ->
  _validate_dtype mkl convert check_format test_array array_almost_equal w
  = (o, w') ->
  width_of w' = width_of w
  /\ exists new, trace w' = trace w ++ new /\ marshalled_at t new.
Proof.
  intros Ht H. unfold _validate_dtype in H.
  apply bind_inv in H as [(e & H1 & ->)|(r & w1 & H1 & H)];
    [discriminate H1|].
  unfold new_matrix in H1. injection H1 as Er Ew. subst r.
  assert (width_of w1 = width_of w /\ trace w1 = trace w
          /\ MKL_INT w1 = Some t) as (W1 & T1 & M1).
  { subst w1. repeat split. exact Ht. }
  clear Ew.
  assert (forall w2 new,
             width_of w2 = width_of w -> trace w2 = trace w ++ new ->
             marshalled_at t new ->
             width_of w2 = width_of w
             /\ exists new, trace w2 = trace w ++ new /\ marshalled_at t new)
    as Done by eauto.
  assert (marshalled_at t []) as M0 by (intros c t' []).
  assert (forall (w2 w3 : world), config_eq w2 w3 ->
             width_of w2 = width_of w -> width_of w3 = width_of w) as Keep.
  { intros w2 w3 (A & B & _) E. unfold width_of in *. congruence. }
  apply bind_inv in H as [(e & H1 & ->)|([csc_ref flag] & w2 & H1 & H)].
  { apply create_spec in H1 as (C2 & _ & K).
    destruct K as [(T2 & _)|(c & np & _ & W & _ & _ & T2 & _)].
    - apply (Done _ []); [eapply Keep; eassumption| |exact M0].
      rewrite app_nil_r. congruence.
    - apply (Done _ [c]); [eapply Keep; eassumption|congruence|].
      intros c' t' [<-|[]] E. congruence. }
  apply create_spec in H1 as (C2 & _ & K).
  destruct K as [(_ & ? & ?)|(c & np & _ & W & _ & _ & T2 & _)];
    [discriminate|].
  assert (width_of w2 = width_of w) as W2 by (eapply Keep; eassumption).
  assert (marshalled_at t [c]) as Mc.
  { intros c' t' [<-|[]] E. congruence. }
  rewrite T1 in T2. cbn [fst snd] in H.
  apply bind_inv in H as [(e & H1 & ->)|(csr_ref & w3 & H1 & H)].
  { apply convert_spec in H1 as [(_ & ? & _)|(_ & _ & ->)]; [discriminate|].
    apply (Done _ [c; ConvertCsr csc_ref;
                   Destroy (out_handle (mkl (trace w2) (ConvertCsr csc_ref)))]);
      [exact W2|trace_eq T2|].
    intros c' t' Hin E. in_cases; subst; try discriminate.
    apply (Mc c' t'); [left; reflexivity|exact E]. }
  apply convert_spec in H1 as [(_ & _ & ->)|(_ & [? ?] & _)]; [|discriminate].
  assert (marshalled_at t [c; ConvertCsr csc_ref]) as Mcc.
  { intros c' t' Hin E. in_cases; subst; try discriminate.
    apply (Mc c' t'); [left; reflexivity|exact E]. }
  apply bind_inv in H as [(e & H1 & ->)|(final_array & w4 & H1 & H)].
  { apply export_spec in H1 as [[(-> & _)|(fn & t0 & Ht0 & ->)] _].
    - apply (Done _ [c; ConvertCsr csc_ref]); [exact W2|trace_eq T2|exact Mcc].
    - apply (Done _ [c; ConvertCsr csc_ref; Export fn t0 csr_ref]);
        [exact W2|trace_eq T2|].
      intros c' t' Hin E. in_cases; subst; try discriminate.
      + apply (Mc c' t'); [left; reflexivity|exact E].
      + cbn in E, Ht0. destruct C2 as (C2 & _). congruence. }
  apply export_spec in H1 as [[(_ & ? & ?)|(fn & t0 & Ht0 & ->)] _];
    [discriminate|].
  apply pure_assert in H as [-> _].
  apply (Done _ [c; ConvertCsr csc_ref; Export fn t0 csr_ref]);
    [exact W2|trace_eq T2|].
  intros c' t' Hin E. in_cases; subst; try discriminate.
  - apply (Mc c' t'); [left; reflexivity|exact E].
  - cbn in E, Ht0. destruct C2 as (C2 & _). congruence.
Qed.

Lemma module_init_unfold w :
  MKL_INT w = None ->
  let validate :=
    _validate_dtype mkl convert check_format test_array array_almost_equal in
  module_init mkl convert check_format test_array array_almost_equal w
  = match validate (with_width c_longlong int64 w) with
    | (Ret a, w2) => (Ret a, w2)
    | (Raise e, w2) =>
        if caught e then
          match validate (with_width c_int int32 w2) with
          | (Ret a, w4) => (Ret a, w4)
          | (Raise e', w4) =>
              if caught e'
              then (Raise (ImportError "Unable to set MKL numeric types"), w4)
              else (Raise e', w4)
          end
        else (Raise e, w2)
    end.
Proof.
  intros H validate. unfold module_init. rewrite H. reflexivity.
Qed.

(** ** Further properties of [dot_product_mkl] *)

Lemma bind_ret_inv {A B} (m : M A) (k : A -> M B) w b w' :
  bind m k w = (Ret b, w') ->
  exists a w1, m w = (Ret a, w1) /\ k a w1 = (Ret b, w').
Proof.
  intros H. apply bind_inv in H as [(e & _ & H)|H]; [discriminate H|exact H].
Qed.

Lemma edge_result_dtype (a b : spmatrix) :
  (if (negb (dtype_eqb (dtype_m a) (dtype_m b))
       || negb (dtype_eqb (dtype_m a) float32))%bool
   then float64 else float32)
  = result_dtype a b.
Proof.
  unfold result_dtype.
  destruct (dtype_eqb (dtype_m a) (dtype_m b)) eqn:Eab;
    destruct (dtype_eqb (dtype_m a) float32) eqn:Ea; cbn; try reflexivity.
  - apply dtype_eqb_eq in Eab, Ea. rewrite <- Eab, Ea. reflexivity.
  - apply dtype_eqb_eq in Ea. apply dtype_eqb_neq in Eab.
    destruct (dtype_eqb (dtype_m b) float32) eqn:Eb; [|reflexivity].
    apply dtype_eqb_eq in Eb. congruence.
Qed.

(** With non-negative dimensions, an edge-condition test that fails means
    that no dimension and no array length is zero. *)
Lemma edge_condition_false (a b : spmatrix) :
  valid_shape a -> valid_shape b ->
  edge_condition a b = false ->
  0 < fst (shape a) /\ 0 < snd (shape a)
  /\ 0 < fst (shape b) /\ 0 < snd (shape b)
  /\ 0 < shape0 (data a) /\ 0 < shape0 (data b)
  /\ 0 < shape0 (indices a) /\ 0 < shape0 (indices b).
Proof.
  intros [A1 A2] [B1 B2] H. unfold edge_condition in H.
  apply Z.eqb_neq in H. unfold shape0 in *. lia.
Qed.

(** X1.  [dot_product_mkl] first refuses an operand that is not CSR, with a
    fixed message, then a pair whose inner dimensions differ, with a message
    that prints both shapes.  In both cases no vendor call has been made and
    no object has been changed, whatever the flags. *)
Theorem dot_product_mkl_input_checks
    ra rb cast copy reorder_output debug w :
  (is_csr (heap w ra) = false \/ is_csr (heap w rb) = false ->
   dot_product_mkl mkl convert check_format ra rb cast copy reorder_output
     debug w
   = (Raise (ValueError
               "Both input matrices to csr_dot_product_mkl must be CSR"), w))
  /\ (is_csr (heap w ra) = true -> is_csr (heap w rb) = true ->
      snd (shape (heap w ra)) <> fst (shape (heap w rb)) ->
      dot_product_mkl mkl convert check_format ra rb cast copy reorder_output
        debug w
      = (Raise (ValueError
                  (alignment_msg (shape (heap w ra)) (shape (heap w rb)))),
         w)).
Proof.
  split.
  - intros H. unfold dot_product_mkl, deref.
    unfold bind at 1. unfold bind at 1.
    destruct H as [H|H]; rewrite H; cbn [negb orb]; [reflexivity|].
    rewrite orb_true_r. reflexivity.
  - intros Ha Hb Hs. unfold dot_product_mkl, deref.
    unfold bind at 1. unfold bind at 1.
    rewrite Ha, Hb. cbn [negb orb].
    apply Z.eqb_neq in Hs. rewrite Hs. reflexivity.
Qed.

(** X2.  For CSR operands with equal inner dimensions that meet the edge
    condition (a zero dimension, or an empty value or index array),
    [dot_product_mkl] returns the empty CSR matrix of shape (rows of the
    left operand, rows of the right operand), float32 when both operands
    are float32 and float64 otherwise.  The four flags play no role, no
    vendor call is made and the operands are left as they were. *)
Theorem dot_product_mkl_edge_result
    ra rb cast copy reorder_output debug w :
  is_csr (heap w ra) = true ->
  is_csr (heap w rb) = true ->
  snd (shape (heap w ra)) = fst (shape (heap w rb)) ->
  edge_condition (heap w ra) (heap w rb) = true ->
  0 <= fst (shape (heap w ra)) ->
  0 <= fst (shape (heap w rb)) ->
  dot_product_mkl mkl convert check_format ra rb cast copy reorder_output
    debug w
  = (Ret (empty_of csr (fst (shape (heap w ra)), fst (shape (heap w rb)))
            (result_dtype (heap w ra) (heap w rb))), w).
Proof.
  intros Ha Hb Hs He Hra Hrb.
  unfold dot_product_mkl, deref. unfold bind at 1. unfold bind at 1.
  rewrite Ha, Hb, Hs, Z.eqb_refl, He. cbn [negb orb].
  rewrite edge_result_dtype. unfold sp_matrix_from_shape. cbn [fst snd].
  apply Z.ltb_ge in Hra, Hrb. rewrite Hra, Hrb. reflexivity.
Qed.

(** X3.  If a [dot_product_mkl] run has made a vendor call or changed an
    object, then its operands had passed every check: both CSR, equal inner
    dimensions, no edge condition, and equal dtypes unless [cast] is set. *)
Theorem dot_product_mkl_checks_before_effects
    ra rb cast copy reorder_output debug w o w' :
  dot_product_mkl mkl convert check_format ra rb cast copy reorder_output
    debug w = (o, w') ->
  trace w' <> trace w \/ (exists r, heap w' r <> heap w r) ->
  is_csr (heap w ra) = true /\ is_csr (heap w rb) = true
  /\ snd (shape (heap w ra)) = fst (shape (heap w rb))
  /\ edge_condition (heap w ra) (heap w rb) = false
  /\ (dtype_m (heap w ra) = dtype_m (heap w rb) \/ cast = true).
Proof.
  intros H Heff.
  assert (w' = w -> False) as Hne.
  { intros ->. destruct Heff as [T|[r T]]; apply T; reflexivity. }
  unfold dot_product_mkl, deref in H. unfold bind at 1 in H.
  unfold bind at 1 in H.
  destruct (is_csr (heap w ra)) eqn:Ha; cbn [negb orb] in H;
    [|inversion H; subst; destruct Hne; reflexivity].
  destruct (is_csr (heap w rb)) eqn:Hb; cbn [negb orb] in H;
    [|inversion H; subst; destruct Hne; reflexivity].
  destruct (Z.eqb_spec (snd (shape (heap w ra))) (fst (shape (heap w rb))))
    as [Hs|Hs]; cbn [negb] in H;
    [|inversion H; subst; destruct Hne; reflexivity].
  destruct (edge_condition (heap w ra) (heap w rb)) eqn:He.
  { apply sp_matrix_from_shape_world in H. destruct Hne; exact H. }
  repeat (split; [reflexivity || assumption|]).
  destruct (dtype_eqb (dtype_m (heap w ra)) (dtype_m (heap w rb))) eqn:Ed.
  { left. apply dtype_eqb_eq. exact Ed. }
  destruct cast; [right; reflexivity|].
  cbn [negb andb] in H. unfold bind at 1 in H. unfold raise at 1 in H.
  inversion H; subst. destruct Hne; reflexivity.
Qed.

(** X4.  Without [cast], CSR operands that pass the shape and edge checks
    and share a dtype that is neither float32 nor float64 are refused with
    the unsupported-dtype error before any vendor call, and are left as
    they were. *)
Theorem dot_product_mkl_unsupported_dtype
    ra rb copy reorder_output debug w :
  is_csr (heap w ra) = true ->
  is_csr (heap w rb) = true ->
  valid_shape (heap w ra) -> valid_shape (heap w rb) ->
  snd (shape (heap w ra)) = fst (shape (heap w rb)) ->
  edge_condition (heap w ra) (heap w rb) = false ->
  dtype_m (heap w ra) = dtype_m (heap w rb) ->
  dtype_m (heap w ra) <> float32 ->
  dtype_m (heap w ra) <> float64 ->
  dot_product_mkl mkl convert check_format ra rb false copy reorder_output
    debug w
  = (Raise (ValueError "Only float32 or float64 dtypes are supported"), w).
Proof.
  intros Ha Hb Va Vb Hs He Hd H32 H64.
  destruct (edge_condition_false _ _ Va Vb He)
    as (A1 & A2 & B1 & B2 & Da & Db & _ & _).
  unfold dot_product_mkl, deref. unfold bind at 1. unfold bind at 1.
  rewrite Ha, Hb, Hs, Z.eqb_refl, He. cbn [negb orb].
  rewrite <- Hd, dtype_eqb_refl. cbn [negb andb].
  rewrite (bind_ret _ _ w tt w) by reflexivity.
  rewrite (bind_ret _ _ w tt w).
  2: { destruct debug; [|reflexivity].
       unfold bind at 1. unfold matrix_stats.
       assert ((shape0 (data (heap w ra)) =? 0) = false) as ->
           by (apply Z.eqb_neq; lia).
       assert ((fst (shape (heap w ra)) * snd (shape (heap w ra)) =? 0) = false)
         as -> by (apply Z.eqb_neq; nia).
       cbn.
       assert ((shape0 (data (heap w rb)) =? 0) = false) as ->
           by (apply Z.eqb_neq; lia).
       assert ((fst (shape (heap w rb)) * snd (shape (heap w rb)) =? 0) = false)
         as -> by (apply Z.eqb_neq; nia).
       reflexivity. }
  apply bind_raise. unfold _create_mkl_sparse, deref.
  unfold bind at 1. apply bind_raise.
  apply dtype_eqb_neq in H32, H64. rewrite H32, H64. reflexivity.
Qed.

Ltac case_flags :=
  repeat match goal with
    | |- context [if ?b then _ else _] => destruct b
    end.

Lemma vendor_calls_length tr0 copy reorder_output debug new :
  vendor_calls tr0 copy reorder_output debug new ->
  (List.length new <= call_budget copy reorder_output debug)%nat.
Proof.
  unfold call_budget.
  intros H; inversion H; subst;
    repeat match goal with
      | D : debug_calls _ _ _ _ |- _ => inversion D; subst; clear D
      end;
    unfold operand_calls, reorder_calls;
    case_flags; rewrite ?length_app; cbn [List.length app];
    rewrite ?length_app; cbn [List.length app]; try lia; discriminate.
Qed.

Lemma complete_calls_length tr0 copy reorder_output debug new :
  complete_calls tr0 copy reorder_output debug new ->
  List.length new = call_budget copy reorder_output debug.
Proof.
  unfold call_budget.
  intros (ca & cb & ha & hb & dbg & hc & fc & tc & _ & _ & D & _ & ->).
  inversion D; subst; unfold operand_calls, reorder_calls, destroy_calls;
    case_flags; rewrite ?length_app; cbn [List.length app];
    rewrite ?length_app; cbn [List.length app]; lia.
Qed.

(** X5.  A [dot_product_mkl] run makes at most 6 vendor calls, plus two with
    [debug], one with [reorder_output] and one with [copy].  A run that
    returns a matrix has made none of them on the edge-condition path and
    all of them otherwise. *)
Theorem dot_product_mkl_call_count
    ra rb cast copy reorder_output debug w o w' :
  dot_product_mkl mkl convert check_format ra rb cast copy reorder_output
    debug w = (o, w') ->
  exists new,
    trace w' = trace w ++ new
    /\ (List.length new <= call_budget copy reorder_output debug)%nat
    /\ forall m, o = Ret m ->
         List.length new
         = if edge_condition (heap w ra) (heap w rb) then 0%nat
           else call_budget copy reorder_output debug.
Proof.
  intros H. apply dot_run in H as (_ & (new & T & Hvc) & Hm).
  exists new. split; [exact T|].
  split; [eapply vendor_calls_length; exact Hvc|].
  intros m E.
  destruct (Hm m E) as [(He & -> & _)|(He & new' & np & T' & Hcc & _)];
    rewrite He.
  - assert (new = []) as ->; [|reflexivity].
    rewrite <- (app_nil_r (trace w)) in T at 1.
    apply app_inv_head in T. symmetry. exact T.
  - assert (new' = new) as ->.
    { rewrite T in T'. apply app_inv_head in T'. symmetry. exact T'. }
    eapply complete_calls_length. exact Hcc.
Qed.

(** ** Further properties of the wrappers *)

Lemma as_array_ret (p : nat -> Z) n w :
  0 <= n -> as_array p n w = (Ret (map p (seq 0 (Z.to_nat n))), w).
Proof.
  intros Hn. unfold as_array. apply Z.ltb_ge in Hn. rewrite Hn. reflexivity.
Qed.

Lemma shape0_map_seq dt (p : nat -> Z) n :
  0 <= n ->
  shape0 {| dtype_of := dt; items := map p (seq 0 (Z.to_nat n)) |} = n.
Proof.
  intros Hn. unfold shape0. cbn [items].
  rewrite length_map, length_seq. lia.
Qed.

Lemma c_int_le z : c_value c_int z <= 2147483647.
Proof.
  unfold c_value. cbn [bits].
  pose proof (Z.mod_pos_bound (z + 2 ^ (32 - 1)) (2 ^ 32) ltac:(lia)).
  change (2 ^ 32) with 4294967296 in *.
  change (2 ^ (32 - 1)) with 2147483648 in *. lia.
Qed.

(** X6.  In the export routine, after an export call that returned status
    zero and reported 0-based ordering, positive dimensions and a count nnz
    (last pointer value minus first) from 1 to rows x cols: the arrays handed
    to scipy are the first nnz exported values, the first nnz exported
    column indices and the first begin-pointer followed by every
    end-pointer, with the reported shape.  The matrix scipy builds keeps
    their items and stores the two index arrays in the index dtype it picks:
    int32 under a 32-bit vendor integer, and under a 64-bit one int32
    exactly when both dimensions and every index and pointer value lie in
    the int32 range.  That matrix is returned when scipy accepts it, and the
    call raises otherwise; the export call is the only vendor call. *)
Theorem export_mkl_builds_matrix h dp ot copy w t f :
  MKL_INT w = Some t ->
  output_format ot = Some f ->
  let r := mkl (trace w) (Export (export_fn dp f) t h) in
  status r = 0 ->
  out_ordering r = 0 ->
  let nrows := c_value t (out_nrows r) in
  let ncols := c_value t (out_ncols r) in
  0 < nrows -> 0 < ncols ->
  let index_dim := match f with csr => nrows | _ => ncols end in
  let first := c_value t (out_rows_start r 0) in
  let last_ := c_value t (out_rows_end r (Z.to_nat index_dim - 1)) in
  let nnz := np_sub t last_ first in
  0 < nnz <= nrows * ncols ->
  let values := {| dtype_of := precision_dtype dp;
                   items := map (out_values r) (seq 0 (Z.to_nat nnz)) |} in
  let col_indx := {| dtype_of := np_of_ctype t;
                     items := map (fun i => c_value t (out_col_indx r i))
                                (seq 0 (Z.to_nat nnz)) |} in
  let pointers := {| dtype_of := np_of_ctype t;
                     items := first
                              :: map (fun i => c_value t (out_rows_end r i))
                                   (seq 0 (Z.to_nat index_dim)) |} in
  let idx_dtype := get_index_dtype [col_indx; pointers] (Z.max nrows ncols) in
  let m :=
    {| format := f; shape := (nrows, ncols); data := values;
       indices := {| dtype_of := idx_dtype; items := items col_indx |};
       indptr := {| dtype_of := idx_dtype; items := items pointers |} |} in
  let after_call := log_call (Export (export_fn dp f) t h) w in
  (check_format m = true ->
   _export_mkl mkl check_format h dp ot copy w = (Ret m, after_call))
  /\ (check_format m = false ->
      exists e,
        _export_mkl mkl check_format h dp ot copy w = (Raise e, after_call))
  /\ shape0 (data m) = nnz /\ shape0 (indices m) = nnz
  /\ shape0 (indptr m) = index_dim + 1
  /\ (t = c_int -> idx_dtype = int32)
  /\ (t = c_longlong ->
      idx_dtype
      = if ((Z.max nrows ncols <=? 2147483647)
            && forallb int32_fits (items col_indx)
            && forallb int32_fits (items pointers))%bool
        then int32 else int64).
Proof.
  intros Ht Hf r Hs Hord nrows ncols Hr Hc index_dim first last_ nnz Hn
    values col_indx pointers idx_dtype m after_call.
  assert (0 < index_dim) as Hi by (unfold index_dim; destruct f; assumption).
  assert (_export_mkl mkl check_format h dp ot copy w
          = sp_matrix_from_arrays check_format f values col_indx pointers
              (nrows, ncols) after_call) as E.
  { rewrite (export_mkl_run h dp ot copy w t f Ht Hf). fold r after_call.
    rewrite Hs, bind_check_zero.
    rewrite (export_outputs_read t f (precision_dtype dp) r after_call Hord
               Hr Hc).
    fold nrows ncols index_dim first last_ nnz.
    assert ((nnz =? 0) = false) as -> by (apply Z.eqb_neq; lia).
    assert (((nnz <? 0) || (nnz >? ncols * nrows))%bool = false) as ->.
    { apply orb_false_iff. split; [apply Z.ltb_ge; lia|].
      rewrite Z.gtb_ltb. apply Z.ltb_ge. lia. }
    rewrite (bind_ret _ _ _ _ _ (as_array_ret _ nnz after_call ltac:(lia))).
    rewrite (bind_ret _ _ _ _ _ (as_array_ret _ nnz after_call ltac:(lia))).
    reflexivity. }
  rewrite E. unfold sp_matrix_from_arrays. cbn [fst snd].
  fold idx_dtype. fold m.
  split; [intros ->; reflexivity|].
  split; [intros ->; eexists; reflexivity|].
  split; [apply shape0_map_seq; lia|].
  split; [apply shape0_map_seq; lia|].
  split.
  { unfold shape0. cbn [items indptr m pointers List.length].
    rewrite length_map, length_seq. lia. }
  split.
  - intros ->. unfold idx_dtype, get_index_dtype.
    assert ((Z.max nrows ncols >? 2147483647) = false) as ->.
    { rewrite Z.gtb_ltb. apply Z.ltb_ge.
      apply Z.max_lub; apply c_int_le. }
    reflexivity.
  - intros ->. unfold idx_dtype, get_index_dtype.
    rewrite Z.gtb_ltb, Z.ltb_antisym.
    destruct (Z.max nrows ncols <=? 2147483647); cbn [negb andb];
      [|reflexivity].
    cbn [forallb]. unfold keeps_int32 at 1 2.
    cbn [dtype_of np_of_ctype col_indx pointers items].
    change (dtype_eqb int64 int32) with false.
    change (dtype_eqb int64 int64) with true. cbn [andb].
    destruct (Z.to_nat nnz) as [|k] eqn:Ek; [lia|].
    rewrite <- Ek. cbn [seq map]. rewrite Ek.
    set (a := forallb int32_fits _). set (b := forallb int32_fits _).
    cbn [seq map].
    destruct a, b; reflexivity.
Qed.

Lemma lower_ascii_idem c : lower_ascii (lower_ascii c) = lower_ascii c.
Proof.
  destruct c as [b0 b1 b2 b3 b4 b5 b6 b7].
  destruct b0, b1, b2, b3, b4, b5, b6, b7; reflexivity.
Qed.

Lemma lower_idem s : lower (lower s) = lower s.
Proof.
  induction s as [|c s IH]; [reflexivity|].
  cbn [lower]. rewrite lower_ascii_idem, IH. reflexivity.
Qed.

(** X7.  The export routine reads its output type without regard to case,
    and an output type that is neither CSR nor CSC is refused before the
    vendor is called. *)
Theorem export_mkl_output_type h dp ot copy w t :
  MKL_INT w = Some t ->
  _export_mkl mkl check_format h dp (lower ot) copy w
  = _export_mkl mkl check_format h dp ot copy w
  /\ (String.eqb (lower ot) "csr" = false ->
      String.eqb (lower ot) "csc" = false ->
      _export_mkl mkl check_format h dp ot copy w
      = (Raise (ValueError "Only CSR and CSC output types are supported"),
         w)).
Proof.
  intros Ht. split.
  - unfold _export_mkl. rewrite lower_idem. reflexivity.
  - intros H1 H2. unfold _export_mkl, get_MKL_INT. unfold bind at 1.
    rewrite Ht. apply bind_raise. unfold export_choice.
    rewrite H1, H2. reflexivity.
Qed.

(** X8.  When the conversion to CSR returns a nonzero status,
    [_convert_to_csr] calls destroy on the handle that call wrote, and only
    then raises: the conversion error when the destroy call succeeds, the
    destroy call's own status error otherwise.  A successful conversion
    makes the one call and returns its handle. *)
Theorem convert_to_csr_cleanup h w :
  let r := mkl (trace w) (ConvertCsr h) in
  let w1 := log_call (ConvertCsr h) w in
  let d := mkl (trace w1) (Destroy (out_handle r)) in
  let run := _convert_to_csr mkl h w in
  (status r = 0 -> run = (Ret (out_handle r), w1))
  /\ (status r <> 0 ->
      snd run = log_call (Destroy (out_handle r)) w1
      /\ (status d = 0 ->
          fst run = Raise (ValueError "CSC to CSR Conversion failed"))
      /\ status_rule "mkl_sparse_destroy" (status d) (fst run)).
Proof.
  intros r w1 d run.
  assert (run = (if negb (status r =? 0)
                 then _destroy_mkl_handle mkl (out_handle r) ;;;
                      raise (ValueError "CSC to CSR Conversion failed")
                 else ret (out_handle r)) w1) as E by reflexivity.
  split.
  - intros Hs. rewrite E, Hs. reflexivity.
  - intros Hs. apply Z.eqb_neq in Hs. rewrite Hs in E. cbn [negb] in E.
    assert (_destroy_mkl_handle mkl (out_handle r) w1
            = check_return "mkl_sparse_destroy" (status d)
                (log_call (Destroy (out_handle r)) w1)) as Ed by reflexivity.
    unfold bind at 1 in E. rewrite Ed in E.
    destruct (check_return_cases "mkl_sparse_destroy" (status d)
                (log_call (Destroy (out_handle r)) w1))
      as [[Hd Ec]|[Hd [e Ec]]]; rewrite Ec in E; rewrite E; cbn [fst snd].
    + split; [reflexivity|]. split; [reflexivity|].
      split; [intros ?; lia|intros ?; contradiction].
    + split; [reflexivity|]. split; [intros ?; contradiction|].
      split.
      * intros Hr.
        destruct (check_return_category "mkl_sparse_destroy" (status d)
                    (log_call (Destroy (out_handle r)) w1) Hr)
          as (x & Hx & Hl & Hc).
        exists x. split; [exact Hx|]. split; [exact Hl|].
        rewrite Hc in Ec. inversion Ec; reflexivity.
      * intros _. eexists; reflexivity.
Qed.

(** X9.  A status that is not one of the keys 0..6 of [RETURN_CODES] makes
    the order, destroy, multiply, create and export wrappers raise
    [KeyError] on that status, straight after the vendor call: the status
    message is never built. *)
Theorem unknown_status_raises_key_error w :
  (forall h,
      let s := status (mkl (trace w) (Order h)) in
      s < 0 \/ 6 < s ->
      _order_mkl_handle mkl h w = (Raise (KeyError s), log_call (Order h) w))
  /\ (forall h,
         let s := status (mkl (trace w) (Destroy h)) in
         s < 0 \/ 6 < s ->
         _destroy_mkl_handle mkl h w
         = (Raise (KeyError s), log_call (Destroy h) w))
  /\ (forall ra rb a b,
         let s := status (mkl (trace w) (Spmm a b)) in
         s < 0 \/ 6 < s ->
         _matmul_mkl mkl ra rb a b w
         = (Raise (KeyError s), log_call (Spmm a b) w))
  /\ (forall data_ref fn t,
         MKL_INT w = Some t ->
         let m := heap w data_ref in
         let c := Create fn t (c_value t (fst (shape m)))
                    (c_value t (snd (shape m)))
                    (removelast (items (indptr m))) (tl (items (indptr m)))
                    (indices m) (data m) in
         let s := status (mkl (trace w) c) in
         s < 0 \/ 6 < s ->
         _pass_mkl_handle mkl data_ref fn w
         = (Raise (KeyError s), log_call c w))
  /\ (forall h dp ot copy t f,
         MKL_INT w = Some t ->
         output_format ot = Some f ->
         let c := Export (export_fn dp f) t h in
         let s := status (mkl (trace w) c) in
         s < 0 \/ 6 < s ->
         _export_mkl mkl check_format h dp ot copy w
         = (Raise (KeyError s), log_call c w)).
Proof.
  split; [|split; [|split; [|split]]].
  - intros h s Hs. unfold _order_mkl_handle, call_mkl. unfold bind at 1.
    fold s. apply check_return_unknown. exact Hs.
  - intros h s Hs. unfold _destroy_mkl_handle, call_mkl. unfold bind at 1.
    fold s. apply check_return_unknown. exact Hs.
  - intros ra rb a b s Hs. unfold _matmul_mkl, call_mkl. unfold bind at 1.
    fold s. apply bind_raise. apply check_return_unknown. exact Hs.
  - intros data_ref fn t Ht m c s Hs.
    unfold _pass_mkl_handle, get_MKL_INT, deref, call_mkl.
    unfold bind at 1. rewrite Ht. unfold bind at 1. unfold bind at 1.
    fold m c s. apply bind_raise. apply check_return_unknown. exact Hs.
  - intros h dp ot copy t f Ht Hf c s Hs.
    rewrite (export_mkl_run h dp ot copy w t f Ht Hf). fold c s.
    apply bind_raise. apply check_return_unknown. exact Hs.
Qed.

Lemma shape0_astype t a : shape0 (astype convert t a) = shape0 a.
Proof. unfold shape0, astype. cbn [items]. rewrite length_map. reflexivity. Qed.

Lemma retype_dtype np a : dtype_of (retype np a) = np.
Proof.
  unfold retype. destruct (dtype_eqb (dtype_of a) np) eqn:E.
  - apply dtype_eqb_eq. exact E.
  - reflexivity.
Qed.

Lemma retype_shape0 np a : shape0 (retype np a) = shape0 a.
Proof.
  unfold retype. destruct (dtype_eqb (dtype_of a) np);
    [reflexivity|apply shape0_astype].
Qed.

Lemma retype_same np a : dtype_of a = np -> retype np a = a.
Proof.
  intros E. unfold retype. apply dtype_eqb_eq in E. rewrite E. reflexivity.
Qed.

(** X10.  Once the integer width is set, [_check_scipy_index_typing] always
    returns; afterwards the pointer and index arrays of the matrix have the
    MKL integer dtype and their old lengths, while its values, shape and
    format, every other object and the call log are as before.  A matrix
    whose two arrays already have that dtype is not changed, so a second
    call changes nothing. *)
Theorem check_scipy_index_typing_post r w np :
  MKL_INT_NUMPY w = Some np ->
  exists w',
    _check_scipy_index_typing convert r w = (Ret tt, w')
    /\ dtype_of (indptr (heap w' r)) = np
    /\ dtype_of (indices (heap w' r)) = np
    /\ shape0 (indptr (heap w' r)) = shape0 (indptr (heap w r))
    /\ shape0 (indices (heap w' r)) = shape0 (indices (heap w r))
    /\ data (heap w' r) = data (heap w r)
    /\ shape (heap w' r) = shape (heap w r)
    /\ format (heap w' r) = format (heap w r)
    /\ (forall r', r' <> r -> heap w' r' = heap w r')
    /\ trace w' = trace w
    /\ (dtype_of (indptr (heap w r)) = np ->
        dtype_of (indices (heap w r)) = np -> heap w' r = heap w r)
    /\ (forall o w'',
           _check_scipy_index_typing convert r w' = (o, w'') ->
           o = Ret tt /\ heap w'' r = heap w' r).
Proof.
  intros N.
  destruct (_check_scipy_index_typing convert r w) as [o w'] eqn:E.
  apply check_typing_spec in E
    as (C & T & F & [[_ N']|(np' & -> & N' & V)]); [congruence|].
  assert (np' = np) as -> by congruence.
  exists w'. split; [reflexivity|].
  rewrite V. cbn [indptr indices data shape format set_indices set_indptr].
  rewrite !retype_dtype, !retype_shape0.
  repeat (split; [reflexivity || assumption|]).
  split.
  - intros E1 E2. rewrite (retype_same _ _ E1), (retype_same _ _ E2).
    apply set_same.
  - intros o w'' E2.
    apply check_typing_spec in E2
      as (C2 & _ & _ & [[_ N2]|(np2 & -> & N2 & V2)]).
    + destruct C as (_ & C & _). congruence.
    + assert (np2 = np) as ->
          by (destruct C as (_ & C & _); congruence).
      split; [reflexivity|]. rewrite V2, V.
      cbn [indptr indices set_indices set_indptr].
      rewrite !retype_idem. destruct (heap w r); reflexivity.
Qed.

(** ** The create call *)

Lemma assert_ret b w w' : assert b w = (Ret tt, w') -> b = true /\ w' = w.
Proof.
  unfold assert, ret, raise. destruct b; intros H; inversion H.
  split; reflexivity.
Qed.

Lemma pass_handle_call r fn w o w' :
  _pass_mkl_handle mkl r fn w = (o, w') ->
  (MKL_INT w = None /\ w' = w /\ o = Raise TypeError)
  \/ exists t,
       MKL_INT w = Some t
       /\ w' = log_call (create_call fn t (heap w r)) w
       /\ (status (mkl (trace w) (create_call fn t (heap w r))) = 0 ->
           o = Ret (out_handle (mkl (trace w) (create_call fn t (heap w r)))))
       /\ (status (mkl (trace w) (create_call fn t (heap w r))) <> 0 ->
           exists e, o = Raise e).
Proof.
  unfold _pass_mkl_handle, get_MKL_INT, deref, call_mkl. unfold bind at 1.
  destruct (MKL_INT w) as [t|] eqn:Ht.
  - unfold bind at 1. unfold bind at 1.
    fold (create_call fn t (heap w r)).
    set (c := create_call fn t (heap w r)). intros H.
    right. exists t. split; [reflexivity|].
    unfold bind in H.
    destruct (check_return_cases (fn_name fn) (status (mkl (trace w) c))
                (log_call c w)) as [[Hs E]|[Hs [e E]]];
      rewrite E in H; unfold ret in H; inversion H; subst.
    + split; [reflexivity|]. split; [reflexivity|]. intros ?; contradiction.
    + split; [reflexivity|]. split; [intros ?; contradiction|].
      intros _. eexists; reflexivity.
  - intros H. inversion H. left. repeat split.
Qed.

Lemma sp_format_eqb_eq a b : sp_format_eqb a b = true -> a = b.
Proof. destruct a, b; intros H; try reflexivity; discriminate H. Qed.

Lemma pass_then_ret r fn (dp : bool) w o w' :
  (h <- _pass_mkl_handle mkl r fn ;; ret (h, dp)) w = (o, w') ->
  (MKL_INT w = None /\ w' = w /\ o = Raise TypeError)
  \/ exists t,
       MKL_INT w = Some t
       /\ w' = log_call (create_call fn t (heap w r)) w
       /\ (status (mkl (trace w) (create_call fn t (heap w r))) = 0 ->
           o = Ret (out_handle (mkl (trace w) (create_call fn t (heap w r))),
                    dp))
       /\ (status (mkl (trace w) (create_call fn t (heap w r))) <> 0 ->
           exists e, o = Raise e).
Proof.
  intros H.
  apply bind_inv in H as [(e & H1 & ->)|(h & w3 & H1 & H2)].
  - apply pass_handle_call in H1 as [(N & -> & E)|(t & Ht & -> & O1 & O2)].
    + left. inversion E; subst. repeat split. exact N.
    + right. exists t. split; [exact Ht|]. split; [reflexivity|].
      split; [|intros _; eexists; reflexivity].
      intros Hs. apply O1 in Hs. discriminate Hs.
  - unfold ret in H2. inversion H2; subst o w3; clear H2.
    apply pass_handle_call in H1 as [(_ & _ & E)|(t & Ht & -> & O1 & O2)];
      [discriminate E|].
    right. exists t. split; [exact Ht|]. split; [reflexivity|].
    split.
    + intros Hs. apply O1 in Hs. inversion Hs; subst. reflexivity.
    + intros Hs. apply O2 in Hs as [e Hs]. discriminate Hs.
Qed.

(** What [_create_mkl_sparse] has done when it reaches the vendor. *)
Lemma create_steps r cast w o w' :
  _create_mkl_sparse mkl convert r cast w = (o, w') ->
  (trace w' = trace w /\ exists e, o = Raise e)
  \/ exists t np,
       MKL_INT w = Some t /\ MKL_INT_NUMPY w = Some np
       /\ heap w' r = created cast np (heap w r)
       /\ let m := heap w' r in
          let dp := dtype_eqb (dtype_m m) float64 in
          let c := create_call (create_fn (format m) dp) t m in
          trace w' = trace w ++ [c]
          /\ (format m = csr \/ format m = csc)
          /\ (dtype_m m = float32 \/ dtype_m m = float64)
          /\ shape0 (data m) = shape0 (indices m)
          /\ shape0 (indptr m) = major (format m) (shape m) + 1
          /\ (status (mkl (trace w) c) = 0 ->
              o = Ret (out_handle (mkl (trace w) c), dp))
          /\ (status (mkl (trace w) c) <> 0 -> exists e, o = Raise e).
Proof.
  intros H. unfold _create_mkl_sparse in H.
  apply bind_inv in H as [(e & H1 & ->)|(m & w1 & H1 & H)];
    [discriminate H1|].
  inversion H1; subst m w1; clear H1.
  apply bind_inv in H as [(e & H1 & ->)|(dp & w1 & H1 & H)].
  { assert (w' = w) as ->.
    { unfold update, bind, ret, raise in H1. run_in H1; congruence. }
    left. split; [reflexivity|eexists; reflexivity]. }
  assert (config_eq w w1 /\ trace w1 = trace w
          /\ heap w1 r = precast cast (heap w r)
          /\ (dtype_m (precast cast (heap w r)) = float32
              \/ dtype_m (precast cast (heap w r)) = float64)
          /\ dp = dtype_eqb (dtype_m (precast cast (heap w r))) float64)
    as (C1 & T1 & V1 & D1 & P1).
  { unfold update, bind, ret, raise in H1. unfold precast.
    run_in H1; inversion H1; subst; clear H1.
    all: repeat match goal with
           | H : dtype_eqb _ _ = true |- _ => apply dtype_eqb_eq in H
           end.
    all: repeat split; cbn; rewrite ?Nat.eqb_refl; auto.
    all: try congruence.
    all: match goal with
         | H : dtype_m _ = _ |- _ => rewrite H; reflexivity
         end. }
  clear H1.
  apply bind_inv in H as [(e & H1 & ->)|([] & w2 & H1 & H)].
  { apply check_typing_spec in H1 as (C2 & T2 & F2 & _).
    left. split; [congruence|eexists; reflexivity]. }
  apply check_typing_spec in H1 as (C2 & T2 & F2 & [[? _]|(np & _ & N2 & V2)]);
    [discriminate|].
  assert (MKL_INT_NUMPY w = Some np) as N
      by (destruct C1 as (_ & <- & _); exact N2).
  assert (heap w2 r = created cast np (heap w r)) as V.
  { rewrite V2, V1. reflexivity. }
  assert (dtype_m (heap w2 r) = dtype_m (precast cast (heap w r))) as DT.
  { rewrite V2, V1. reflexivity. }
  assert (MKL_INT w2 = MKL_INT w) as MI.
  { destruct C1 as (C1 & _). destruct C2 as (C2 & _). congruence. }
  assert (trace w2 = trace w) as T by congruence.
  rewrite <- DT in D1, P1.
  clear C1 C2 F2 T1 T2 V1 V2 N2 DT.
  apply bind_inv in H as [(e & H1 & ->)|(m & w3 & H1 & H)];
    [discriminate H1|].
  inversion H1; subst m w3; clear H1.
  apply bind_inv in H as [(e & H1 & ->)|([] & w3 & H1 & H)].
  { apply assert_world in H1 as ->.
    left. split; [exact T|eexists; reflexivity]. }
  apply assert_ret in H1 as [L1 ->]. apply Z.eqb_eq in L1.
  assert (forall f : sp_format,
             format (heap w2 r) = f -> (f = csr \/ f = csc) ->
             shape0 (indptr (heap w2 r)) = major f (shape (heap w2 r)) + 1 ->
             (h <- _pass_mkl_handle mkl r (create_fn f dp) ;; ret (h, dp)) w2
             = (o, w') ->
             (trace w' = trace w /\ exists e, o = Raise e)
             \/ exists t np,
                  MKL_INT w = Some t /\ MKL_INT_NUMPY w = Some np
                  /\ heap w' r = created cast np (heap w r)
                  /\ let m := heap w' r in
                     let dp := dtype_eqb (dtype_m m) float64 in
                     let c := create_call (create_fn (format m) dp) t m in
                     trace w' = trace w ++ [c]
                     /\ (format m = csr \/ format m = csc)
                     /\ (dtype_m m = float32 \/ dtype_m m = float64)
                     /\ shape0 (data m) = shape0 (indices m)
                     /\ shape0 (indptr m) = major (format m) (shape m) + 1
                     /\ (status (mkl (trace w) c) = 0 ->
                         o = Ret (out_handle (mkl (trace w) c), dp))
                     /\ (status (mkl (trace w) c) <> 0 ->
                         exists e, o = Raise e)) as Q.
  { intros f Hf Hcc L2 H1.
    apply pass_then_ret in H1 as [(_ & -> & ->)|(t & Ht & -> & O1 & O2)].
    - left. split; [exact T|eexists; reflexivity].
    - right. exists t, np. cbv zeta. cbn [heap log_call trace].
      subst f dp. rewrite T in O1, O2 |- *.
      split; [congruence|]. split; [exact N|]. split; [exact V|].
      repeat (split; [reflexivity || assumption|]).
      assumption. }
  destruct (is_csr (heap w2 r)) eqn:Hcsr.
  - apply bind_inv in H as [(e & H1 & ->)|([] & w3 & H1 & H)].
    { apply assert_world in H1 as ->.
      left. split; [exact T|eexists; reflexivity]. }
    apply assert_ret in H1 as [L2 ->]. apply Z.eqb_eq in L2.
    apply sp_format_eqb_eq in Hcsr.
    apply (Q csr Hcsr); [left; reflexivity|exact L2|exact H].
  - destruct (isspmatrix_csc (heap w2 r)) eqn:Hcsc.
    + apply bind_inv in H as [(e & H1 & ->)|([] & w3 & H1 & H)].
      { apply assert_world in H1 as ->.
        left. split; [exact T|eexists; reflexivity]. }
      apply assert_ret in H1 as [L2 ->]. apply Z.eqb_eq in L2.
      apply sp_format_eqb_eq in Hcsc.
      apply (Q csc Hcsc); [right; reflexivity|exact L2|exact H].
    + unfold raise in H. inversion H; subst.
      left. split; [exact T|eexists; reflexivity].
Qed.

(** X11.  Whenever [_create_mkl_sparse] reaches the vendor, it makes one
    create call, on the matrix as it then stands: CSR or CSC with the entry
    point of that format, float32 or float64 values with the entry point of
    that precision, pointer and index arrays of the MKL integer dtype, as
    many values as indices, and one pointer more than the major dimension.
    On status zero it returns the new handle and the precision flag. *)
Theorem create_mkl_sparse_marshalling r cast w o w' :
  _create_mkl_sparse mkl convert r cast w = (o, w') ->
  trace w' = trace w
  \/ exists t np,
       MKL_INT w = Some t /\ MKL_INT_NUMPY w = Some np
       /\ let m := heap w' r in
          let dp := dtype_eqb (dtype_m m) float64 in
          let c := create_call (create_fn (format m) dp) t m in
          trace w' = trace w ++ [c]
          /\ (format m = csr \/ format m = csc)
          /\ (dtype_m m = float32 \/ dtype_m m = float64)
          /\ dtype_of (indptr m) = np /\ dtype_of (indices m) = np
          /\ shape0 (data m) = shape0 (indices m)
          /\ shape0 (indptr m) = major (format m) (shape m) + 1
          /\ (status (mkl (trace w) c) = 0 ->
              o = Ret (out_handle (mkl (trace w) c), dp)).
Proof.
  intros H.
  apply create_steps in H
    as [(T & _)|(t & np & Ht & N & V & T & F & D & L1 & L2 & O1 & _)].
  - left. exact T.
  - right. exists t, np. split; [exact Ht|]. split; [exact N|].
    cbv zeta.
    repeat (split; [assumption|]).
    split; [rewrite V; apply retype_dtype|].
    split; [rewrite V; apply retype_dtype|].
    repeat (split; [assumption|]). exact O1.
Qed.

(** ** Runs of [dot_product_mkl] that return *)

Lemma pure_export_outputs_format t f dt r :
  pure_with (fun m => format m = f) (export_outputs check_format t f dt r).
Proof.
  assert (forall sh, pure_with (fun m => format m = f)
                       (sp_matrix_from_shape f sh dt)) as Hs.
  { intros sh. unfold sp_matrix_from_shape.
    destruct (_ || _)%bool; [apply pure_raise|apply pure_ret; reflexivity]. }
  unfold export_outputs.
  destruct (negb _); [apply pure_raise|].
  destruct (_ || _)%bool; [apply Hs|].
  eapply pure_bind; [apply pure_as_array|intros indptrb _].
  eapply pure_bind; [apply pure_as_array|intros indptren _].
  eapply pure_bind; [apply pure_item0|intros first _].
  eapply pure_bind; [apply pure_item_last|intros last_ _].
  destruct (_ =? 0); [apply Hs|].
  destruct (_ || _)%bool; [apply pure_raise|].
  eapply pure_bind; [apply pure_as_array|intros data_ _].
  eapply pure_bind; [apply pure_as_array|intros indices_ _].
  unfold sp_matrix_from_arrays. destruct (check_format _);
    [apply pure_ret; reflexivity|apply pure_raise].
Qed.

(** An export that returns a matrix. *)
Lemma export_ret_spec h dp ot copy w t f m w' :
  MKL_INT w = Some t ->
  output_format ot = Some f ->
  _export_mkl mkl check_format h dp ot copy w = (Ret m, w') ->
  let r := mkl (trace w) (Export (export_fn dp f) t h) in
  w' = log_call (Export (export_fn dp f) t h) w
  /\ status r = 0 /\ out_ordering r = 0
  /\ shape m = (c_value t (out_nrows r), c_value t (out_ncols r))
  /\ dtype_m m = precision_dtype dp /\ format m = f.
Proof.
  intros Ht Hf H r.
  rewrite (export_mkl_run h dp ot copy w t f Ht Hf) in H. fold r in H.
  apply bind_ret_inv in H as ([] & w1 & H1 & H).
  destruct (check_return_cases (fn_name (export_fn dp f)) (status r)
              (log_call (Export (export_fn dp f) t h) w))
    as [[Hs E]|[_ [e E]]]; rewrite E in H1; [|discriminate H1].
  inversion H1; subst w1; clear H1.
  pose proof (pure_export_outputs _ _ _ _ _ _ _ H) as [-> P1].
  pose proof (pure_export_outputs_format _ _ _ _ _ _ _ H) as [_ P2].
  destruct (P1 m eq_refl) as [D S].
  split; [reflexivity|]. split; [exact Hs|]. split.
  - unfold export_outputs in H.
    destruct (out_ordering r =? 0) eqn:Eo; [apply Z.eqb_eq; exact Eo|].
    discriminate H.
  - split; [exact S|]. split; [exact D|]. apply P2. reflexivity.
Qed.

Lemma export_ret_width h dp ot copy w m w' :
  _export_mkl mkl check_format h dp ot copy w = (Ret m, w') ->
  exists t, MKL_INT w = Some t.
Proof.
  intros H. apply export_spec in H as [[(_ & e & E)|(fn & t & Ht & _)] _].
  - discriminate E.
  - exists t. exact Ht.
Qed.

Lemma precision_dtype_flag dp :
  dtype_eqb (precision_dtype dp) float64 = dp.
Proof. destruct dp; reflexivity. Qed.

(** The last steps of a run that returns a matrix. *)
Lemma dot_success ra rb cast copy reorder_output debug w m w' :
  dot_product_mkl mkl convert check_format ra rb cast copy reorder_output
    debug w = (Ret m, w') ->
  (edge_condition (heap w ra) (heap w rb) = true /\ w' = w
   /\ m = empty_of csr (fst (shape (heap w ra)), fst (shape (heap w rb)))
            (result_dtype (heap w ra) (heap w rb)))
  \/ (edge_condition (heap w ra) (heap w rb) = false
      /\ exists w5 hc dp w6,
           _export_mkl mkl check_format hc dp "csr" copy w5 = (Ret m, w6)
           /\ (debug = true -> matrix_stats m w6 = (Ret tt, w6))
           /\ trace w' = trace w6 ++ destroy_calls copy hc
           /\ MKL_INT w' = MKL_INT w6).
Proof.
  intros H. unfold dot_product_mkl in H.
  apply bind_ret_inv in H as (a & w1 & H1 & H).
  unfold deref in H1. inversion H1; subst a w1; clear H1.
  apply bind_ret_inv in H as (b & w1 & H1 & H).
  unfold deref in H1. inversion H1; subst b w1; clear H1.
  destruct (negb (is_csr (heap w ra)) || negb (is_csr (heap w rb)))%bool;
    [discriminate H|].
  destruct (negb (snd (shape (heap w ra)) =? fst (shape (heap w rb))));
    [discriminate H|].
  destruct (edge_condition (heap w ra) (heap w rb)) eqn:Hedge.
  { left. split; [reflexivity|].
    rewrite edge_result_dtype in H. unfold sp_matrix_from_shape in H.
    destruct (_ || _)%bool; [discriminate H|].
    unfold ret in H. inversion H; subst. split; reflexivity. }
  right. split; [reflexivity|].
  apply bind_ret_inv in H as ([] & w1 & _ & H).
  apply bind_ret_inv in H as ([] & w2 & _ & H).
  apply bind_ret_inv in H as ([ha a_dbl] & w3 & _ & H).
  apply bind_ret_inv in H as ([hb b_dbl] & w4 & _ & H).
  cbn [fst snd] in H.
  apply bind_ret_inv in H as ([] & w5 & _ & H).
  apply bind_ret_inv in H as ([] & w6 & _ & H).
  apply bind_ret_inv in H as ([] & w7 & _ & H).
  apply bind_ret_inv in H as (hc & w8 & _ & H).
  apply bind_ret_inv in H as ([] & w9 & _ & H).
  apply bind_ret_inv in H as (python_c & w10 & Hexp & H).
  apply bind_ret_inv in H as ([] & w11 & Hst & H).
  apply bind_ret_inv in H as ([] & w12 & Hd & H).
  unfold ret in H. inversion H; subst python_c w12; clear H.
  assert (w11 = w10 /\ (debug = true -> matrix_stats m w10 = (Ret tt, w10)))
    as [-> Hstats].
  { destruct debug.
    - pose proof (pure_matrix_stats _ _ _ _ Hst) as [-> _].
      split; [reflexivity|]. intros _. exact Hst.
    - unfold ret in Hst. inversion Hst. split; [reflexivity|].
      intros ?; discriminate. }
  exists w9, hc, (a_dbl || b_dbl)%bool, w10.
  split; [exact Hexp|]. split; [exact Hstats|].
  unfold destroy_calls. destruct copy.
  - apply destroy_spec in Hd as [-> _]. split; reflexivity.
  - unfold ret in Hd. inversion Hd; subst.
    split; [rewrite app_nil_r|]; reflexivity.
Qed.

(** X12.  The matrix [dot_product_mkl] returns is in CSR format, on the
    edge-condition path and on the vendor path alike. *)
Theorem dot_product_mkl_returns_csr
    ra rb cast copy reorder_output debug w m w' :
  dot_product_mkl mkl convert check_format ra rb cast copy reorder_output
    debug w = (Ret m, w') ->
  format m = csr.
Proof.
  intros H.
  apply dot_success in H
    as [(_ & _ & ->)|(_ & w5 & hc & dp & w6 & Hexp & _)]; [reflexivity|].
  destruct (export_ret_width _ _ _ _ _ _ _ Hexp) as [t Ht].
  apply (export_ret_spec hc dp "csr" copy w5 t csr m w6 Ht eq_refl Hexp).
Qed.

(** X13.  On the vendor path, the matrix [dot_product_mkl] returns is read
    from the last export call of the run, made through the CSR export
    entry point of the result's precision and followed only by the destroy
    call of [copy]: that call returned status zero and 0-based ordering,
    and the shape of the result is the shape it reported, whatever the
    shapes of the operands. *)
Theorem dot_product_mkl_result_from_export
    ra rb cast copy reorder_output debug w m w' :
  dot_product_mkl mkl convert check_format ra rb cast copy reorder_output
    debug w = (Ret m, w') ->
  edge_condition (heap w ra) (heap w rb) = false ->
  exists pre t hc,
    MKL_INT w = Some t
    /\ let c := Export (export_fn (dtype_eqb (dtype_m m) float64) csr) t hc in
       let r := mkl pre c in
       trace w' = pre ++ c :: destroy_calls copy hc
       /\ status r = 0 /\ out_ordering r = 0
       /\ shape m = (c_value t (out_nrows r), c_value t (out_ncols r)).
Proof.
  intros H Hedge.
  pose proof (dot_run _ _ _ _ _ _ _ _ _ H) as ((Cw & _) & _).
  apply dot_success in H
    as [(E & _)|(_ & w5 & hc & dp & w6 & Hexp & _ & T & W)]; [congruence|].
  destruct (export_ret_width _ _ _ _ _ _ _ Hexp) as [t Ht].
  destruct (export_ret_spec hc dp "csr" copy w5 t csr m w6 Ht eq_refl Hexp)
    as (-> & Hs & Ho & Hsh & Hdt & _).
  exists (trace w5), t, hc.
  split; [rewrite <- Cw, W; exact Ht|].
  cbv zeta. rewrite Hdt, precision_dtype_flag.
  split; [|repeat split; assumption].
  rewrite T. cbn [trace log_call]. rewrite <- app_assoc. reflexivity.
Qed.

(** X14.  With [debug], the vendor path of [dot_product_mkl] never returns a
    matrix without stored values: the report on the result takes the
    minimum of its value array and divides by its size, so such a result
    makes the call raise instead. *)
Theorem dot_product_mkl_debug_needs_entries
    ra rb cast copy reorder_output w m w' :
  dot_product_mkl mkl convert check_format ra rb cast copy reorder_output
    true w = (Ret m, w') ->
  edge_condition (heap w ra) (heap w rb) = false ->
  items (data m) <> [] /\ fst (shape m) * snd (shape m) <> 0.
Proof.
  intros H Hedge.
  apply dot_success in H
    as [(E & _)|(_ & w5 & hc & dp & w6 & _ & Hst & _)]; [congruence|].
  specialize (Hst eq_refl). unfold matrix_stats in Hst.
  apply bind_ret_inv in Hst as ([] & w7 & H1 & H2).
  split.
  - intros E. unfold shape0 in H1. rewrite E in H1. discriminate H1.
  - intros E. rewrite E in H2. discriminate H2.
Qed.

(** ** The exceptions a run can raise *)

Lemma pure_export_outputs_stats t f dt r :
  pure_with (fun m => items (data m) = []
                      \/ fst (shape m) * snd (shape m) <> 0)
            (export_outputs check_format t f dt r).
Proof.
  assert (forall sh,
             pure_with (fun m => items (data m) = []
                                 \/ fst (shape m) * snd (shape m) <> 0)
               (sp_matrix_from_shape f sh dt)) as Hs.
  { intros sh. unfold sp_matrix_from_shape.
    destruct (_ || _)%bool;
      [apply pure_raise|apply pure_ret; left; reflexivity]. }
  unfold export_outputs.
  destruct (negb _); [apply pure_raise|].
  destruct ((_ =? 0) || (_ =? 0))%bool eqn:Ez; [apply Hs|].
  apply orb_false_iff in Ez as [Er Ec]. apply Z.eqb_neq in Er, Ec.
  eapply pure_bind; [apply pure_as_array|intros indptrb _].
  eapply pure_bind; [apply pure_as_array|intros indptren _].
  eapply pure_bind; [apply pure_item0|intros first _].
  eapply pure_bind; [apply pure_item_last|intros last_ _].
  destruct (_ =? 0); [apply Hs|].
  destruct (_ || _)%bool; [apply pure_raise|].
  eapply pure_bind; [apply pure_as_array|intros data_ _].
  eapply pure_bind; [apply pure_as_array|intros indices_ _].
  unfold sp_matrix_from_arrays. destruct (check_format _);
    [apply pure_ret|apply pure_raise].
  right. cbn [shape fst snd]. nia.
Qed.

Lemma export_ret_stats h dp ot copy w m w' :
  _export_mkl mkl check_format h dp ot copy w = (Ret m, w') ->
  items (data m) = [] \/ fst (shape m) * snd (shape m) <> 0.
Proof.
  intros H. unfold _export_mkl in H.
  apply bind_ret_inv in H as (t & w1 & _ & H).
  apply bind_ret_inv in H as (choice & w2 & _ & H).
  apply bind_ret_inv in H as (r & w3 & _ & H).
  apply bind_ret_inv in H as ([] & w4 & _ & H).
  apply pure_export_outputs_stats in H as [_ H]. apply H. reflexivity.
Qed.

Lemma to_float64_shape m : shape (to_float64 convert m) = shape m.
Proof. unfold to_float64. destruct (dtype_eqb _ _); reflexivity. Qed.

Lemma to_float64_len m :
  shape0 (data (to_float64 convert m)) = shape0 (data m).
Proof.
  unfold to_float64. destruct (dtype_eqb _ _); [reflexivity|].
  apply shape0_astype.
Qed.

Lemma casted_facts ra rb cast w r :
  shape (heap (casted ra rb cast w) r) = shape (heap w r)
  /\ shape0 (data (heap (casted ra rb cast w) r)) = shape0 (data (heap w r)).
Proof.
  unfold casted. destruct (_ && _)%bool; [|split; reflexivity].
  unfold store; cbn [heap].
  repeat match goal with
    | |- context [Nat.eqb ?a ?b] => destruct (Nat.eqb_spec a b); subst
    end;
    rewrite ?to_float64_shape, ?to_float64_len; split; reflexivity.
Qed.

Lemma casted_width ra rb cast w :
  MKL_INT (casted ra rb cast w) = MKL_INT w
  /\ MKL_INT_NUMPY (casted ra rb cast w) = MKL_INT_NUMPY w.
Proof. unfold casted. destruct (_ && _)%bool; split; reflexivity. Qed.

Section Raises.

Variable P : exn -> Prop.
Hypothesis P_value : forall msg, P (ValueError msg).
Hypothesis P_assert : P AssertionError.
Hypothesis P_status :
  forall fn history c w e w',
    check_return fn (status (mkl history c)) w = (Raise e, w') -> P e.

Lemma raises_bind {A B} (m : M A) (k : A -> M B) w :
  raises_only P m w ->
  (forall a w1, m w = (Ret a, w1) -> raises_only P (k a) w1) ->
  raises_only P (bind m k) w.
Proof.
  intros Hm Hk e w' H.
  apply bind_inv in H as [(e' & H1 & E)|(a & w1 & H1 & H)].
  - inversion E; subst. eapply Hm. exact H1.
  - eapply Hk; eassumption.
Qed.

Lemma raises_ret {A} (a : A) w : raises_only P (ret a) w.
Proof. intros e w' H. discriminate H. Qed.

Lemma raises_deref r w : raises_only P (deref r) w.
Proof. intros e w' H. discriminate H. Qed.

Lemma raises_update r f w : raises_only P (update r f) w.
Proof. intros e w' H. discriminate H. Qed.

Lemma raises_value {A} msg w : raises_only P (raise (A:=A) (ValueError msg)) w.
Proof. intros e w' H. inversion H; subst. apply P_value. Qed.

Lemma raises_assert b w : raises_only P (assert b) w.
Proof.
  intros e w' H. unfold assert, ret, raise in H.
  destruct b; inversion H; subst. apply P_assert.
Qed.

Lemma raises_call c w : raises_only P (call_mkl mkl c) w.
Proof. intros e w' H. discriminate H. Qed.

Lemma raises_order h w : raises_only P (_order_mkl_handle mkl h) w.
Proof.
  unfold _order_mkl_handle. apply raises_bind; [apply raises_call|].
  intros r w1 H. unfold call_mkl in H. inversion H; subst.
  intros e w' E. eapply P_status. exact E.
Qed.

Lemma raises_destroy h w : raises_only P (_destroy_mkl_handle mkl h) w.
Proof.
  unfold _destroy_mkl_handle. apply raises_bind; [apply raises_call|].
  intros r w1 H. unfold call_mkl in H. inversion H; subst.
  intros e w' E. eapply P_status. exact E.
Qed.

Lemma raises_matmul ra rb a b w :
  raises_only P (_matmul_mkl mkl ra rb a b) w.
Proof.
  unfold _matmul_mkl. apply raises_bind; [apply raises_call|].
  intros r w1 H. unfold call_mkl in H. inversion H; subst.
  apply raises_bind; [intros e w' E; eapply P_status; exact E|].
  intros _ w2 _. apply raises_bind; [apply raises_deref|].
  intros ma w3 _. apply raises_bind; [apply raises_assert|].
  intros _ w4 _. apply raises_bind; [apply raises_deref|].
  intros mb w5 _. apply raises_bind; [apply raises_assert|].
  intros _ w6 _. apply raises_ret.
Qed.

Lemma raises_convert h w : raises_only P (_convert_to_csr mkl h) w.
Proof.
  unfold _convert_to_csr. apply raises_bind; [apply raises_call|].
  intros r w1 _. destruct (negb _); [|apply raises_ret].
  apply raises_bind; [apply raises_destroy|].
  intros _ w2 _. apply raises_value.
Qed.

Lemma raises_get_int w :
  MKL_INT w <> None -> raises_only P get_MKL_INT w.
Proof.
  intros Hw e w' H. unfold get_MKL_INT in H.
  destruct (MKL_INT w); [discriminate H|contradiction].
Qed.

Lemma raises_get_numpy w :
  MKL_INT_NUMPY w <> None -> raises_only P get_MKL_INT_NUMPY w.
Proof.
  intros Hw e w' H. unfold get_MKL_INT_NUMPY in H.
  destruct (MKL_INT_NUMPY w); [discriminate H|contradiction].
Qed.

Lemma raises_typing r w :
  MKL_INT_NUMPY w <> None ->
  raises_only P (_check_scipy_index_typing convert r) w.
Proof.
  intros Hw e w' H.
  apply check_typing_spec in H as (_ & _ & _ & [[_ N]|(np & E & _)]);
    [contradiction|discriminate E].
Qed.

Lemma raises_pass_handle r fn w :
  MKL_INT w <> None -> raises_only P (_pass_mkl_handle mkl r fn) w.
Proof.
  intros Hw. unfold _pass_mkl_handle.
  apply raises_bind; [apply raises_get_int; exact Hw|].
  intros t w1 _. apply raises_bind; [apply raises_deref|].
  intros m w2 _. apply raises_bind; [apply raises_call|].
  intros rp w3 H. unfold call_mkl in H. inversion H; subst.
  apply raises_bind; [intros e w' E; eapply P_status; exact E|].
  intros _ w4 _. apply raises_ret.
Qed.

Lemma raises_create r cast w :
  width_set w -> raises_only P (_create_mkl_sparse mkl convert r cast) w.
Proof.
  intros [Hi Hn]. unfold _create_mkl_sparse.
  apply raises_bind; [apply raises_deref|].
  intros m w1 H. unfold deref in H. inversion H; subst m w1; clear H.
  apply raises_bind.
  { destruct (dtype_eqb _ float32); [apply raises_ret|].
    destruct (dtype_eqb _ float64); [apply raises_ret|].
    destruct cast; [|apply raises_value].
    apply raises_bind; [apply raises_update|].
    intros _ w1 _. apply raises_ret. }
  intros dp w1 H.
  assert (config_eq w w1) as (C1 & C2 & _).
  { unfold update, bind, ret, raise in H.
    run_in H; inversion H; subst; repeat split. }
  clear H.
  apply raises_bind; [apply raises_typing; congruence|].
  intros ? w2 H. apply check_typing_spec in H as ((C3 & _) & _).
  apply raises_bind; [apply raises_deref|].
  intros m w3 H. unfold deref in H. inversion H; subst m w3; clear H.
  apply raises_bind; [apply raises_assert|].
  intros ? w3 H. apply assert_world in H as ->.
  assert (MKL_INT w2 <> None) as Hi2 by congruence.
  destruct (is_csr _).
  - apply raises_bind; [apply raises_assert|].
    intros ? w3 H. apply assert_world in H as ->.
    apply raises_bind; [apply raises_pass_handle; exact Hi2|].
    intros h w3 _. apply raises_ret.
  - destruct (isspmatrix_csc _); [|apply raises_value].
    apply raises_bind; [apply raises_assert|].
    intros ? w3 H. apply assert_world in H as ->.
    apply raises_bind; [apply raises_pass_handle; exact Hi2|].
    intros h w3 _. apply raises_ret.
Qed.

Lemma raises_from_shape f sh dt w :
  raises_only P (sp_matrix_from_shape f sh dt) w.
Proof.
  unfold sp_matrix_from_shape. destruct (_ || _)%bool;
    [apply raises_value|apply raises_ret].
Qed.

Lemma raises_as_array p n w : raises_only P (as_array p n) w.
Proof.
  unfold as_array. destruct (n <? 0); [apply raises_value|apply raises_ret].
Qed.

Lemma as_array_nonempty (p : nat -> Z) n w l w1 :
  n <> 0 -> as_array p n w = (Ret l, w1) -> l <> [].
Proof.
  intros Hn H. unfold as_array in H.
  destruct (Z.ltb_spec n 0) as [?|Hp]; [discriminate H|].
  unfold ret in H. inversion H; subst.
  destruct (Z.to_nat n) as [|k] eqn:E; [lia|]. discriminate.
Qed.

Lemma raises_export_outputs t f dt r w :
  raises_only P (export_outputs check_format t f dt r) w.
Proof.
  unfold export_outputs.
  destruct (negb _); [apply raises_value|].
  destruct ((_ =? 0) || (_ =? 0))%bool eqn:Ez; [apply raises_from_shape|].
  apply orb_false_iff in Ez as [Er Ec]. apply Z.eqb_neq in Er, Ec.
  assert (match f with
          | csr => c_value t (out_nrows r)
          | _ => c_value t (out_ncols r)
          end <> 0) as Hi by (destruct f; assumption).
  apply raises_bind; [apply raises_as_array|].
  intros indptrb w1 H1. apply (as_array_nonempty _ _ _ _ _ Hi) in H1.
  apply raises_bind; [apply raises_as_array|].
  intros indptren w2 _.
  apply raises_bind.
  { destruct indptrb; [contradiction|apply raises_ret]. }
  intros first w3 _. apply raises_bind; [apply raises_ret|].
  intros last_ w4 _.
  destruct (_ =? 0); [apply raises_from_shape|].
  destruct (_ || _)%bool; [apply raises_value|].
  apply raises_bind; [apply raises_as_array|].
  intros data_ w5 _. apply raises_bind; [apply raises_as_array|].
  intros indices_ w6 _. unfold sp_matrix_from_arrays.
  destruct (check_format _); [apply raises_ret|apply raises_value].
Qed.

Lemma raises_export h dp ot copy w :
  MKL_INT w <> None ->
  raises_only P (_export_mkl mkl check_format h dp ot copy) w.
Proof.
  intros Hw. unfold _export_mkl.
  apply raises_bind; [apply raises_get_int; exact Hw|].
  intros t w1 _. apply raises_bind.
  { unfold export_choice. destruct (String.eqb _ _); [apply raises_ret|].
    destruct (String.eqb _ _); [apply raises_ret|apply raises_value]. }
  intros choice w2 _. apply raises_bind; [apply raises_call|].
  intros rp w3 H. unfold call_mkl in H. inversion H; subst.
  apply raises_bind; [intros e w' E; eapply P_status; exact E|].
  intros _ w4 _. apply raises_export_outputs.
Qed.

Lemma raises_matrix_stats m w :
  items (data m) = [] \/ fst (shape m) * snd (shape m) <> 0 ->
  raises_only P (matrix_stats m) w.
Proof.
  intros Hm. unfold matrix_stats.
  destruct (Z.eqb_spec (shape0 (data m)) 0) as [E|E].
  - intros e w' H. unfold bind, raise in H. inversion H; subst.
    apply P_value.
  - apply raises_bind; [apply raises_ret|]. intros _ w1 _.
    destruct Hm as [Hm|Hm].
    + unfold shape0 in E. rewrite Hm in E. contradiction.
    + apply Z.eqb_neq in Hm. rewrite Hm. apply raises_ret.
Qed.

Lemma raises_dot ra rb cast copy reorder_output debug w :
  width_set w ->
  valid_shape (heap w ra) -> valid_shape (heap w rb) ->
  raises_only P
    (dot_product_mkl mkl convert check_format ra rb cast copy reorder_output
       debug) w.
Proof.
  intros [Wi Wn] Va Vb. unfold dot_product_mkl.
  apply raises_bind; [apply raises_deref|].
  intros ma w1 H. unfold deref in H. inversion H; subst ma w1; clear H.
  apply raises_bind; [apply raises_deref|].
  intros mb w1 H. unfold deref in H. inversion H; subst mb w1; clear H.
  destruct (negb (is_csr (heap w ra)) || negb (is_csr (heap w rb)))%bool;
    [apply raises_value|].
  destruct (negb (snd (shape (heap w ra)) =? fst (shape (heap w rb))));
    [apply raises_value|].
  destruct (edge_condition (heap w ra) (heap w rb)) eqn:Hedge;
    [apply raises_from_shape|].
  destruct (edge_condition_false _ _ Va Vb Hedge)
    as (A1 & A2 & B1 & B2 & Da & Db & _ & _).
  apply raises_bind.
  { destruct (_ && _)%bool.
    - apply raises_bind; [apply raises_update|].
      intros ? w1 _. apply raises_update.
    - destruct (negb _); [apply raises_value|apply raises_ret]. }
  intros ? w1 H. eapply dtype_check_spec in H; [|reflexivity|reflexivity].
  destruct H as [(_ & -> & _)|(_ & _ & _ & E)]; [|discriminate E].
  destruct (casted_width ra rb cast w) as [Ci Cn].
  destruct (casted_facts ra rb cast w ra) as [Sa La].
  destruct (casted_facts ra rb cast w rb) as [Sb Lb].
  remember (casted ra rb cast w) as wc eqn:Ewc.
  assert (MKL_INT wc <> None) as Wi' by congruence.
  assert (MKL_INT_NUMPY wc <> None) as Wn' by congruence.
  assert (forall o w1,
             (if debug then
                a <- deref ra ;; matrix_stats a ;;;
                b <- deref rb ;; matrix_stats b
              else ret tt) wc = (o, w1) -> w1 = wc) as Hpure.
  { intros o w1 H. destruct debug; [|unfold ret in H; congruence].
    eapply (pure_bind (fun _ => True) (fun _ => True)) in H as [-> _];
      [reflexivity|apply pure_deref_like|].
    intros ? _. eapply pure_bind; [apply pure_matrix_stats|].
    intros _ _. eapply pure_bind; [apply pure_deref_like|].
    intros ? _. apply pure_matrix_stats. }
  apply raises_bind.
  { destruct debug; [|apply raises_ret].
    apply raises_bind; [apply raises_deref|].
    intros ma w1 H. unfold deref in H. inversion H; subst ma w1; clear H.
    apply raises_bind; [apply raises_matrix_stats; right; rewrite Sa; nia|].
    intros ? w1 H. apply pure_matrix_stats in H as [-> _].
    apply raises_bind; [apply raises_deref|].
    intros mb w1 H. unfold deref in H. inversion H; subst mb w1; clear H.
    apply raises_matrix_stats. right. rewrite Sb. nia. }
  intros ? w1 H. apply Hpure in H as ->. clear Hpure.
  apply raises_bind; [apply raises_create; split; assumption|].
  intros [ha a_dbl] w2 H. apply create_spec in H as ((C2i & C2n & _) & _).
  apply raises_bind; [apply raises_create; split; congruence|].
  intros [hb b_dbl] w3 H. apply create_spec in H as ((C3i & C3n & _) & _).
  cbn [fst snd].
  assert (MKL_INT w3 <> None) as W3 by congruence.
  apply raises_bind; [apply raises_order|].
  intros ? w4 H. apply order_spec in H as [-> _].
  apply raises_bind; [apply raises_order|].
  intros ? w5 H. apply order_spec in H as [-> _].
  apply raises_bind.
  { destruct debug; [|apply raises_ret].
    apply raises_bind; [apply raises_deref|].
    intros ma w6 H. unfold deref in H. inversion H; subst ma w6; clear H.
    apply raises_bind; [apply raises_export; exact W3|].
    intros dbg_a w6 H.
    apply export_spec in H as [[(_ & e & E)|(fa & ta & _ & ->)] _];
      [discriminate E|].
    apply raises_bind; [apply raises_deref|].
    intros mb w7 H. unfold deref in H. inversion H; subst mb w7; clear H.
    apply raises_bind; [apply raises_export; exact W3|].
    intros dbg_b w8 _. apply raises_bind; [apply raises_deref|].
    intros xa w9 _. apply raises_bind; [apply raises_assert|].
    intros ? w10 _. apply raises_bind; [apply raises_deref|].
    intros xb w11 _. apply raises_assert. }
  intros ? w6 H.
  assert (MKL_INT w6 <> None) as W6.
  { destruct debug.
    - apply debug_exports_spec in H as (new & _ & (C & _) & _).
      rewrite C. exact W3.
    - unfold ret in H. inversion H; subst. exact W3. }
  clear H.
  apply raises_bind; [apply raises_matmul|].
  intros hc w7 H. apply matmul_spec in H as [-> _].
  apply raises_bind;
    [destruct reorder_output; [apply raises_order|apply raises_ret]|].
  intros ? w8 H.
  assert (MKL_INT w8 <> None) as W8.
  { destruct reorder_output.
    - apply order_spec in H as [-> _]. exact W6.
    - unfold ret in H. inversion H; subst. exact W6. }
  clear H.
  apply raises_bind; [apply raises_export; exact W8|].
  intros python_c w9 H. apply export_ret_stats in H.
  apply raises_bind;
    [destruct debug; [apply raises_matrix_stats; exact H|apply raises_ret]|].
  intros ? w10 _.
  apply raises_bind;
    [destruct copy; [apply raises_destroy|apply raises_ret]|].
  intros ? w11 _. apply raises_ret.
Qed.

Lemma raises_validate w :
  width_set w ->
  raises_only P
    (_validate_dtype mkl convert check_format test_array array_almost_equal)
    w.
Proof.
  intros [Wi Wn]. unfold _validate_dtype.
  apply raises_bind; [intros e w' H; discriminate H|].
  intros r w1 H. unfold new_matrix in H. injection H as _ Ew.
  assert (MKL_INT w1 <> None /\ MKL_INT_NUMPY w1 <> None) as [Wi1 Wn1]
      by (subst w1; split; assumption).
  clear Ew.
  apply raises_bind; [apply raises_create; split; assumption|].
  intros [csc_ref flag] w2 H. apply create_spec in H as ((C2 & _) & _).
  cbn [fst snd].
  apply raises_bind; [apply raises_convert|].
  intros csr_ref w3 H.
  assert (MKL_INT w3 <> None) as Wi3.
  { apply convert_spec in H as [(_ & _ & ->)|(_ & [e E] & _)];
      [|discriminate E].
    cbn [MKL_INT log_call]. congruence. }
  clear H.
  apply raises_bind; [apply raises_export; exact Wi3|].
  intros final_array w4 _. apply raises_assert.
Qed.

End Raises.

Lemma check_return_raises fn s w e w' :
  check_return fn s w = (Raise e, w') ->
  (exists msg, e = ValueError msg) \/ exists k, e = KeyError k.
Proof.
  unfold check_return. destruct (s =? 0); [intros H; discriminate H|].
  destruct (lookup s RETURN_CODES); intros H; inversion H; subst; eauto.
Qed.

Lemma check_return_known fn s w e w' :
  0 <= s <= 6 ->
  check_return fn s w = (Raise e, w') -> exists msg, e = ValueError msg.
Proof.
  intros Hs H.
  assert (s = 0 \/ s = 1 \/ s = 2 \/ s = 3 \/ s = 4 \/ s = 5 \/ s = 6)
    as Hc by lia.
  clear Hs.
  destruct Hc as [->|[->|[->|[->|[->|[->| ->]]]]]];
    vm_compute in H; inversion H; subst; eexists; reflexivity.
Qed.

(** X15.  Once the width is set, a [dot_product_mkl] call on matrices with
    non-negative dimensions raises nothing but [ValueError], [AssertionError]
    and [KeyError]; when every status the vendor returns is one of 0..6, it
    raises nothing but [ValueError] and [AssertionError]. *)
Theorem dot_product_mkl_exceptions
    ra rb cast copy reorder_output debug w e w' :
  width_set w ->
  valid_shape (heap w ra) -> valid_shape (heap w rb) ->
  dot_product_mkl mkl convert check_format ra rb cast copy reorder_output
    debug w = (Raise e, w') ->
  ((exists msg, e = ValueError msg) \/ e = AssertionError
   \/ exists k, e = KeyError k)
  /\ (known_statuses ->
      (exists msg, e = ValueError msg) \/ e = AssertionError).
Proof.
  intros Hw Va Vb H. split.
  - refine (raises_dot
              (fun e => (exists msg, e = ValueError msg) \/ e = AssertionError
                        \/ exists k, e = KeyError k)
              _ _ _ ra rb cast copy reorder_output debug w Hw Va Vb e w' H).
    + intros msg. left. eexists; reflexivity.
    + right; left. reflexivity.
    + intros fn history c w0 e0 w0' E.
      apply check_return_raises in E as [E|E]; auto.
  - intros Hk.
    refine (raises_dot
              (fun e => (exists msg, e = ValueError msg)
                        \/ e = AssertionError)
              _ _ _ ra rb cast copy reorder_output debug w Hw Va Vb e w' H).
    + intros msg. left. eexists; reflexivity.
    + right. reflexivity.
    + intros fn history c w0 e0 w0' E.
      left. eapply check_return_known; [apply Hk|exact E].
Qed.

(** X16.  The module-level discovery ends in one of three ways: it returns,
    it raises the [ImportError] of the failed second round trip, or it lets
    through a [KeyError]; when every status the vendor returns is one of
    0..6, it returns or raises that [ImportError]. *)
Theorem module_init_outcomes w o w' :
  module_init mkl convert check_format test_array array_almost_equal w
  = (o, w') ->
  (o = Ret tt
   \/ o = Raise (ImportError "Unable to set MKL numeric types")
   \/ exists k, o = Raise (KeyError k))
  /\ (known_statuses ->
      o = Ret tt
      \/ o = Raise (ImportError "Unable to set MKL numeric types")).
Proof.
  intros H.
  destruct (MKL_INT w) as [t|] eqn:Hw.
  { unfold module_init in H. rewrite Hw in H. inversion H; subst.
    split; [left; reflexivity|intros _; left; reflexivity]. }
  rewrite (module_init_unfold w Hw) in H. cbv zeta in H.
  assert (forall c_type np_type w0,
             width_set (with_width c_type np_type w0)) as Hset.
  { intros c_type np_type w0. split; discriminate. }
  assert (forall e, (exists k, e = KeyError k) -> caught e = false) as Hkey.
  { intros e [k ->]. reflexivity. }
  pose (P1 := fun e : exn =>
                caught e = true \/ exists k, e = KeyError k).
  pose (P2 := fun e : exn => caught e = true).
  assert (forall w0 e w1,
             width_set w0 ->
             _validate_dtype mkl convert check_format test_array
               array_almost_equal w0 = (Raise e, w1) ->
             P1 e /\ (known_statuses -> P2 e)) as Hv.
  { intros w0 e w1 Hw0 E. split.
    - refine (raises_validate P1 _ _ _ w0 Hw0 e w1 E).
      + intros msg. left. reflexivity.
      + left. reflexivity.
      + intros fn history c w2 e2 w2' E2.
        apply check_return_raises in E2 as [[msg ->]|E2];
          [left; reflexivity|right; exact E2].
    - intros Hk. refine (raises_validate P2 _ _ _ w0 Hw0 e w1 E).
      + intros msg. reflexivity.
      + reflexivity.
      + intros fn history c w2 e2 w2' E2.
        eapply check_return_known in E2 as [msg ->]; [reflexivity|apply Hk]. }
  destruct (_validate_dtype mkl convert check_format test_array
              array_almost_equal (with_width c_longlong int64 w))
    as [[[]|e] w2] eqn:E1.
  { inversion H; subst.
    split; [left; reflexivity|intros _; left; reflexivity]. }
  destruct (Hv _ _ _ (Hset _ _ _) E1) as [He1 He1'].
  destruct (caught e) eqn:Ce.
  - destruct (_validate_dtype mkl convert check_format test_array
                array_almost_equal (with_width c_int int32 w2))
      as [[[]|e'] w4] eqn:E2.
    { inversion H; subst.
      split; [left; reflexivity|intros _; left; reflexivity]. }
    destruct (Hv _ _ _ (Hset _ _ _) E2) as [He2 He2'].
    destruct (caught e') eqn:Ce'; inversion H; subst.
    + split; [right; left; reflexivity|intros _; right; reflexivity].
    + split.
      * destruct He2 as [He2|[k ->]]; [congruence|].
        right; right. eexists; reflexivity.
      * intros Hk. specialize (He2' Hk). unfold P2 in He2'. congruence.
  - inversion H; subst. split.
    + destruct He1 as [He1|[k ->]]; [congruence|].
      right; right. eexists; reflexivity.
    + intros Hk. specialize (He1' Hk). unfold P2 in He1'. congruence.
Qed.

(** X17.  A round trip of [_validate_dtype] that returns has worked on a
    fresh copy of the test matrix and made exactly three vendor calls: the
    create call on that matrix with its index arrays in the MKL integer
    dtype, the conversion of the handle it returned, and the CSR export of
    the converted handle.  Neither handle is destroyed, and no object that
    existed before is changed. *)
Theorem validate_dtype_round_trip w w' :
  _validate_dtype mkl convert check_format test_array array_almost_equal w
  = (Ret tt, w') ->
  exists t np,
    MKL_INT w = Some t /\ MKL_INT_NUMPY w = Some np
    /\ let m := created false np test_array in
       let dp := dtype_eqb (dtype_m m) float64 in
       let c := create_call (create_fn (format m) dp) t m in
       let h1 := out_handle (mkl (trace w) c) in
       let h2 := out_handle (mkl (trace w ++ [c]) (ConvertCsr h1)) in
       trace w' = trace w ++ [c; ConvertCsr h1; Export (export_fn dp csr) t h2]
       /\ heap w' (next_ref w) = m
       /\ next_ref w' = S (next_ref w)
       /\ (forall r, r <> next_ref w -> heap w' r = heap w r).
Proof.
  intros H. unfold _validate_dtype in H.
  apply bind_ret_inv in H as (r & w1 & H1 & H).
  unfold new_matrix in H1. injection H1 as Er Ew. subst r.
  assert (heap w1 (next_ref w) = test_array
          /\ (forall r, r <> next_ref w -> heap w1 r = heap w r)
          /\ trace w1 = trace w /\ next_ref w1 = S (next_ref w)
          /\ MKL_INT w1 = MKL_INT w /\ MKL_INT_NUMPY w1 = MKL_INT_NUMPY w)
    as (V1 & F1 & T1 & R1 & I1 & N1).
  { subst w1. cbn. rewrite Nat.eqb_refl. repeat split.
    intros r Hr. apply Nat.eqb_neq in Hr. rewrite Hr. reflexivity. }
  clear Ew.
  apply bind_ret_inv in H as ([csc_ref flag] & w2 & H2 & H).
  cbn [fst snd] in H.
  pose proof (create_spec _ _ _ _ _ H2) as ((C2i & _ & R2 & _) & F2 & _).
  apply create_steps in H2
    as [(_ & e & E)|(t & np & Ht & N & V2 & T2 & _ & _ & _ & _ & O1 & O2)];
    [discriminate E|].
  cbv zeta in T2, O1, O2. rewrite V2, V1, T1 in T2, O1, O2.
  set (m := created false np test_array) in *.
  set (c := create_call (create_fn (format m)
                           (dtype_eqb (dtype_m m) float64)) t m) in *.
  destruct (Z.eq_dec (status (mkl (trace w) c)) 0) as [S0|S0];
    [|apply O2 in S0 as [e E]; discriminate E].
  apply O1 in S0. inversion S0; subst csc_ref flag; clear S0 O1 O2.
  apply bind_ret_inv in H as (csr_ref & w3 & H3 & H).
  apply convert_spec in H3 as [(_ & E3 & ->)|(_ & [e E] & _)];
    [|discriminate E].
  inversion E3; subst csr_ref; clear E3. rewrite T2 in H.
  apply bind_ret_inv in H as (final_array & w4 & H4 & H).
  apply (export_ret_spec _ _ "csr" false _ t csr) in H4
    as (-> & _); [|cbn [MKL_INT log_call]; congruence|reflexivity].
  apply assert_ret in H as [_ ->].
  exists t, np. split; [congruence|]. split; [congruence|].
  cbv zeta. fold m c. cbn [trace heap next_ref log_call].
  rewrite T2, V2, V1. fold m.
  split;
    [repeat first [rewrite <- app_assoc | progress cbn [app]]; reflexivity|].
  split; [reflexivity|]. split; [congruence|].
  intros r Hr. rewrite F2 by exact Hr. apply F1. exact Hr.
Qed.

(** ** The helpers of [_mkl_interface.py] *)

Lemma cast_to_float64_spec x w o w' :
  _cast_to_float64 convert x w = (o, w') ->
  exists x',
    o = Ret x'
    /\ operand_dtype w' x' = float64
    /\ (forall y, operand_dtype w y = float64 -> operand_dtype w' y = float64)
    /\ trace w' = trace w.
Proof.
  destruct x as [r|d]; cbn [_cast_to_float64].
  - unfold deref. unfold bind at 1.
    change (dtype_of (data (heap w r))) with (dtype_m (heap w r)).
    destruct (dtype_eqb (dtype_m (heap w r)) float64) eqn:E; cbn [negb].
    + intros H. unfold ret in H. inversion H; subst.
      exists (Sparse r). split; [reflexivity|].
      split; [apply dtype_eqb_eq; exact E|]. split; [auto|reflexivity].
    + intros H. unfold update, bind, ret in H. inversion H; subst.
      exists (Sparse r). split; [reflexivity|].
      split; [cbn; rewrite Nat.eqb_refl; reflexivity|].
      split; [|reflexivity].
      intros [r0|d0] Hy; cbn in *; [|exact Hy].
      destruct (Nat.eqb r0 r); [reflexivity|exact Hy].
  - destruct (dtype_eqb (dense_dtype d) float64) eqn:E; cbn [negb];
      intros H; unfold ret in H; inversion H; subst.
    + exists (Dense d). split; [reflexivity|].
      split; [apply dtype_eqb_eq; exact E|]. split; [auto|reflexivity].
    + exists (Dense (dense_astype convert float64 d)).
      split; [reflexivity|]. split; [reflexivity|].
      split; [auto|reflexivity].
Qed.

Lemma dtype_of_operand_run x w :
  dtype_of_operand x w = (Ret (operand_dtype w x), w).
Proof. destruct x; reflexivity. Qed.

(** X18.  [_type_check] never falls off the end of its [if] chain.  A pair
    of operands that are both float32 or both float64 is returned as it is;
    any other pair is refused with the dtype-mismatch error when [cast] is
    off, and with [cast] both operands are returned as float64.  Whenever a
    pair is returned, its two members have the same dtype, float32 or
    float64; no vendor call is made. *)
Theorem type_check_contract a b cast w o w' :
  _type_check convert a b cast w = (o, w') ->
  let da := operand_dtype w a in
  let db := operand_dtype w b in
  let same := (da = float32 /\ db = float32) \/ (da = float64 /\ db = float64) in
  o <> Ret None
  /\ trace w' = trace w
  /\ (same -> o = Ret (Some (a, b)) /\ w' = w)
  /\ (~ same -> cast = false ->
      o = Raise (ValueError (concordance_msg da db)) /\ w' = w)
  /\ (~ same -> cast = true ->
      exists a' b', o = Ret (Some (a', b'))
                    /\ operand_dtype w' a' = float64
                    /\ operand_dtype w' b' = float64)
  /\ (forall a' b', o = Ret (Some (a', b')) ->
        operand_dtype w' a' = operand_dtype w' b'
        /\ (operand_dtype w' a' = float32 \/ operand_dtype w' a' = float64)).
Proof.
  intros H da db same. unfold _type_check in H.
  rewrite (bind_ret _ _ _ _ _ (dtype_of_operand_run a w)) in H.
  rewrite (bind_ret _ _ _ _ _ (dtype_of_operand_run b w)) in H.
  fold da db in H.
  destruct (dtype_eqb da float32 && dtype_eqb db float32)%bool eqn:E32.
  { apply andb_true_iff in E32 as [Ea Eb]. apply dtype_eqb_eq in Ea, Eb.
    unfold ret in H. inversion H; subst o w'.
    split; [discriminate|]. split; [reflexivity|].
    split; [intros _; split; reflexivity|].
    split; [intros Hn; destruct Hn; left; split; assumption|].
    split; [intros Hn; destruct Hn; left; split; assumption|].
    intros a' b' E. inversion E; subst a' b'. fold da db.
    split; [congruence|left; exact Ea]. }
  destruct (dtype_eqb da float64 && dtype_eqb db float64)%bool eqn:E64.
  { apply andb_true_iff in E64 as [Ea Eb]. apply dtype_eqb_eq in Ea, Eb.
    unfold ret in H. inversion H; subst o w'.
    split; [discriminate|]. split; [reflexivity|].
    split; [intros _; split; reflexivity|].
    split; [intros Hn; destruct Hn; right; split; assumption|].
    split; [intros Hn; destruct Hn; right; split; assumption|].
    intros a' b' E. inversion E; subst a' b'. fold da db.
    split; [congruence|right; exact Ea]. }
  assert (~ same) as Hns.
  { intros [[Ea Eb]|[Ea Eb]].
    - rewrite Ea, Eb in E32. discriminate E32.
    - rewrite Ea, Eb in E64. discriminate E64. }
  assert ((negb (dtype_eqb da float64) || negb (dtype_eqb db float64))%bool
          = true) as En.
  { destruct (dtype_eqb da float64), (dtype_eqb db float64);
      try reflexivity. discriminate E64. }
  rewrite En in H. cbn [andb] in H.
  destruct cast.
  - apply bind_inv in H as [(e & H1 & _)|(a' & w1 & H1 & H)].
    { apply cast_to_float64_spec in H1 as (x & E & _). discriminate E. }
    apply cast_to_float64_spec in H1 as (x & E & Da & _ & T1).
    inversion E; subst x; clear E.
    apply bind_inv in H as [(e & H2 & _)|(b' & w2 & H2 & H)].
    { apply cast_to_float64_spec in H2 as (x & E & _). discriminate E. }
    apply cast_to_float64_spec in H2 as (x & E & Db & Keep & T2).
    inversion E; subst x; clear E.
    unfold ret in H. inversion H; subst o w'.
    split; [discriminate|]. split; [congruence|].
    split; [intros Hs; contradiction|].
    split; [intros _ ?; discriminate|].
    split.
    + intros _ _. exists a', b'. split; [reflexivity|].
      split; [apply Keep; exact Da|exact Db].
    + intros x y E. inversion E; subst x y.
      rewrite (Keep _ Da), Db. split; [reflexivity|right; reflexivity].
  - unfold raise in H. inversion H; subst o w'.
    split; [discriminate|]. split; [reflexivity|].
    split; [intros Hs; contradiction|].
    split; [intros _ _; split; reflexivity|].
    split; [intros _ ?; discriminate|].
    intros x y E. discriminate E.
Qed.

Lemma string_app_assoc (a b c : string) :
  ((a ++ b) ++ c)%string = (a ++ (b ++ c))%string.
Proof.
  induction a as [|x a IH]; [reflexivity|].
  cbn [String.append]. rewrite IH. reflexivity.
Qed.

Lemma tuple_str_pair x y : tuple_str [x; y] = shape_str (x, y).
Proof.
  unfold tuple_str, shape_str, tuple_items. cbn [fst snd].
  rewrite !string_app_assoc. reflexivity.
Qed.

Lemma min_zero x y :
  0 <= x -> 0 <= y -> (Z.min x y =? 0) = ((x =? 0) || (y =? 0))%bool.
Proof.
  intros Hx Hy.
  destruct (Z.eqb_spec x 0), (Z.eqb_spec y 0); cbn [orb];
    [apply Z.eqb_eq; lia..|apply Z.eqb_neq; lia].
Qed.

Lemma edge_condition_split (a b : spmatrix) :
  valid_shape a -> valid_shape b ->
  edge_condition a b
  = ((Z.min (fst (shape a))
        (Z.min (snd (shape a)) (Z.min (fst (shape b)) (snd (shape b)))) =? 0)
     || ((Z.min (shape0 (data a)) (shape0 (indices a)) =? 0)
         || (Z.min (shape0 (data b)) (shape0 (indices b)) =? 0)))%bool.
Proof.
  intros [A0 A1] [B0 B1]. unfold edge_condition.
  pose proof (Nat2Z.is_nonneg (List.length (items (data a)))) as La.
  pose proof (Nat2Z.is_nonneg (List.length (items (indices a)))) as Ia.
  pose proof (Nat2Z.is_nonneg (List.length (items (data b)))) as Lb.
  pose proof (Nat2Z.is_nonneg (List.length (items (indices b)))) as Ib.
  fold (shape0 (data a)) in La. fold (shape0 (indices a)) in Ia.
  fold (shape0 (data b)) in Lb. fold (shape0 (indices b)) in Ib.
  rewrite !min_zero by (repeat apply Z.min_glb; assumption).
  destruct (fst (shape a) =? 0), (snd (shape a) =? 0), (fst (shape b) =? 0),
    (snd (shape b) =? 0), (shape0 (data a) =? 0), (shape0 (indices a) =? 0),
    (shape0 (data b) =? 0), (shape0 (indices b) =? 0); reflexivity.
Qed.

(** X19.  On two sparse operands the helpers of [_mkl_interface.py] decide
    as the inline checks of [dot_product_mkl] do: [_sanity_check] raises
    the same alignment error exactly when the inner dimensions differ, and,
    for non-negative dimensions, [_empty_output_check] returns the value of
    the edge-condition test.  Neither changes anything. *)
Theorem interface_checks_agree ra rb w :
  let a := heap w ra in
  let b := heap w rb in
  _sanity_check (Sparse ra) (Sparse rb) w
  = (if snd (shape a) =? fst (shape b) then Ret tt
     else Raise (ValueError (alignment_msg (shape a) (shape b))), w)
  /\ (valid_shape a -> valid_shape b ->
      _empty_output_check (Sparse ra) (Sparse rb) w
      = (Ret (edge_condition a b), w)).
Proof.
  intros a b. subst a b. split.
  - unfold _sanity_check, shape_of, shape_item, deref, bind, ret, raise.
    cbn [nth_error].
    destruct (snd (shape (heap w ra)) =? fst (shape (heap w rb)));
      cbn [negb]; [reflexivity|].
    rewrite !tuple_str_pair. unfold alignment_msg.
    destruct (shape (heap w ra)), (shape (heap w rb)). reflexivity.
  - intros Va Vb. rewrite (edge_condition_split _ _ Va Vb).
    unfold _empty_output_check, no_entries, shape_of, shape_item, deref,
      bind, ret. cbn [nth_error].
    destruct (Z.min (fst (shape (heap w ra))) _ =? 0); [reflexivity|].
    cbv beta.
    destruct (Z.min (shape0 (data (heap w ra))) _ =? 0); [reflexivity|].
    cbv beta.
    destruct (Z.min (shape0 (data (heap w rb))) _ =? 0); reflexivity.
Qed.

(** ** Integer-width discovery: the round trip and the bindings *)

Lemma wf_ret {A} (a : A) : world_free (ret a).
Proof. intros w w'. reflexivity. Qed.

Lemma wf_raise {A} e : world_free (@raise A e).
Proof. intros w w'. reflexivity. Qed.

Lemma wf_bind {A B} (m : M A) (k : A -> M B) :
  world_free m -> (forall a, world_free (k a)) -> world_free (bind m k).
Proof.
  intros Hm Hk w w'. unfold bind. specialize (Hm w w').
  destruct (m w) as [[a|e] w1], (m w') as [[a'|e'] w1']; cbn [fst] in Hm;
    inversion Hm; subst; [apply Hk|reflexivity].
Qed.

Lemma wf_as_array p n : world_free (as_array p n).
Proof. unfold as_array. destruct (n <? 0); [apply wf_raise|apply wf_ret]. Qed.

Lemma wf_item0 l : world_free (item0 l).
Proof. destruct l; [apply wf_raise|apply wf_ret]. Qed.

Lemma wf_item_last l : world_free (item_last l).
Proof. destruct l; [apply wf_raise|apply wf_ret]. Qed.

Lemma wf_from_shape f sh dt : world_free (sp_matrix_from_shape f sh dt).
Proof.
  unfold sp_matrix_from_shape.
  destruct (_ || _)%bool; [apply wf_raise|apply wf_ret].
Qed.

Lemma wf_from_arrays f d i p sh :
  world_free (sp_matrix_from_arrays check_format f d i p sh).
Proof.
  unfold sp_matrix_from_arrays.
  destruct (check_format _); [apply wf_ret|apply wf_raise].
Qed.

Lemma wf_export_outputs t f dt r :
  world_free (export_outputs check_format t f dt r).
Proof.
  unfold export_outputs.
  destruct (negb _); [apply wf_raise|].
  destruct (_ || _)%bool; [apply wf_from_shape|].
  apply wf_bind; [apply wf_as_array|intros indptrb].
  apply wf_bind; [apply wf_as_array|intros indptren].
  apply wf_bind; [apply wf_item0|intros first].
  apply wf_bind; [apply wf_item_last|intros last_].
  destruct (_ =? 0); [apply wf_from_shape|].
  destruct (_ || _)%bool; [apply wf_raise|].
  apply wf_bind; [apply wf_as_array|intros data_].
  apply wf_bind; [apply wf_as_array|intros indices_].
  apply wf_from_arrays.
Qed.

(** [_create_mkl_sparse] on a float32 CSC matrix with consistent arrays,
    once the width is set: the index arrays are re-typed, and the one vendor
    call is the float32 CSC create call on the re-typed matrix. *)
Lemma create_run r w t np :
  MKL_INT w = Some t -> MKL_INT_NUMPY w = Some np ->
  format (heap w r) = csc -> dtype_m (heap w r) = float32 ->
  shape0 (data (heap w r)) = shape0 (indices (heap w r)) ->
  shape0 (indptr (heap w r)) = snd (shape (heap w r)) + 1 ->
  let m := created false np (heap w r) in
  let c := create_call mkl_sparse_s_create_csc t m in
  exists w1,
    _create_mkl_sparse mkl convert r false w
    = bind (check_return "mkl_sparse_s_create_csc" (status (mkl (trace w) c)))
        (fun _ => ret (out_handle (mkl (trace w) c), false))
        (log_call c w1)
    /\ trace w1 = trace w /\ config_eq w w1.
Proof.
  intros Ht Hnp Hf Hd Hl Hp m c.
  destruct (_check_scipy_index_typing convert r w) as [o1 w1] eqn:E1.
  pose proof (check_typing_spec _ _ _ _ E1) as (C1 & T1 & _ & K).
  destruct K as [(_ & N)|(np' & -> & N & V1)]; [congruence|].
  assert (np' = np) as -> by congruence.
  assert (heap w1 r = m) as Hm.
  { rewrite V1. unfold m, created, precast.
    unfold dtype_m in Hd |- *. rewrite Hd. reflexivity. }
  exists w1. split; [|split; assumption].
  unfold _create_mkl_sparse. unfold bind at 1. unfold deref at 1.
  cbv beta iota. rewrite Hd. change (dtype_eqb float32 float32) with true.
  cbv beta iota. unfold bind at 1. unfold ret at 1. cbv beta iota.
  unfold bind at 1. rewrite E1. cbv beta iota.
  unfold bind at 1. unfold deref at 1. cbv beta iota. rewrite Hm.
  assert (format m = csc) as Fm by (rewrite <- Hm, V1; exact Hf).
  assert (shape0 (data m) = shape0 (indices m)) as Lm.
  { rewrite <- Hm, V1. cbn [data indices set_indices set_indptr].
    rewrite retype_shape0. exact Hl. }
  assert (shape0 (indptr m) = snd (shape m) + 1) as Pm.
  { rewrite <- Hm, V1. cbn [indptr shape set_indices set_indptr].
    rewrite retype_shape0. exact Hp. }
  unfold bind at 1. unfold assert at 1.
  rewrite Lm, Z.eqb_refl. unfold ret at 1. cbv beta iota.
  unfold is_csr, isspmatrix_csc. rewrite Fm. cbn [sp_format_eqb].
  unfold bind at 1. unfold assert at 1.
  rewrite Pm, Z.eqb_refl. unfold ret at 1. cbv beta iota.
  destruct C1 as (I1 & _).
  unfold _pass_mkl_handle, get_MKL_INT, deref, call_mkl.
  unfold bind. rewrite I1, Ht. cbv beta iota. rewrite Hm, T1.
  subst c. unfold create_call.
  change (fn_name mkl_sparse_s_create_csc) with "mkl_sparse_s_create_csc".
  destruct (check_return _ _ _) as [[[]|e] w2]; reflexivity.
Qed.

Lemma validate_signatures w o w' :
  _validate_dtype mkl convert check_format test_array array_almost_equal w
  = (o, w') ->
  signatures w' = signatures w.
Proof.
  intros H. unfold _validate_dtype in H.
  apply bind_inv in H as [(e & H1 & ->)|(r & w1 & H1 & H)];
    [discriminate H1|].
  unfold new_matrix in H1. injection H1 as Er Ew. subst r.
  assert (signatures w1 = signatures w) as S1 by (subst w1; reflexivity).
  clear Ew.
  assert (forall o2 w2,
             _create_mkl_sparse mkl convert (next_ref w) false w1 = (o2, w2) ->
             signatures w2 = signatures w) as Hc.
  { intros o2 w2 E. apply create_spec in E as ((_ & _ & _ & S2) & _).
    congruence. }
  apply bind_inv in H as [(e & H1 & ->)|([csc_ref flag] & w2 & H1 & H)];
    [eapply Hc; exact H1|].
  apply Hc in H1. clear Hc. cbn [fst snd] in H.
  assert (forall o3 w3,
             _convert_to_csr mkl csc_ref w2 = (o3, w3) ->
             signatures w3 = signatures w) as Hc.
  { intros o3 w3 E.
    apply convert_spec in E as [(_ & _ & ->)|(_ & _ & ->)]; exact H1. }
  apply bind_inv in H as [(e & H2 & ->)|(csr_ref & w3 & H2 & H)];
    [eapply Hc; exact H2|].
  apply Hc in H2. clear Hc.
  assert (forall o4 w4,
             _export_mkl mkl check_format csr_ref flag "csr" false w3
             = (o4, w4) ->
             signatures w4 = signatures w) as Hc.
  { intros o4 w4 E.
    apply export_spec in E as [[(-> & _)|(fn & t0 & _ & ->)] _]; exact H2. }
  apply bind_inv in H as [(e & H3 & ->)|(final_array & w4 & H3 & H)];
    [eapply Hc; exact H3|].
  apply Hc in H3. apply assert_world in H as ->. exact H3.
Qed.

(** The outcome of one round trip, from what the vendor returns. *)
Lemma validate_run w t np :
  test_array_ok -> MKL_INT w = Some t -> MKL_INT_NUMPY w = Some np ->
  round_trip_rule t np w
    (fst (_validate_dtype mkl convert check_format test_array
            array_almost_equal w)).
Proof.
  intros (Hf & Hd & Hl & Hp) Ht Hnp.
  unfold round_trip_rule.
  set (m := created false np test_array).
  set (c1 := create_call mkl_sparse_s_create_csc t m).
  set (r1 := mkl (trace w) c1).
  set (c2 := ConvertCsr (out_handle r1)).
  set (r2 := mkl (trace w ++ [c1]) c2).
  set (d := mkl (trace w ++ [c1; c2]) (Destroy (out_handle r2))).
  set (c3 := Export mkl_sparse_s_export_csr t (out_handle r2)).
  set (r3 := mkl (trace w ++ [c1; c2]) c3).
  remember (fst (_validate_dtype mkl convert check_format test_array
                   array_almost_equal w)) as o eqn:Eo.
  unfold _validate_dtype in Eo. unfold bind at 1 in Eo.
  destruct (new_matrix test_array w) as [o0 w0] eqn:E0.
  unfold new_matrix in E0. injection E0 as <- Ew0.
  assert (heap w0 (next_ref w) = test_array /\ trace w0 = trace w
          /\ MKL_INT w0 = Some t /\ MKL_INT_NUMPY w0 = Some np)
    as (V0 & T0 & I0 & N0).
  { subst w0. cbn. rewrite Nat.eqb_refl. repeat split; assumption. }
  clear Ew0.
  destruct (create_run (next_ref w) w0 t np I0 N0) as (w1 & E1 & T1 & C1);
    try (rewrite V0; assumption).
  rewrite V0, T0 in E1. fold m c1 r1 in E1. rewrite T0 in T1.
  assert (MKL_INT w1 = Some t) as I1 by (destruct C1 as (A & _); congruence).
  unfold bind at 1 in Eo. rewrite E1 in Eo.
  destruct (check_return_cases "mkl_sparse_s_create_csc" (status r1)
              (log_call c1 w1)) as [[S1 Ec]|[S1 [e Ec]]].
  2:{ pose proof (status_answer_return "mkl_sparse_s_create_csc" (status r1)
                    (log_call c1 w1)) as Ha.
      unfold bind at 1 in Eo. rewrite Ec in Eo, Ha. cbn [fst] in Eo, Ha.
      subst o.
      split; [intros _; exact Ha|].
      split; [intros ?; contradiction|].
      split; intros ?; contradiction. }
  unfold bind at 1 in Eo. rewrite Ec in Eo.
  cbv beta iota delta [ret] in Eo. cbn [fst snd] in Eo.
  pose proof (convert_run (out_handle r1) (log_call c1 w1)) as Hc.
  cbv zeta in Hc. cbn [trace log_call] in Hc. rewrite T1 in Hc.
  rewrite <- app_assoc in Hc. cbn [app] in Hc.
  fold c2 r2 d in Hc.
  destruct (Z.eq_dec (status r2) 0) as [S2|S2].
  2:{ destruct Hc as [_ Hc].
      destruct (Hc S2) as (_ & (e & He) & Hd0 & Ha).
      unfold bind at 1 in Eo.
      destruct (_convert_to_csr mkl (out_handle r1) (log_call c1 w1))
        as [o2 w3] eqn:E2.
      cbn [fst] in He, Hd0, Ha. subst o2. cbn [fst] in Eo. subst o.
      split; [intros ?; contradiction|].
      split; [|split; intros; contradiction].
      intros _ _. split.
      - intros Hz. specialize (Hd0 Hz). inversion Hd0; reflexivity.
      - apply (status_answer_raise _ _ _ Ha). }
  destruct Hc as [Hc _]. specialize (Hc S2).
  unfold bind at 1 in Eo. rewrite Hc in Eo. cbv beta iota in Eo.
  set (w3 := log_call c2 (log_call c1 w1)) in *.
  assert (MKL_INT w3 = Some t) as I3 by exact I1.
  unfold bind at 1 in Eo.
  rewrite (export_mkl_run (out_handle r2) false "csr" false w3 t csr I3
             eq_refl) in Eo.
  cbv zeta in Eo.
  change (export_fn false csr) with mkl_sparse_s_export_csr in Eo.
  change (precision_dtype false) with float32 in Eo.
  change (fn_name mkl_sparse_s_export_csr) with "mkl_sparse_s_export_csr"
    in Eo.
  assert (trace w3 = trace w ++ [c1; c2]) as T3.
  { unfold w3. cbn [trace log_call]. rewrite T1, <- app_assoc. reflexivity. }
  rewrite T3 in Eo. fold c3 r3 in Eo.
  destruct (check_return_cases "mkl_sparse_s_export_csr" (status r3)
              (log_call c3 w3)) as [[S3 Ec3]|[S3 [e Ec3]]].
  2:{ pose proof (status_answer_return "mkl_sparse_s_export_csr" (status r3)
                    (log_call c3 w3)) as Ha.
      unfold bind at 1 in Eo. rewrite Ec3 in Eo, Ha. cbn [fst] in Eo, Ha.
      subst o.
      split; [intros ?; contradiction|].
      split; [intros ? ?; contradiction|].
      split; [intros _ _ _; exact Ha|intros ? ? ?; contradiction]. }
  unfold bind at 1 in Eo. rewrite Ec3 in Eo. cbv beta iota in Eo.
  pose proof (wf_export_outputs t csr float32 r3 (log_call c3 w3) w) as Hw.
  destruct (export_outputs check_format t csr float32 r3 (log_call c3 w3))
    as [o4 w4] eqn:E4.
  cbn [fst] in Hw.
  split; [intros ?; contradiction|].
  split; [intros ? ?; contradiction|].
  split; [intros ? ? ?; contradiction|].
  intros _ _ _. rewrite <- Hw. subst o.
  destruct o4 as [final_array|e]; [|reflexivity].
  unfold assert. destruct (array_almost_equal test_array final_array);
    reflexivity.
Qed.

Lemma set_signatures_rebound t s : rebound t s (set_signatures t s).
Proof. unfold rebound. repeat split. Qed.

(** C9.  The module-level discovery.  One round trip ([_validate_dtype])
    creates a handle from the test matrix, converts it and exports it; a
    failing status of any of the three calls is raised by its wrapper, and
    after three successes the comparison with the test matrix decides.  From
    a class whose width is not set, the 64-bit types are bound first and one
    round trip is made; if it raises a [ValueError] or an [AssertionError],
    the 32-bit types are bound and the round trip is repeated, every
    index-carrying call of it marshalled at 32 bits; if the second one
    raises such an error too, the import fails with [ImportError]; a
    completed round trip leaves its width set.  With a width already set
    the discovery does nothing, and [dot_product_mkl] changes neither the
    width nor a signature.  Each binding assigns the signatures of ten entry
    points at the new width; it never assigns the signature of
    [mkl_sparse_s_export_csc], nor that of [mkl_sparse_convert_csr]. *)
Theorem integer_width_discovery :
  let validate :=
    _validate_dtype mkl convert check_format test_array array_almost_equal in
  let init :=
    module_init mkl convert check_format test_array array_almost_equal in
  (test_array_ok ->
   forall w t np,
     MKL_INT w = Some t -> MKL_INT_NUMPY w = Some np ->
     round_trip_rule t np w (fst (validate w)))
  /\ (forall w,
         MKL_INT w = None ->
         match validate (with_width c_longlong int64 w) with
         | (Ret _, w2) =>
             init w = (Ret tt, w2)
             /\ width_of w2 = (Some c_longlong, Some int64)
             /\ signatures w2 = set_signatures c_longlong (signatures w)
         | (Raise e, w2) =>
             if caught e then
               match validate (with_width c_int int32 w2) with
               | (Ret _, w4) =>
                   init w = (Ret tt, w4)
                   /\ width_of w4 = (Some c_int, Some int32)
                   /\ signatures w4
                      = set_signatures c_int
                          (set_signatures c_longlong (signatures w))
                   /\ exists new,
                        trace w4 = trace w2 ++ new /\ marshalled_at c_int new
               | (Raise e', w4) =>
                   init w
                   = (Raise (if caught e'
                             then ImportError "Unable to set MKL numeric types"
                             else e'), w4)
               end
             else init w = (Raise e, w2)
         end)
  /\ (forall w t, MKL_INT w = Some t -> init w = (Ret tt, w))
  /\ (forall ra rb cast copy reorder_output debug w o w',
         dot_product_mkl mkl convert check_format ra rb cast copy
           reorder_output debug w = (o, w') ->
         width_of w' = width_of w /\ signatures w' = signatures w)
  /\ (forall c_type np_type w,
         width_of (with_width c_type np_type w) = (Some c_type, Some np_type)
         /\ rebound c_type (signatures w)
              (signatures (with_width c_type np_type w))).
Proof.
  intros validate init. split; [|split; [|split; [|split]]].
  - intros Hok w t np Ht Hnp. apply validate_run; assumption.
  - intros w Hw. unfold init. rewrite (module_init_unfold w Hw).
    cbv zeta. fold validate.
    destruct (validate (with_width c_longlong int64 w)) as [[[]|e] w2] eqn:E1.
    + split; [reflexivity|].
      pose proof (validate_signatures _ _ _ E1) as S1.
      apply (validate_spec c_longlong) in E1 as [E _]; [|reflexivity].
      split; [rewrite E; reflexivity|exact S1].
    + destruct (caught e) eqn:Ce; [|reflexivity].
      pose proof (validate_signatures _ _ _ E1) as S1.
      destruct (validate (with_width c_int int32 w2)) as [[[]|e'] w4] eqn:E2.
      * split; [reflexivity|].
        pose proof (validate_signatures _ _ _ E2) as S2.
        apply (validate_spec c_int) in E2 as [E (new & T & Mn)];
          [|reflexivity].
        split; [rewrite E; reflexivity|].
        split; [rewrite S2; cbn [signatures with_width _set_int_type snd];
                rewrite S1; reflexivity|].
        exists new. split; [exact T|exact Mn].
      * destruct (caught e'); reflexivity.
  - intros w t Hw. unfold init, module_init. rewrite Hw. reflexivity.
  - intros ra rb cast copy reorder_output debug w o w' Hrun.
    apply dot_run in Hrun as ((A & B & _ & D) & _).
    split; [unfold width_of; congruence|exact D].
  - intros c_type np_type w. split; [reflexivity|].
    apply set_signatures_rebound.
Qed.

End Properties.

(** ** Concrete runs *)

(** C1.  On the edge-condition path the shape given to the empty result is
    (rows of the left operand, rows of the right operand): a 2 x 3 matrix
    without entries times a 3 x 4 matrix returns an empty 2 x 3 matrix, not
    a 2 x 4 one, and without any vendor call. *)
Theorem dot_product_mkl_edge_shape :
  let a := zeros_csr 2 3 float64 in
  let b := one_entry_csr 3 4 float64 in
  let run := dot_product_mkl sample_mkl sample_convert sample_check 0%nat 1%nat
               false false false false (world_of a b) in
  fst run = Ret (empty_of csr (2, 3) float64)
  /\ trace (snd run) = []
  /\ (fst (shape a), snd (shape b)) = (2, 4)
  /\ shape (empty_of csr (2, 3) float64) <> (fst (shape a), snd (shape b)).
Proof.
  cbv zeta. split; [vm_compute; reflexivity|].
  split; [vm_compute; reflexivity|].
  split; [reflexivity|]. discriminate.
Qed.

(** C2, the claim as stated fails: with [copy=True] a run that returns its
    result leaves both operand handles allocated, and a run whose multiply
    fails leaves them allocated as it raises. *)
Lemma operand_handles_leak :
  let w := world_of (diag2 csr float32 int32 1 2) (diag2 csr float32 int32 4 5) in
  let run := dot_product_mkl sample_mkl sample_convert sample_check 0%nat 1%nat
               false true false false w in
  let bad_mkl := failing_mkl is_spmm 4 in
  let failed := dot_product_mkl bad_mkl sample_convert sample_check 0%nat 1%nat
                  false true false false w in
  (exists m, fst run = Ret m)
  /\ filter is_destroy (trace (snd run)) = [Destroy 5]
  /\ live_handles sample_mkl [] (trace (snd run)) [] = [2; 1]
  /\ fst failed
     = Raise (ValueError
                "mkl_sparse_spmm returned 4 (SPARSE_STATUS_EXECUTION_FAILED)")
  /\ filter is_destroy (trace (snd failed)) = []
  /\ live_handles bad_mkl [] (trace (snd failed)) [] = [2; 1].
Proof.
  cbv zeta. split; [eexists; vm_compute; reflexivity|].
  repeat split; vm_compute; reflexivity.
Qed.

(** C4, the claim as stated fails: a float32 operand without entries times
    a float64 operand, with [cast=False], is answered with an empty float64
    matrix instead of the dtype-mismatch error. *)
Lemma dtype_mismatch_passes_edge_condition :
  let a := zeros_csr 2 2 float32 in
  let b := diag2 csr float64 int32 4 5 in
  let run := dot_product_mkl sample_mkl sample_convert sample_check 0%nat 1%nat
               false false false false (world_of a b) in
  is_csr a = true /\ is_csr b = true
  /\ snd (shape a) = fst (shape b)
  /\ dtype_m a <> dtype_m b
  /\ fst run = Ret (empty_of csr (2, 2) float64).
Proof.
  cbv zeta. repeat split; try (vm_compute; reflexivity). discriminate.
Qed.

(** C5, the claim as stated fails: a conversion that returns status 3 is
    reported without the entry-point name or the category, and an order
    call that returns status 7 is reported as a failed dict lookup. *)
Lemma status_without_category :
  let w := world_of (diag2 csr float32 int32 1 2) (diag2 csr float32 int32 4 5) in
  status (failing_mkl is_convert 3 (trace w) (ConvertCsr 1)) = 3
  /\ lookup 3 RETURN_CODES = Some "SPARSE_STATUS_INVALID_VALUE"
  /\ fst (_convert_to_csr (failing_mkl is_convert 3) 1 w)
     = Raise (ValueError "CSC to CSR Conversion failed")
  /\ (forall e, In e error_categories ->
        "CSC to CSR Conversion failed"
        <> returned_msg "mkl_sparse_convert_csr" 3 e)
  /\ status (failing_mkl is_order 7 (trace w) (Order 1)) = 7
  /\ lookup 7 RETURN_CODES = None
  /\ fst (_order_mkl_handle (failing_mkl is_order 7) 1 w) = Raise (KeyError 7).
Proof.
  cbv zeta. repeat split; try (vm_compute; reflexivity).
  intros e He. unfold error_categories in He.
  repeat (destruct He as [<-|He]; [discriminate|]). destruct He.
Qed.

(** ** The theorems at concrete runs *)

(** The product of two float32 operands is float32. *)
Lemma dot_product_mkl_result_dtype_witness :
  let run := dot_product_mkl sample_mkl sample_convert sample_check
               0%nat 1%nat false false false false sample_world in
  fst run = Ret (sample_product false false)
  /\ dtype_m (sample_product false false) = float32.
Proof.
  cbv zeta. split; [vm_compute; reflexivity|].
  refine (dot_product_mkl_result_dtype sample_mkl sample_convert sample_check
            0%nat 1%nat false false false false sample_world
            (sample_product false false)
            (snd (dot_product_mkl sample_mkl sample_convert sample_check
                    0%nat 1%nat false false false false sample_world)) _).
  vm_compute. reflexivity.
Defined.


(** A run with [copy] and [reorder_output]: both operands are ordered before
    the multiply, and every later order or destroy call is on its result. *)
Lemma dot_product_mkl_call_order_witness :
  let run := dot_product_mkl sample_mkl sample_convert sample_check
               0%nat 1%nat false true true false sample_world in
  fst run = Ret (sample_product true true)
  /\ exists pre a b post,
       trace (snd run) = pre ++ Spmm a b :: post
       /\ (exists p1 p2 p3, pre = p1 ++ Order a :: p2 ++ Order b :: p3)
       /\ (forall h, In (Order h) post ->
             h = out_handle (sample_mkl pre (Spmm a b)))
       /\ (forall h, In (Destroy h) (trace (snd run)) ->
             h = out_handle (sample_mkl pre (Spmm a b))).
Proof.
  cbv zeta. split; [vm_compute; reflexivity|].
  destruct (dot_product_mkl_call_order sample_mkl sample_convert
              sample_check 0%nat 1%nat false true true false sample_world
              (Ret (sample_product true true))
              (snd (dot_product_mkl sample_mkl sample_convert sample_check
                      0%nat 1%nat false true true false sample_world)))
    as (new & T & Hpos & Hmade).
  - vm_compute. reflexivity.
  - destruct (Hmade _ eq_refl eq_refl) as (pre & a & b & post & E).
    change (trace sample_world ++ new) with new in T.
    destruct (Hpos pre a b post E) as (Hbefore & Horder & Hdestroy).
    exists pre, a, b, post. rewrite T. split; [exact E|].
    split; [exact Hbefore|]. split.
    + intros h Hin. exact (proj2 (Horder h Hin)).
    + intros h Hin. exact (proj2 (Hdestroy h Hin)).
Defined.

(** A run with [copy]: the one destroy call ends the run, on the handle of
    the product, straight after its export. *)
Lemma dot_product_mkl_destroys_result_only_witness :
  let run := dot_product_mkl sample_mkl sample_convert sample_check
               0%nat 1%nat false true false false sample_world in
  fst run = Ret (sample_product true false)
  /\ exists pre a b p2 fc tc,
       trace (snd run)
       = pre ++ Spmm a b :: p2 ++ [Export fc tc 5; Destroy 5]
       /\ out_handle (sample_mkl pre (Spmm a b)) = 5
       /\ (forall c, In c (pre ++ Spmm a b :: p2) -> is_destroy c = false).
Proof.
  cbv zeta. split; [vm_compute; reflexivity|].
  destruct (dot_product_mkl_destroys_result_only sample_mkl sample_convert
              sample_check 0%nat 1%nat false true false false sample_world
              (Ret (sample_product true false))
              (snd (dot_product_mkl sample_mkl sample_convert sample_check
                      0%nat 1%nat false true false false sample_world)))
    as (new & T & _ & Hpos).
  - vm_compute. reflexivity.
  - change (trace sample_world ++ new) with new in T.
    destruct (Hpos (removelast new) 5 []) as (_ & _ & Hnone & Hshape).
    + rewrite <- T. vm_compute. reflexivity.
    + destruct Hshape as (p1 & a & b & p2 & fc & tc & E & Eh).
      exists p1, a, b, p2, fc, tc. split; [|split].
      * transitivity (removelast new ++ [Destroy 5]).
        { rewrite <- T. vm_compute. reflexivity. }
        rewrite E.
        repeat first [rewrite <- app_assoc | progress cbn [app]].
        reflexivity.
      * symmetry. exact Eh.
      * intros c Hin. apply Hnone. rewrite E.
        apply in_app_or in Hin as [Hin|Hin].
        { apply in_or_app. left. exact Hin. }
        apply in_or_app. right. destruct Hin as [Hin|Hin].
        { left. exact Hin. }
        right. apply in_or_app. left. exact Hin.
Defined.

(** A float32 and a float64 operand with entries, without [cast]. *)
Lemma dot_product_mkl_dtype_mismatch_witness :
  edge_condition (heap mixed_world 0%nat) (heap mixed_world 1%nat) = false
  /\ dot_product_mkl sample_mkl sample_convert sample_check
       0%nat 1%nat false false false false mixed_world
     = (Raise (ValueError
          "Matrix data types must be in concordance; float32 and float64 provided"),
        mixed_world).
Proof.
  split; [reflexivity|].
  apply (dot_product_mkl_dtype_mismatch sample_mkl sample_convert sample_check
           0%nat 1%nat false false false mixed_world);
    [reflexivity | reflexivity | reflexivity | reflexivity | discriminate].
Defined.

(** Four exports: a zero dimension, equal first and last pointer values,
    more entries than cells, and a negative count. *)
Lemma export_mkl_empty_and_corrupt_witness :
  let export := Export (export_fn true csr) c_longlong 7 in
  let after_call := log_call export sample_world in
  let run r := _export_mkl (reporting r) sample_check 7 true "csr" false
                 sample_world in
  run (export_reply 0 0 0 5 0 0) = (Ret (empty_of csr (0, 5) float64), after_call)
  /\ run (export_reply 0 0 3 5 4 4)
     = (Ret (empty_of csr (3, 5) float64), after_call)
  /\ run (export_reply 0 0 3 5 0 16)
     = (Raise (ValueError (corrupt_msg 3 5 16)), after_call)
  /\ run (export_reply 0 0 3 5 4 1)
     = (Raise (ValueError (corrupt_msg 3 5 (-3))), after_call).
Proof.
  cbv zeta.
  split; [|split; [|split]].
  - destruct (export_mkl_empty_and_corrupt (reporting (export_reply 0 0 0 5 0 0))
                sample_check 7 true "csr" false sample_world c_longlong csr
                eq_refl eq_refl eq_refl eq_refl)
      as (_ & Hzero & _); [vm_compute; discriminate..|].
    apply Hzero. left. reflexivity.
  - destruct (export_mkl_empty_and_corrupt (reporting (export_reply 0 0 3 5 4 4))
                sample_check 7 true "csr" false sample_world c_longlong csr
                eq_refl eq_refl eq_refl eq_refl)
      as (_ & _ & Hrest); [vm_compute; discriminate..|].
    apply Hrest; [discriminate | discriminate | reflexivity].
  - destruct (export_mkl_empty_and_corrupt (reporting (export_reply 0 0 3 5 0 16))
                sample_check 7 true "csr" false sample_world c_longlong csr
                eq_refl eq_refl eq_refl eq_refl)
      as (_ & _ & Hrest); [vm_compute; discriminate..|].
    apply Hrest; [discriminate | discriminate |]. right. reflexivity.
  - destruct (export_mkl_empty_and_corrupt (reporting (export_reply 0 0 3 5 4 1))
                sample_check 7 true "csr" false sample_world c_longlong csr
                eq_refl eq_refl eq_refl eq_refl)
      as (_ & _ & Hrest); [vm_compute; discriminate..|].
    apply Hrest; [discriminate | discriminate |]. left. reflexivity.
Defined.

(** An export that reports 1-based ordering. *)
Lemma export_mkl_rejects_one_based_witness :
  let export := Export (export_fn true csr) c_longlong 7 in
  _export_mkl (reporting (export_reply 0 1 2 2 0 2)) sample_check 7 true "csr"
    false sample_world
  = (Raise (ValueError "1-indexing (F-style) is not supported"),
     log_call export sample_world).
Proof.
  cbv zeta.
  apply (export_mkl_rejects_one_based (reporting (export_reply 0 1 2 2 0 2))
           sample_check 7 true "csr" false sample_world c_longlong csr
           eq_refl eq_refl);
    [discriminate | reflexivity].
Defined.

(** The discovery at three vendors: one that accepts 64-bit indices, one that
    accepts 32-bit indices only, and one whose create call always fails. *)
Example module_init_sample_runs :
  let init mkl := module_init mkl sample_convert sample_check
                    sample_test_array sample_equal fresh_world in
  (fst (init sample_mkl) = Ret tt
   /\ MKL_INT (snd (init sample_mkl)) = Some c_longlong
   /\ List.length (filter is_create (trace (snd (init sample_mkl)))) = 1%nat)
  /\ (fst (init only_32_bit) = Ret tt
      /\ MKL_INT (snd (init only_32_bit)) = Some c_int
      /\ MKL_INT_NUMPY (snd (init only_32_bit)) = Some int32
      /\ List.length (filter is_create (trace (snd (init only_32_bit)))) = 2%nat)
  /\ (fst (init (failing_mkl is_create 3))
      = Raise (ImportError "Unable to set MKL numeric types")
      /\ List.length
           (filter is_create (trace (snd (init (failing_mkl is_create 3)))))
         = 2%nat)
  /\ fst (init (failing_mkl is_create 7)) = Raise (KeyError 7).
Proof.
  cbv zeta. repeat split; vm_compute; reflexivity.
Qed.

(** A conversion that fails while its clean-up destroy fails too: the error
    raised is the destroy call's. *)
Example convert_to_csr_failed_cleanup :
  let mkl := failing_mkl (fun c => (is_convert c || is_destroy c)%bool) 4 in
  _convert_to_csr mkl 1 sample_world
  = (Raise (ValueError
              "mkl_sparse_destroy returned 4 (SPARSE_STATUS_EXECUTION_FAILED)"),
     log_call (Destroy 1) (log_call (ConvertCsr 1) sample_world)).
Proof. vm_compute. reflexivity. Qed.

(** The discovery with a vendor that rejects 64-bit index arrays at
    creation: the import succeeds at 32 bits, the float32 CSR export is
    bound at that width, and the float32 CSC export has no signature. *)
Example module_init_leaves_export_csc_unassigned :
  let run := module_init only_32_bit sample_convert sample_check
               sample_test_array sample_equal fresh_world in
  fst run = Ret tt
  /\ MKL_INT (snd run) = Some c_int
  /\ signatures (snd run) mkl_sparse_s_export_csr
     = export_signature c_int POINTER_POINTER_c_float
  /\ signatures (snd run) mkl_sparse_d_export_csc
     = export_signature c_int POINTER_POINTER_c_double
  /\ signatures (snd run) mkl_sparse_s_export_csc = unassigned.
Proof. cbv zeta. repeat split; vm_compute; reflexivity. Qed.

(** The second round trip of that discovery, and the 32-bit binding that
    precedes it. *)
Lemma integer_width_discovery_witness :
  test_array_ok sample_test_array
  /\ round_trip_rule only_32_bit sample_convert sample_check
       sample_test_array sample_equal c_int int32
       (with_width c_int int32 (with_width c_longlong int64 fresh_world))
       (fst (_validate_dtype only_32_bit sample_convert sample_check
               sample_test_array sample_equal
               (with_width c_int int32
                  (with_width c_longlong int64 fresh_world))))
  /\ signatures (with_width c_int int32
                   (with_width c_longlong int64 fresh_world))
       mkl_sparse_s_export_csr
     = export_signature c_int POINTER_POINTER_c_float
  /\ signatures (with_width c_int int32
                   (with_width c_longlong int64 fresh_world))
       mkl_sparse_s_export_csc
     = unassigned.
Proof.
  assert (test_array_ok sample_test_array) as Hok
      by (vm_compute; repeat split; reflexivity).
  destruct (integer_width_discovery only_32_bit sample_convert sample_check
              sample_test_array sample_equal) as (R & _ & _ & _ & B).
  split; [exact Hok|].
  split; [apply (R Hok); reflexivity|].
  destruct (B c_int int32 (with_width c_longlong int64 fresh_world))
    as (_ & S).
  destruct S as (_ & _ & _ & _ & _ & S6 & _ & S8 & _).
  split; [exact S6|]. rewrite S8. reflexivity.
Defined.

(** ** The further properties at concrete runs *)

(** A 2 x 3 operand without entries: the empty result is 2 x 3. *)
Lemma dot_product_mkl_edge_result_witness :
  dot_product_mkl sample_mkl sample_convert sample_check 0%nat 1%nat
    true true true true edge_world
  = (Ret (empty_of csr (2, 3) float64), edge_world).
Proof.
  apply (dot_product_mkl_edge_result sample_mkl sample_convert sample_check
           0%nat 1%nat true true true true edge_world);
    try reflexivity; cbn; lia.
Defined.

(** The sample run makes vendor calls, so its operands passed the checks. *)
Lemma dot_product_mkl_checks_before_effects_witness :
  let run := dot_product_mkl sample_mkl sample_convert sample_check
               0%nat 1%nat false false false false sample_world in
  trace (snd run) <> trace sample_world
  /\ is_csr (heap sample_world 0%nat) = true
  /\ edge_condition (heap sample_world 0%nat) (heap sample_world 1%nat)
     = false.
Proof.
  cbv zeta.
  assert (trace (snd (dot_product_mkl sample_mkl sample_convert sample_check
                        0%nat 1%nat false false false false sample_world))
          <> trace sample_world) as T by (vm_compute; discriminate).
  split; [exact T|].
  destruct (dot_product_mkl_checks_before_effects sample_mkl sample_convert
              sample_check 0%nat 1%nat false false false false sample_world
              (fst (dot_product_mkl sample_mkl sample_convert sample_check
                      0%nat 1%nat false false false false sample_world))
              (snd (dot_product_mkl sample_mkl sample_convert sample_check
                      0%nat 1%nat false false false false sample_world)))
    as (Ha & _ & _ & He & _).
  - vm_compute. reflexivity.
  - left. exact T.
  - split; assumption.
Defined.

(** Two int32 operands without [cast]. *)
Lemma dot_product_mkl_unsupported_dtype_witness :
  dot_product_mkl sample_mkl sample_convert sample_check 0%nat 1%nat
    false false false true int_world
  = (Raise (ValueError "Only float32 or float64 dtypes are supported"),
     int_world).
Proof.
  apply (dot_product_mkl_unsupported_dtype sample_mkl sample_convert
           sample_check 0%nat 1%nat false false true int_world);
    try reflexivity; try discriminate; split; cbn; lia.
Defined.

(** With [copy] and [reorder_output] the sample run makes eight calls. *)
Lemma dot_product_mkl_call_count_witness :
  let run := dot_product_mkl sample_mkl sample_convert sample_check
               0%nat 1%nat false true true false sample_world in
  exists new,
    trace (snd run) = trace sample_world ++ new /\ List.length new = 8%nat.
Proof.
  cbv zeta.
  destruct (dot_product_mkl_call_count sample_mkl sample_convert
              sample_check 0%nat 1%nat false true true false sample_world
              (Ret (sample_product true true))
              (snd (dot_product_mkl sample_mkl sample_convert sample_check
                      0%nat 1%nat false true true false sample_world)))
    as (new & T & _ & L).
  - vm_compute. reflexivity.
  - exists new. split; [exact T|]. exact (L _ eq_refl).
Defined.

(** An export of a 2 x 2 matrix with two entries under a 64-bit vendor
    integer: the exported int64 index arrays come back as int32 arrays. *)
Lemma export_mkl_builds_matrix_witness :
  let export := Export (export_fn true csr) c_longlong 7 in
  exists m,
    _export_mkl (reporting (export_reply 0 0 2 2 0 2)) sample_check 7 true
      "csr" false sample_world
    = (Ret m, log_call export sample_world)
    /\ shape m = (2, 2) /\ items (indptr m) = [0; 2; 2]
    /\ shape0 (data m) = 2
    /\ dtype_of (indices m) = int32 /\ dtype_of (indptr m) = int32.
Proof.
  cbv zeta.
  destruct (export_mkl_builds_matrix (reporting (export_reply 0 0 2 2 0 2))
              sample_check 7 true "csr" false sample_world c_longlong csr
              eq_refl eq_refl eq_refl eq_refl)
    as (Hret & _ & _);
    [vm_compute; reflexivity | vm_compute; reflexivity
    | vm_compute; split; [reflexivity|discriminate] |].
  eexists. split; [apply Hret; reflexivity|].
  vm_compute. repeat split.
Defined.

(** Mixed case is accepted, another format name is not. *)
Lemma export_mkl_output_type_witness :
  _export_mkl sample_mkl sample_check 7 true "csr" false sample_world
  = _export_mkl sample_mkl sample_check 7 true "CsR" false sample_world
  /\ _export_mkl sample_mkl sample_check 7 true "COO" false sample_world
     = (Raise (ValueError "Only CSR and CSC output types are supported"),
        sample_world).
Proof.
  destruct (export_mkl_output_type sample_mkl sample_check 7 true "CsR" false
              sample_world c_longlong eq_refl) as [E1 _].
  destruct (export_mkl_output_type sample_mkl sample_check 7 true "COO" false
              sample_world c_longlong eq_refl) as [_ E2].
  split; [exact E1|]. apply E2; reflexivity.
Defined.

(** The int32 index arrays of the first sample operand become int64. *)
Lemma check_scipy_index_typing_post_witness :
  exists w',
    _check_scipy_index_typing sample_convert 0%nat sample_world = (Ret tt, w')
    /\ dtype_of (indices (heap sample_world 0%nat)) = int32
    /\ dtype_of (indices (heap w' 0%nat)) = int64
    /\ dtype_of (indptr (heap w' 0%nat)) = int64.
Proof.
  destruct (check_scipy_index_typing_post sample_convert 0%nat sample_world
              int64 eq_refl) as (w' & E & Hp & Hi & _).
  exists w'. split; [exact E|]. split; [reflexivity|]. split; assumption.
Defined.

(** The create call for the first sample operand. *)
Lemma create_mkl_sparse_marshalling_witness :
  let run := _create_mkl_sparse sample_mkl sample_convert 0%nat false
               sample_world in
  trace (snd run) <> trace sample_world
  /\ exists t np,
       MKL_INT sample_world = Some t /\ MKL_INT_NUMPY sample_world = Some np
       /\ dtype_of (indices (heap (snd run) 0%nat)) = np
       /\ shape0 (data (heap (snd run) 0%nat))
          = shape0 (indices (heap (snd run) 0%nat)).
Proof.
  cbv zeta.
  assert (trace (snd (_create_mkl_sparse sample_mkl sample_convert 0%nat
                        false sample_world)) <> trace sample_world) as T
      by (vm_compute; discriminate).
  split; [exact T|].
  destruct (create_mkl_sparse_marshalling sample_mkl sample_convert 0%nat
              false sample_world
              (fst (_create_mkl_sparse sample_mkl sample_convert 0%nat false
                      sample_world))
              (snd (_create_mkl_sparse sample_mkl sample_convert 0%nat false
                      sample_world)))
    as [E|(t & np & Ht & N & _ & _ & _ & _ & Hi & L & _)].
  - vm_compute. reflexivity.
  - contradiction.
  - exists t, np. repeat split; assumption.
Defined.

(** The product of the sample run is a CSR matrix. *)
Lemma dot_product_mkl_returns_csr_witness :
  format (sample_product false false) = csr.
Proof.
  refine (dot_product_mkl_returns_csr sample_mkl sample_convert sample_check
            0%nat 1%nat false false false false sample_world
            (sample_product false false)
            (snd (dot_product_mkl sample_mkl sample_convert sample_check
                    0%nat 1%nat false false false false sample_world)) _).
  vm_compute. reflexivity.
Defined.

(** The sample product has the shape its export call reported. *)
Lemma dot_product_mkl_result_from_export_witness :
  let run := dot_product_mkl sample_mkl sample_convert sample_check
               0%nat 1%nat false true false false sample_world in
  exists pre fn t hc r,
    trace (snd run) = pre ++ [Export fn t hc; Destroy hc]
    /\ r = sample_mkl pre (Export fn t hc)
    /\ shape (sample_product true false)
       = (c_value t (out_nrows r), c_value t (out_ncols r)).
Proof.
  cbv zeta.
  destruct (dot_product_mkl_result_from_export sample_mkl sample_convert
              sample_check 0%nat 1%nat false true false false sample_world
              (sample_product true false)
              (snd (dot_product_mkl sample_mkl sample_convert sample_check
                      0%nat 1%nat false true false false sample_world)))
    as (pre & t & hc & _ & T & _ & _ & S).
  - vm_compute. reflexivity.
  - reflexivity.
  - eexists pre, _, t, hc, _. split; [exact T|]. split; [reflexivity|exact S].
Defined.

(** With [debug] the sample product is returned: it stores two values. *)
Lemma dot_product_mkl_debug_needs_entries_witness :
  let run := dot_product_mkl sample_mkl sample_convert sample_check
               0%nat 1%nat false false false true sample_world in
  fst run = Ret (sample_product false false)
  /\ items (data (sample_product false false)) <> [].
Proof.
  cbv zeta. split; [vm_compute; reflexivity|].
  refine (proj1 (dot_product_mkl_debug_needs_entries sample_mkl
                   sample_convert sample_check 0%nat 1%nat false false false
                   sample_world (sample_product false false)
                   (snd (dot_product_mkl sample_mkl sample_convert
                           sample_check 0%nat 1%nat false false false true
                           sample_world)) _ _)).
  - vm_compute. reflexivity.
  - reflexivity.
Defined.

(** A multiply that returns status 4 raises a [ValueError]. *)
Lemma dot_product_mkl_exceptions_witness :
  let run := dot_product_mkl (failing_mkl is_spmm 4) sample_convert
               sample_check 0%nat 1%nat false false false false
               sample_world in
  exists e,
    fst run = Raise e
    /\ ((exists msg, e = ValueError msg) \/ e = AssertionError
        \/ exists k, e = KeyError k).
Proof.
  cbv zeta. eexists. split; [vm_compute; reflexivity|].
  refine (proj1 (dot_product_mkl_exceptions (failing_mkl is_spmm 4)
                   sample_convert sample_check 0%nat 1%nat false false false
                   false sample_world _
                   (snd (dot_product_mkl (failing_mkl is_spmm 4)
                           sample_convert sample_check 0%nat 1%nat false
                           false false false sample_world)) _ _ _ _)).
  - split; discriminate.
  - split; cbn; lia.
  - split; cbn; lia.
  - vm_compute. reflexivity.
Defined.

(** A vendor whose create call always returns status 3. *)
Lemma module_init_outcomes_witness :
  let run := module_init (failing_mkl is_create 3) sample_convert
               sample_check sample_test_array sample_equal fresh_world in
  fst run = Ret tt
  \/ fst run = Raise (ImportError "Unable to set MKL numeric types")
  \/ exists k, fst run = Raise (KeyError k).
Proof.
  cbv zeta.
  refine (proj1 (module_init_outcomes (failing_mkl is_create 3)
                   sample_convert sample_check sample_test_array sample_equal
                   fresh_world _
                   (snd (module_init (failing_mkl is_create 3) sample_convert
                           sample_check sample_test_array sample_equal
                           fresh_world)) _)).
  vm_compute. reflexivity.
Defined.

(** The round trip at the sample vendor. *)
Lemma validate_dtype_round_trip_witness :
  let run := _validate_dtype sample_mkl sample_convert sample_check
               sample_test_array sample_equal sample_world in
  fst run = Ret tt
  /\ List.length (trace (snd run)) = 3%nat
  /\ next_ref (snd run) = 3%nat.
Proof.
  cbv zeta. split; [vm_compute; reflexivity|].
  destruct (validate_dtype_round_trip sample_mkl sample_convert sample_check
              sample_test_array sample_equal sample_world
              (snd (_validate_dtype sample_mkl sample_convert sample_check
                      sample_test_array sample_equal sample_world)))
    as (t & np & _ & _ & T & _ & R & _).
  - vm_compute. reflexivity.
  - split; [rewrite T; reflexivity|exact R].
Defined.

(** A float32 and a float64 sparse operand with [cast]. *)
Lemma type_check_contract_witness :
  let run := _type_check sample_convert (Sparse 0%nat) (Sparse 1%nat) true
               mixed_world in
  fst run <> Ret None
  /\ exists a' b',
       fst run = Ret (Some (a', b'))
       /\ operand_dtype (snd run) a' = float64
       /\ operand_dtype (snd run) b' = float64.
Proof.
  cbv zeta.
  destruct (type_check_contract sample_convert (Sparse 0%nat) (Sparse 1%nat)
              true mixed_world
              (fst (_type_check sample_convert (Sparse 0%nat) (Sparse 1%nat)
                      true mixed_world))
              (snd (_type_check sample_convert (Sparse 0%nat) (Sparse 1%nat)
                      true mixed_world)))
    as (Hn & _ & _ & _ & Hc & _).
  - vm_compute. reflexivity.
  - split; [exact Hn|]. apply Hc; [|reflexivity].
    intros [[_ E]|[E _]]; discriminate E.
Defined.
